(** * Ruki: IR builder, pose algebra, script parser and Universal Robots emitters

    Shallow embedding of
      - [src/postprocessor/Ruki_E.py]              (class [RobotPost], the IR builder),
      - [src/assets/emitters/universal_robots.py]  (pose algebra, parser, emitters,
                                                    model detection),
      - [src/Ruki_C.py]                            (the older copies of the converters
                                                    and the conversion entry point).

    Conventions.
      - Python numbers are values of a type [F] with the operations of class
        [Scalar]; the definitions are generic in it.  The instance on [R]
        (exact arithmetic) is the one in which numeric facts are proved.
      - Python exceptions are the [Raise] case of [result]; [try ... except]
        is [try_or_none].
      - A JSON object field is a [jfield]: absent, [null] or a value.
      - Python dictionaries that are only looked up are [gmap]s; dictionaries
        whose iteration order is observable are association lists. *)

From Stdlib Require Import ZArith List String Ascii Lia Reals Lra RNsatz Psatz.
From Stdlib Require Import DecimalString DecimalNat.
From stdpp Require Import gmap strings list.

Open Scope string_scope.
Open Scope list_scope.

(** ** Python exceptions *)

Module Py.

Inductive exn := IndexError | TypeError | ValueError | KeyError.

Inductive result (A : Type) :=
| Ok (a : A)
| Raise (e : exn).
Arguments Ok {A} a.
Arguments Raise {A} e.

Definition bind {A B} (r : result A) (k : A -> result B) : result B :=
  match r with
  | Ok a => k a
  | Raise e => Raise e
  end.

(** [try: r  except: None] *)
Definition try_or_none {A} (r : result A) : option A :=
  match r with
  | Ok a => Some a
  | Raise _ => None
  end.

(** [l[i]] on a Python list *)
Definition item {A} (l : list A) (i : nat) : result A :=
  match nth_error l i with
  | Some a => Ok a
  | None => Raise IndexError
  end.

(** [str(n)] for a non-negative integer and for an integer *)
Definition str_nat (n : nat) : string := NilZero.string_of_uint (Nat.to_uint n).
Definition str_Z (z : Z) : string := NilZero.string_of_int (Z.to_int z).

(** [f"{n:03d}"]: decimal, padded with zeros on the left to width 3 *)
Definition zfill (w : nat) (s : string) : string :=
  Nat.iter (w - String.length s) (String "0"%char) s.
Definition format_03d (n : nat) : string := zfill 3 (str_nat n).

(** [sep.join(l)] *)
Fixpoint join (sep : string) (l : list string) : string :=
  match l with
  | [] => ""
  | [s] => s
  | s :: l' => s +:+ sep +:+ join sep l'
  end.

(** [s.startswith(p)] *)
Definition startswith (p s : string) : bool := String.prefix p s.

End Py.
Export Py.

#[global] Instance result_ret : MRet result := @Ok.
#[global] Instance result_bind : MBind result := fun A B k r => Py.bind r k.

(** ** Numbers *)

(** The operations the sources use on Python numbers.  [lit m e] is the
    decimal literal [m]e[e] (so [lit 1 (-10)] is [1e-10] and [lit 180 0] is
    [180.0]); [format_f d x] is [f"{x:.<d>f}"] and [fstr x] is [str(x)].
    Division is total: the one divisor that depends on the input,
    [2 * sin(angle)] in [get_cartesian_pose], is shown non-zero below. *)
Class Scalar (F : Type) := {
  fadd : F -> F -> F;
  fsub : F -> F -> F;
  fmul : F -> F -> F;
  fdiv : F -> F -> F;
  fneg : F -> F;
  fabs : F -> F;
  fltb : F -> F -> bool;
  lit : Z -> Z -> F;
  math_pi : F;
  math_sqrt : F -> F;
  math_acos : F -> F;
  math_sin : F -> F;
  math_cos : F -> F;
  format_f : nat -> F -> string;
  fstr : F -> string;
}.

Declare Scope py_scope.
Delimit Scope py_scope with py.
Infix "+" := fadd : py_scope.
Infix "-" := fsub : py_scope.
Infix "*" := fmul : py_scope.
Infix "/" := fdiv : py_scope.
Notation "- x" := (fneg x) : py_scope.
Infix "<?" := fltb : py_scope.

(** JSON object fields *)
Inductive jfield (A : Type) :=
| Absent
| Null
| Val (a : A).
Arguments Absent {A}.
Arguments Null {A}.
Arguments Val {A} a.

(** [d.get(k)] *)
Definition jget {A} (f : jfield A) : option A :=
  match f with
  | Val a => Some a
  | _ => None
  end.

(** [o] as a JSON field that is always written (as [null] for [None]) *)
Definition jwritten {A} (o : option A) : jfield A :=
  match o with
  | Some a => Val a
  | None => Null
  end.

Section DataModel.
Context {F : Type} `{Scalar F}.

(** Python values held in keyword arguments and interpreter state *)
Inductive pyval :=
| PNone
| PBool (b : bool)
| PInt (z : Z)
| PFloat (x : F)
| PStr (s : string).

(** [bool(v)] *)
Definition truthy (v : pyval) : bool :=
  match v with
  | PNone => false
  | PBool b => b
  | PInt z => negb (z =? 0)%Z
  | PFloat x => (x <? lit 0 0)%py || (lit 0 0 <? x)%py
  | PStr s => negb (s =? "")%string
  end.

(** [str(v)] inside an f-string, for the values an IO index takes *)
Definition format_val (v : pyval) : string :=
  match v with
  | PNone => "None"
  | PBool true => "True"
  | PBool false => "False"
  | PInt z => str_Z z
  | PFloat x => fstr x
  | PStr s => s
  end.

(** [kwargs.get(k)] on a keyword dictionary *)
Fixpoint kw_get (k : string) (kw : list (string * pyval)) : option pyval :=
  match kw with
  | [] => None
  | (k', v) :: kw' => if (k =? k')%string then Some v else kw_get k kw'
  end.

(** [d.get(k)] where a missing key gives [None] *)
Definition kw_get_none (k : string) (kw : list (string * pyval)) : pyval :=
  default PNone (kw_get k kw).

(** The interpreter state that every step snapshots ([current_state]) *)
Record state := {
  active_frame : pyval;
  active_frame_id : pyval;
  active_tool : pyval;
  active_tool_id : pyval;
  speed_linear : pyval;
  speed_joints : pyval;
  accel_linear : pyval;
  accel_joints : pyval;
  rounding : pyval;
}.

Record context := {
  ctx_frame : pyval;
  ctx_frame_id : pyval;
  ctx_tool : pyval;
  ctx_tool_id : pyval;
}.

(** A waypoint of the IR, as the builder writes it and the emitters read it *)
Record target := {
  t_id : string;
  t_name : string;
  t_is_joint_target : bool;
  t_joints : jfield (list F);
  t_pose : jfield (list F);
  t_config_RLF : option (list Z);
  t_context : option context;
  t_track_pose : option (list F);
  t_turntable_pose : option (list F);
  t_pose_matrix : jfield (list (list F));
}.

(** One instruction of the IR: [index], [type], the two state snapshots and
    the keyword fields of the step *)
Record step := {
  s_index : nat;
  s_type : string;
  s_state_before : option state;
  s_fields : list (string * pyval);
  s_state_after : option state;
}.

End DataModel.
Arguments pyval F : clear implicits.
Arguments state F : clear implicits.
Arguments context F : clear implicits.
Arguments target F : clear implicits.
Arguments step F : clear implicits.

(** ** The IR builder: class [RobotPost] of [Ruki_E.py] *)

Module RukiE.
Section Builder.
Context {F : Type} `{Scalar F} {Mat : Type}.

(** RoboDK's side of the post-processor protocol: its pose type [Mat] with
    the operations of [robomath] the builder calls, whether the library
    was found at import time, [robofileio.FilterName] when present, and the
    class attribute [INCLUDE_MATRICES], which the user may edit. *)

Record host := {
  pose_2_xyzrpw : Mat -> result (list F);
  Mat_item : Mat -> nat -> nat -> result F;
  Mat_index : Mat -> nat -> result F;
  ROBODK_AVAILABLE : bool;
  FilterName : option (string -> string);
  INCLUDE_MATRICES : bool;
}.

Variable RoboDK : host.

Definition unpack6 (l : list F) : result (list F) :=
  match l with
  | [x; y; z; rx; ry; rz] => Ok [x; y; z; rx; ry; rz]
  | _ => Raise ValueError
  end.

Definition pose_to_xyzrpw_deg (pose : option Mat) : option (list F) :=
  match pose with
  | None => None
  | Some p =>
      try_or_none
        (if ROBODK_AVAILABLE RoboDK then l ← pose_2_xyzrpw RoboDK p; unpack6 l
         else mapM (Mat_index RoboDK p) (seq 0 6))
  end.

Definition mock_identity : list (list F) :=
  [ [lit 1 0; lit 0 0; lit 0 0; lit 0 0];
    [lit 0 0; lit 1 0; lit 0 0; lit 0 0];
    [lit 0 0; lit 0 0; lit 1 0; lit 0 0];
    [lit 0 0; lit 0 0; lit 0 0; lit 1 0] ].

Definition pose_to_matrix (pose : option Mat) : option (list (list F)) :=
  match pose with
  | None => None
  | Some p =>
      try_or_none
        (if ROBODK_AVAILABLE RoboDK
         then mapM (fun i => mapM (fun j => Mat_item RoboDK p i j) (seq 0 4)) (seq 0 4)
         else Ok mock_identity)
  end.

(** The post-processor protocol passes joints as numbers and the
    configuration as integers, on which [float] and [int] do not raise. *)
Definition joints_to_list (joints : option (list F)) : option (list F) :=
  match joints with
  | None => None
  | Some js => try_or_none (mapM Ok js)
  end.

Definition config_to_list (conf_RLF : option (list Z)) : option (list Z) :=
  match conf_RLF with
  | None => None
  | Some cs => try_or_none (mapM Ok cs)
  end.

(** [c.isalnum()] as it acts on ASCII characters; [str.isalnum] also
    accepts the letters and digits beyond ASCII, so the statements about
    [filter_chars] assume an ASCII name *)
Definition isalnum (c : ascii) : bool :=
  let n := nat_of_ascii c in
  (((48 <=? n) && (n <=? 57)) || ((65 <=? n) && (n <=? 90))
   || ((97 <=? n) && (n <=? 122)))%nat.

Fixpoint filter_chars (s : string) : string :=
  match s with
  | EmptyString => EmptyString
  | String c s' =>
      String (if isalnum c || Ascii.eqb c "_" || Ascii.eqb c "-" then c else "_"%char)
             (filter_chars s')
  end.

Definition filter_name (name : string) : string :=
  match FilterName RoboDK with
  | Some f => f name
  | None => filter_chars name
  end.

Record frame_data := {
  fr_parent : option string;
  fr_pose : option (list F);
  fr_frame_id : pyval F;
  fr_original_name : pyval F;
  fr_pose_matrix : jfield (list (list F));
  fr_implicit : bool;
}.

Record tool_data := {
  tl_tcp_pose : option (list F);
  tl_tool_id : pyval F;
  tl_original_name : pyval F;
  tl_pose_matrix : jfield (list (list F));
  tl_implicit : bool;
}.

Record io_entry := {
  io_type : string;
  io_index : pyval F;
}.

Record subprogram := {
  start_step : nat;
  end_step : option nat;
}.

(** The instance attributes of [RobotPost] that the callbacks read or write *)
Record RobotPost := {
  _TargetName : option string;
  _TargetNameVia : option string;
  _PoseTrack : option Mat;
  _PoseTurntable : option Mat;
  PROG_NAME : string;
  PROG_NAMES : list string;
  frames : gmap string frame_data;
  tools : gmap string tool_data;
  targets : list (target F);
  target_counter : nat;
  io_map : gmap string io_entry;
  steps : list (step F);
  instruction_index : nat;
  current_state : state F;
  initial_state : option (state F);
  subprograms : gmap string subprogram;
  current_subprogram : option string;
}.

(** Attribute assignments ([self.x = v]) *)
Definition set_targets (self : RobotPost) (ts : list (target F)) (n : nat) :=
  {| _TargetName := _TargetName self; _TargetNameVia := _TargetNameVia self;
     _PoseTrack := _PoseTrack self; _PoseTurntable := _PoseTurntable self;
     PROG_NAME := PROG_NAME self; PROG_NAMES := PROG_NAMES self;
     frames := frames self; tools := tools self;
     targets := ts; target_counter := n;
     io_map := io_map self; steps := steps self;
     instruction_index := instruction_index self;
     current_state := current_state self; initial_state := initial_state self;
     subprograms := subprograms self;
     current_subprogram := current_subprogram self |}.

Definition set_steps (self : RobotPost) (ss : list (step F)) (n : nat)
    (cs : state F) :=
  {| _TargetName := _TargetName self; _TargetNameVia := _TargetNameVia self;
     _PoseTrack := _PoseTrack self; _PoseTurntable := _PoseTurntable self;
     PROG_NAME := PROG_NAME self; PROG_NAMES := PROG_NAMES self;
     frames := frames self; tools := tools self;
     targets := targets self; target_counter := target_counter self;
     io_map := io_map self; steps := ss;
     instruction_index := n;
     current_state := cs; initial_state := initial_state self;
     subprograms := subprograms self;
     current_subprogram := current_subprogram self |}.

Definition set_tables (self : RobotPost) (fs : gmap string frame_data)
    (tl : gmap string tool_data) (io : gmap string io_entry) :=
  {| _TargetName := _TargetName self; _TargetNameVia := _TargetNameVia self;
     _PoseTrack := _PoseTrack self; _PoseTurntable := _PoseTurntable self;
     PROG_NAME := PROG_NAME self; PROG_NAMES := PROG_NAMES self;
     frames := fs; tools := tl;
     targets := targets self; target_counter := target_counter self;
     io_map := io; steps := steps self;
     instruction_index := instruction_index self;
     current_state := current_state self; initial_state := initial_state self;
     subprograms := subprograms self;
     current_subprogram := current_subprogram self |}.

Definition set_protocol (self : RobotPost) (tn tv : option string)
    (pt pu : option Mat) :=
  {| _TargetName := tn; _TargetNameVia := tv;
     _PoseTrack := pt; _PoseTurntable := pu;
     PROG_NAME := PROG_NAME self; PROG_NAMES := PROG_NAMES self;
     frames := frames self; tools := tools self;
     targets := targets self; target_counter := target_counter self;
     io_map := io_map self; steps := steps self;
     instruction_index := instruction_index self;
     current_state := current_state self; initial_state := initial_state self;
     subprograms := subprograms self;
     current_subprogram := current_subprogram self |}.

Definition set_program (self : RobotPost) (pn : string) (pns : list string)
    (ini : option (state F)) (subs : gmap string subprogram)
    (cur : option string) :=
  {| _TargetName := _TargetName self; _TargetNameVia := _TargetNameVia self;
     _PoseTrack := _PoseTrack self; _PoseTurntable := _PoseTurntable self;
     PROG_NAME := pn; PROG_NAMES := pns;
     frames := frames self; tools := tools self;
     targets := targets self; target_counter := target_counter self;
     io_map := io_map self; steps := steps self;
     instruction_index := instruction_index self;
     current_state := current_state self; initial_state := ini;
     subprograms := subs;
     current_subprogram := cur |}.

Definition zero_pose : list F :=
  [lit 0 0; lit 0 0; lit 0 0; lit 0 0; lit 0 0; lit 0 0].

(** [RobotPost.__init__] *)
Definition init : RobotPost := {|
  _TargetName := None;
  _TargetNameVia := None;
  _PoseTrack := None;
  _PoseTurntable := None;
  PROG_NAME := "";
  PROG_NAMES := [];
  frames := {[ "world" := {| fr_parent := None; fr_pose := Some zero_pose;
                             fr_frame_id := PNone; fr_original_name := PNone;
                             fr_pose_matrix := Absent; fr_implicit := true |} ]};
  tools := {[ "tool0" := {| tl_tcp_pose := Some zero_pose; tl_tool_id := PNone;
                            tl_original_name := PNone;
                            tl_pose_matrix := Absent; tl_implicit := true |} ]};
  targets := [];
  target_counter := 0;
  io_map := ∅;
  steps := [];
  instruction_index := 0;
  current_state := {|
    active_frame := PStr "world";
    active_frame_id := PInt (-1);
    active_tool := PStr "tool0";
    active_tool_id := PInt (-1);
    speed_linear := PFloat (lit 5000 (-1));
    speed_joints := PFloat (lit 600 (-1));
    accel_linear := PFloat (lit 20000 (-1));
    accel_joints := PFloat (lit 1800 (-1));
    rounding := PFloat (lit 0 (-1));
  |};
  initial_state := None;
  subprograms := ∅;
  current_subprogram := None;
|}.

Definition _copy_state (self : RobotPost) : state F := current_state self.

(** [RobotPost._add_target]: returns the new object and the target id *)
Definition _add_target (self : RobotPost) (pose : option Mat)
    (joints : option (list F)) (conf_RLF : option (list Z))
    (name : option string) : RobotPost * string :=
  let counter := S (target_counter self) in
  let target_id := "T" +:+ format_03d counter in
  let is_joint_target := match pose with None => true | Some _ => false end in
  let joints_list := joints_to_list joints in
  let pose_xyzrpw := pose_to_xyzrpw_deg pose in
  let config_list := config_to_list conf_RLF in
  let cs := current_state self in
  let tgt := {|
    t_id := target_id;
    t_name := match name with
              | Some n => if (n =? "")%string then "Target_" +:+ str_nat counter else n
              | None => "Target_" +:+ str_nat counter
              end;
    t_is_joint_target := is_joint_target;
    t_joints := jwritten joints_list;
    t_pose := jwritten pose_xyzrpw;
    t_config_RLF := config_list;
    t_context := Some {| ctx_frame := active_frame cs;
                         ctx_frame_id := active_frame_id cs;
                         ctx_tool := active_tool cs;
                         ctx_tool_id := active_tool_id cs |};
    t_track_pose := pose_to_xyzrpw_deg (_PoseTrack self);
    t_turntable_pose := pose_to_xyzrpw_deg (_PoseTurntable self);
    t_pose_matrix :=
      match pose with
      | Some _ => if INCLUDE_MATRICES RoboDK then jwritten (pose_to_matrix pose) else Absent
      | None => Absent
      end;
  |} in
  (set_targets self (targets self ++ [tgt]) counter,
   target_id).

(** [RobotPost._add_step].  No callback passes a keyword named [index],
    [type], [state_before] or [state_after], so the keyword fields never
    overwrite those four entries of the step dictionary. *)
Definition _add_step (self : RobotPost) (step_type : string)
    (kwargs : list (string * pyval F)) : RobotPost :=
  let index := S (instruction_index self) in
  let before := _copy_state self in
  let fields := List.filter (fun kv => negb (startswith "_" (fst kv))) kwargs in
  let cs := current_state self in
  let cs' :=
    if (step_type =? "SET_FRAME")%string then
      {| active_frame := default (active_frame cs) (kw_get "frame" kwargs);
         active_frame_id := default (PInt (-1)) (kw_get "frame_id" kwargs);
         active_tool := active_tool cs; active_tool_id := active_tool_id cs;
         speed_linear := speed_linear cs; speed_joints := speed_joints cs;
         accel_linear := accel_linear cs; accel_joints := accel_joints cs;
         rounding := rounding cs |}
    else if (step_type =? "SET_TOOL")%string then
      {| active_frame := active_frame cs; active_frame_id := active_frame_id cs;
         active_tool := default (active_tool cs) (kw_get "tool" kwargs);
         active_tool_id := default (PInt (-1)) (kw_get "tool_id" kwargs);
         speed_linear := speed_linear cs; speed_joints := speed_joints cs;
         accel_linear := accel_linear cs; accel_joints := accel_joints cs;
         rounding := rounding cs |}
    else if (step_type =? "SET_SPEED")%string then
      {| active_frame := active_frame cs; active_frame_id := active_frame_id cs;
         active_tool := active_tool cs; active_tool_id := active_tool_id cs;
         speed_linear := default (speed_linear cs) (kw_get "speed_linear" kwargs);
         speed_joints := default (speed_joints cs) (kw_get "speed_joints" kwargs);
         accel_linear := accel_linear cs; accel_joints := accel_joints cs;
         rounding := rounding cs |}
    else if (step_type =? "SET_ACCEL")%string then
      {| active_frame := active_frame cs; active_frame_id := active_frame_id cs;
         active_tool := active_tool cs; active_tool_id := active_tool_id cs;
         speed_linear := speed_linear cs; speed_joints := speed_joints cs;
         accel_linear := default (accel_linear cs) (kw_get "accel_linear" kwargs);
         accel_joints := default (accel_joints cs) (kw_get "accel_joints" kwargs);
         rounding := rounding cs |}
    else if (step_type =? "SET_ROUNDING")%string then
      {| active_frame := active_frame cs; active_frame_id := active_frame_id cs;
         active_tool := active_tool cs; active_tool_id := active_tool_id cs;
         speed_linear := speed_linear cs; speed_joints := speed_joints cs;
         accel_linear := accel_linear cs; accel_joints := accel_joints cs;
         rounding := default (PInt 0) (kw_get "rounding" kwargs) |}
    else cs in
  let st := {| s_index := index; s_type := step_type;
               s_state_before := Some before; s_fields := fields;
               s_state_after := Some cs' |} in
  set_steps self (steps self ++ [st]) index cs'.

(** [isinstance(v, int)]; in Python [bool] is a subclass of [int] *)
Definition is_int (v : pyval F) : bool :=
  match v with
  | PInt _ | PBool _ => true
  | _ => false
  end.

(** [RobotPost._get_io_ref] *)
Definition _get_io_ref (self : RobotPost) (io_var : pyval F) (io_type : string)
    : RobotPost * string :=
  let io_ref := io_type +:+ "_" +:+ format_val io_var in
  match io_map self !! io_ref with
  | Some _ => (self, io_ref)
  | None =>
      let e := {| io_type := io_type;
                  io_index := if is_int io_var then io_var
                              else PStr (format_val io_var) |} in
      (set_tables self (frames self) (tools self) (<[io_ref := e]> (io_map self)),
       io_ref)
  end.

Definition opt_str (o : option string) : pyval F :=
  match o with
  | Some s => PStr s
  | None => PNone
  end.

(** *** RoboDK post-processor callbacks *)

Definition ProgStart (self : RobotPost) (progname : string) : RobotPost :=
  let pn := filter_name progname in
  let pns := PROG_NAMES self ++ [pn] in
  let ini := match initial_state self with
             | None => Some (_copy_state self)
             | Some i => Some i
             end in
  if (1 <? length pns)%nat then
    set_program self pn pns ini
      (<[pn := {| start_step := S (instruction_index self); end_step := None |}]>
         (subprograms self))
      (Some pn)
  else set_program self pn pns ini (subprograms self) (current_subprogram self).

Definition ProgFinish (self : RobotPost) (progname : string) : RobotPost :=
  match current_subprogram self with
  | Some cur =>
      if (cur =? "")%string then self
      else
        set_program self (PROG_NAME self) (PROG_NAMES self) (initial_state self)
          (alter (fun sp => {| start_step := start_step sp;
                               end_step := Some (instruction_index self) |})
                 cur (subprograms self))
          None
  | None => self
  end.

Definition MoveJ (self : RobotPost) (pose : option Mat)
    (joints : option (list F)) (conf_RLF : option (list Z)) : RobotPost :=
  let target_name := _TargetName self in
  let '(self, target_id) := _add_target self pose joints conf_RLF target_name in
  let self := _add_step self "MOVE_J"
                [("target", PStr target_id); ("target_name", opt_str target_name)] in
  set_protocol self None (_TargetNameVia self) (_PoseTrack self) (_PoseTurntable self).

Definition MoveL (self : RobotPost) (pose : option Mat)
    (joints : option (list F)) (conf_RLF : option (list Z)) : RobotPost :=
  let target_name := _TargetName self in
  let '(self, target_id) := _add_target self pose joints conf_RLF target_name in
  let self := _add_step self "MOVE_L"
                [("target", PStr target_id); ("target_name", opt_str target_name)] in
  set_protocol self None (_TargetNameVia self) (_PoseTrack self) (_PoseTurntable self).

Definition MoveC (self : RobotPost) (pose1 : option Mat)
    (joints1 : option (list F)) (pose2 : option Mat) (joints2 : option (list F))
    (conf_RLF_1 conf_RLF_2 : option (list Z)) : RobotPost :=
  let via_name := _TargetNameVia self in
  let end_name := _TargetName self in
  let '(self, via_id) := _add_target self pose1 joints1 conf_RLF_1 via_name in
  let '(self, end_id) := _add_target self pose2 joints2 conf_RLF_2 end_name in
  let self := _add_step self "MOVE_C"
                [("target_via", PStr via_id); ("target_via_name", opt_str via_name);
                 ("target_end", PStr end_id); ("target_end_name", opt_str end_name)] in
  set_protocol self None None (_PoseTrack self) (_PoseTurntable self).

Definition setFrame (self : RobotPost) (pose : option Mat)
    (frame_id frame_name : pyval F) : RobotPost :=
  let frame_key := if truthy frame_name then filter_name (format_val frame_name)
                   else "frame_" +:+ format_val frame_id in
  let frame_data := {|
    fr_parent := Some "world";
    fr_pose := pose_to_xyzrpw_deg pose;
    fr_frame_id := frame_id;
    fr_original_name := frame_name;
    fr_pose_matrix := if INCLUDE_MATRICES RoboDK then jwritten (pose_to_matrix pose)
                      else Absent;
    fr_implicit := false |} in
  let self := set_tables self (<[frame_key := frame_data]> (frames self))
                (tools self) (io_map self) in
  _add_step self "SET_FRAME"
    [("frame", PStr frame_key); ("frame_id", frame_id); ("frame_name", frame_name)].

Definition setTool (self : RobotPost) (pose : option Mat)
    (tool_id tool_name : pyval F) : RobotPost :=
  let tool_key := if truthy tool_name then filter_name (format_val tool_name)
                  else "tool_" +:+ format_val tool_id in
  let tool_data := {|
    tl_tcp_pose := pose_to_xyzrpw_deg pose;
    tl_tool_id := tool_id;
    tl_original_name := tool_name;
    tl_pose_matrix := if INCLUDE_MATRICES RoboDK then jwritten (pose_to_matrix pose)
                      else Absent;
    tl_implicit := false |} in
  let self := set_tables self (frames self) (<[tool_key := tool_data]> (tools self))
                (io_map self) in
  _add_step self "SET_TOOL"
    [("tool", PStr tool_key); ("tool_id", tool_id); ("tool_name", tool_name)].

Definition setSpeed (self : RobotPost) (speed_mms : F) : RobotPost :=
  _add_step self "SET_SPEED" [("speed_linear", PFloat speed_mms)].

Definition setSpeedJoints (self : RobotPost) (speed_degs : F) : RobotPost :=
  _add_step self "SET_SPEED" [("speed_joints", PFloat speed_degs)].

Definition setAcceleration (self : RobotPost) (accel_mmss : F) : RobotPost :=
  _add_step self "SET_ACCEL" [("accel_linear", PFloat accel_mmss)].

Definition setAccelerationJoints (self : RobotPost) (accel_degss : F) : RobotPost :=
  _add_step self "SET_ACCEL" [("accel_joints", PFloat accel_degss)].

Definition setZoneData (self : RobotPost) (zone_mm : F) : RobotPost :=
  _add_step self "SET_ROUNDING" [("rounding", PFloat zone_mm)].

Definition setDO (self : RobotPost) (io_var io_value : pyval F) : RobotPost :=
  let '(self, io_ref) := _get_io_ref self io_var "DO" in
  _add_step self "SET_IO"
    [("io_ref", PStr io_ref); ("io_type", PStr "DO"); ("io_index", io_var);
     ("value", if is_int io_value then PBool (truthy io_value) else io_value)].

Definition setAO (self : RobotPost) (io_var : pyval F) (io_value : F) : RobotPost :=
  let '(self, io_ref) := _get_io_ref self io_var "AO" in
  _add_step self "SET_IO"
    [("io_ref", PStr io_ref); ("io_type", PStr "AO"); ("io_index", io_var);
     ("value", PFloat io_value)].

Definition waitDI (self : RobotPost) (io_var io_value : pyval F) (timeout_ms : F)
    : RobotPost :=
  let '(self, io_ref) := _get_io_ref self io_var "DI" in
  let step_data :=
    [("io_ref", PStr io_ref); ("io_type", PStr "DI"); ("io_index", io_var);
     ("value", if is_int io_value then PBool (truthy io_value) else io_value)] in
  let step_data :=
    if (lit 0 0 <? timeout_ms)%py
    then step_data ++ [("timeout_s", PFloat (timeout_ms / lit 10000 (-1))%py)]
    else step_data in
  _add_step self "WAIT_IO" step_data.

Definition Pause (self : RobotPost) (time_ms : F) : RobotPost :=
  _add_step self "PAUSE"
    [("duration_s", if (lit 0 0 <? time_ms)%py
                    then PFloat (time_ms / lit 10000 (-1))%py else PNone);
     ("is_user_pause", PBool (time_ms <? lit 0 0)%py)].

Definition RunCode (self : RobotPost) (code : string) (is_function_call : bool)
    : RobotPost :=
  _add_step self "RUN_CODE"
    [("code", PStr code); ("is_function_call", PBool is_function_call)].

Definition RunMessage (self : RobotPost) (message : string) (iscomment : bool)
    : RobotPost :=
  _add_step self "MESSAGE" [("text", PStr message); ("is_comment", PBool iscomment)].

(** One invocation by the host: a callback, or the assignment of one of
    the four attributes RoboDK sets before a move *)
Inductive call :=
| CProgStart (progname : string)
| CProgFinish (progname : string)
| CTargetName (n : option string)
| CTargetNameVia (n : option string)
| CPoseTrack (p : option Mat)
| CPoseTurntable (p : option Mat)
| CMoveJ (pose : option Mat) (joints : option (list F)) (conf : option (list Z))
| CMoveL (pose : option Mat) (joints : option (list F)) (conf : option (list Z))
| CMoveC (pose1 : option Mat) (joints1 : option (list F))
         (pose2 : option Mat) (joints2 : option (list F))
         (conf1 conf2 : option (list Z))
| CsetFrame (pose : option Mat) (frame_id frame_name : pyval F)
| CsetTool (pose : option Mat) (tool_id tool_name : pyval F)
| CsetSpeed (v : F)
| CsetSpeedJoints (v : F)
| CsetAcceleration (v : F)
| CsetAccelerationJoints (v : F)
| CsetZoneData (v : F)
| CsetDO (io_var io_value : pyval F)
| CsetAO (io_var : pyval F) (io_value : F)
| CwaitDI (io_var io_value : pyval F) (timeout_ms : F)
| CPause (time_ms : F)
| CRunCode (code : string) (is_function_call : bool)
| CRunMessage (message : string) (iscomment : bool).

Definition invoke (self : RobotPost) (c : call) : RobotPost :=
  match c with
  | CProgStart n => ProgStart self n
  | CProgFinish n => ProgFinish self n
  | CTargetName n =>
      set_protocol self n (_TargetNameVia self) (_PoseTrack self) (_PoseTurntable self)
  | CTargetNameVia n =>
      set_protocol self (_TargetName self) n (_PoseTrack self) (_PoseTurntable self)
  | CPoseTrack p =>
      set_protocol self (_TargetName self) (_TargetNameVia self) p (_PoseTurntable self)
  | CPoseTurntable p =>
      set_protocol self (_TargetName self) (_TargetNameVia self) (_PoseTrack self) p
  | CMoveJ p j c => MoveJ self p j c
  | CMoveL p j c => MoveL self p j c
  | CMoveC p1 j1 p2 j2 c1 c2 => MoveC self p1 j1 p2 j2 c1 c2
  | CsetFrame p i n => setFrame self p i n
  | CsetTool p i n => setTool self p i n
  | CsetSpeed v => setSpeed self v
  | CsetSpeedJoints v => setSpeedJoints self v
  | CsetAcceleration v => setAcceleration self v
  | CsetAccelerationJoints v => setAccelerationJoints self v
  | CsetZoneData v => setZoneData self v
  | CsetDO i v => setDO self i v
  | CsetAO i v => setAO self i v
  | CwaitDI i v t => waitDI self i v t
  | CPause t => Pause self t
  | CRunCode c f => RunCode self c f
  | CRunMessage m c => RunMessage self m c
  end.

(** A whole traversal of a source program by the host *)
Definition run (cs : list call) : RobotPost := fold_left invoke cs init.

(** *** [ProgSave]: the document written to the [.ruki] file *)

(** The block [statistics] *)
Record statistics := {
  total_steps : nat;
  total_targets : nat;
  move_j_count : nat;
  move_l_count : nat;
  move_c_count : nat;
  io_operations : nat;
  frames_defined : nat;
  tools_defined : nat;
}.

(** [sum(1 for s in self.steps if s["type"] in types)] *)
Definition count_steps (types : list string) (ss : list (step F)) : nat :=
  length (List.filter (fun s => existsb (String.eqb (s_type s)) types) ss).

(** The entries of [ruki_data] that depend on the state of the builder.
    The constant entries (versions, units, conventions), the creation time
    and the constructor arguments copied under [robot] are left out, and so
    is the order of the keys of the tables. *)
Record ruki_data := {
  rd_program_name : string;
  rd_frames : gmap string frame_data;
  rd_tools : gmap string tool_data;
  rd_targets : list (target F);
  rd_io_map : gmap string io_entry;
  rd_main : string;
  rd_subprograms : gset string;
  rd_initial_state : state F;
  rd_steps : list (step F);
  rd_statistics : statistics;
}.

Definition build_ruki_data (self : RobotPost) : ruki_data := {|
  rd_program_name := PROG_NAME self;
  rd_frames := frames self;
  rd_tools := tools self;
  rd_targets := targets self;
  rd_io_map := io_map self;
  rd_main := match PROG_NAMES self with
             | n :: _ => n
             | [] => PROG_NAME self
             end;
  rd_subprograms := dom (subprograms self);
  rd_initial_state := match initial_state self with
                      | Some s => s
                      | None => _copy_state self
                      end;
  rd_steps := steps self;
  rd_statistics := {|
    total_steps := length (steps self);
    total_targets := length (targets self);
    move_j_count := count_steps ["MOVE_J"] (steps self);
    move_l_count := count_steps ["MOVE_L"] (steps self);
    move_c_count := count_steps ["MOVE_C"] (steps self);
    io_operations := count_steps ["SET_IO"; "WAIT_IO"] (steps self);
    frames_defined := size (frames self);
    tools_defined := size (tools self);
  |};
|}.

(** [ProgSave]: the path of the file and the document written to it, or
    [None] when the user cancels the dialog.  [getSaveFileName] is
    [robodialogs.getSaveFileName] when that module was imported; the
    argument [progname] is not used by the source. *)
Definition ProgSave (self : RobotPost) (folder progname : string)
    (ask_user : bool) (getSaveFileName : option (string -> string -> option string))
    : option (string * ruki_data) :=
  let ruki_data := build_ruki_data self in
  let filesave := folder +:+ "/" +:+ PROG_NAME self +:+ "." +:+ "ruki" in
  if ask_user then
    match getSaveFileName with
    | Some ask =>
        match ask folder (PROG_NAME self +:+ "." +:+ "ruki") with
        | Some chosen =>
            if (chosen =? "")%string then None else Some (chosen, ruki_data)
        | None => None
        end
    | None => Some (filesave, ruki_data)
    end
  else Some (filesave, ruki_data).

End Builder.
Arguments host F Mat : clear implicits.
Arguments RobotPost F Mat : clear implicits.
Arguments call F Mat : clear implicits.
Arguments ruki_data F : clear implicits.
Arguments frame_data F : clear implicits.
Arguments tool_data F : clear implicits.
Arguments io_entry F : clear implicits.
End RukiE.

(** ** Pose algebra, script parser and emitters: [universal_robots.py] *)

Module UR.
Section PoseAlgebra.
Context {F : Type} `{Scalar F}.

Definition deg2rad (d : F) : F := (d * math_pi / lit 1800 (-1))%py.
Definition rad2deg (r : F) : F := (r * lit 1800 (-1) / math_pi)%py.

(** Python's [max(a, b)] and [min(a, b)] on two arguments *)
Definition py_max (a b : F) : F := if (a <? b)%py then b else a.
Definition py_min (a b : F) : F := if (b <? a)%py then b else a.

(** [math.sqrt], which raises [ValueError] on a negative argument *)
Definition py_sqrt (x : F) : result F :=
  if (x <? lit 0 0)%py then Raise ValueError else Ok (math_sqrt x).

(** [m[i][j]] *)
Definition entry (m : list (list F)) (i j : nat) : result F :=
  row ← item m i; item row j.

(** An empty dictionary read as a target ([targets.get(id, {})]) *)
Definition empty_target : target F := {|
  t_id := ""; t_name := ""; t_is_joint_target := false;
  t_joints := Absent; t_pose := Absent; t_config_RLF := None;
  t_context := None; t_track_pose := None; t_turntable_pose := None;
  t_pose_matrix := Absent |}.

(** Truth value of a list *)
Definition nonempty {A} (l : list A) : bool :=
  match l with
  | [] => false
  | _ => true
  end.

(** The rotation vector of [get_cartesian_pose], from the 3x3 block [R] *)
Definition rotation_vector (R : list (list F)) : result (list F) :=
  R00 ← entry R 0 0; R11 ← entry R 1 1; R22 ← entry R 2 2;
  let trace := (R00 + R11 + R22)%py in
  let cos_a := py_max (lit (-1) 0)
                 (py_min (lit 1 0) ((trace - lit 1 0) / lit 2 0)%py) in
  let angle := math_acos cos_a in
  if (fabs angle <? lit 1 (-10))%py then Ok [lit 0 0; lit 0 0; lit 0 0]
  else if (fabs (angle - math_pi) <? lit 1 (-10))%py then
    s0 ← py_sqrt ((R00 + lit 1 0) / lit 2 0)%py;
    let rx := (s0 * math_pi)%py in
    s1 ← py_sqrt ((R11 + lit 1 0) / lit 2 0)%py;
    let ry := (s1 * math_pi)%py in
    s2 ← py_sqrt ((R22 + lit 1 0) / lit 2 0)%py;
    let rz := (s2 * math_pi)%py in
    R01 ← entry R 0 1;
    let ry := if (R01 <? lit 0 0)%py then (- ry)%py else ry in
    R02 ← entry R 0 2;
    let rz := if (R02 <? lit 0 0)%py then (- rz)%py else rz in
    Ok [rx; ry; rz]
  else
    let k := (angle / (lit 2 0 * math_sin angle))%py in
    R21 ← entry R 2 1; R12 ← entry R 1 2;
    R02 ← entry R 0 2; R20 ← entry R 2 0;
    R10 ← entry R 1 0; R01 ← entry R 0 1;
    Ok [(k * (R21 - R12))%py; (k * (R02 - R20))%py; (k * (R10 - R01))%py].

(** [get_cartesian_pose(target)]: metres and rotation vector in radians *)
Definition get_cartesian_pose (t : target F) : result (option (list F)) :=
  let from_pose :=
    match jget (t_pose t) with
    | Some p =>
        if (6 <=? length p)%nat then
          p0 ← item p 0; p1 ← item p 1; p2 ← item p 2;
          p3 ← item p 3; p4 ← item p 4; p5 ← item p 5;
          Ok (Some [(p0 / lit 1000 0)%py; (p1 / lit 1000 0)%py; (p2 / lit 1000 0)%py;
                    deg2rad p3; deg2rad p4; deg2rad p5])
        else Ok None
    | None => Ok None
    end in
  match jget (t_pose_matrix t) with
  | Some m =>
      if nonempty m && (length m =? 4)%nat then
        m03 ← entry m 0 3; m13 ← entry m 1 3; m23 ← entry m 2 3;
        let x := (m03 / lit 1000 0)%py in
        let y := (m13 / lit 1000 0)%py in
        let z := (m23 / lit 1000 0)%py in
        R ← mapM (fun i => mapM (fun j => entry m i j) (seq 0 3)) (seq 0 3);
        r ← rotation_vector R;
        Ok (Some ([x; y; z] ++ r))
      else from_pose
  | None => from_pose
  end.

(** The rotation matrix computed by the emitted helper [ur_pose_to_robodk]
    from a rotation vector (Rodrigues' formula).  In the degenerate branch
    the helper builds the pose from three zero angles, whose rotation block
    is the identity. *)
Definition ur_pose_to_robodk_R (rx ry rz : F) : list (list F) :=
  let angle := math_sqrt (rx * rx + ry * ry + rz * rz)%py in
  if (angle <? lit 1 (-10))%py then
    [ [lit 1 0; lit 0 0; lit 0 0];
      [lit 0 0; lit 1 0; lit 0 0];
      [lit 0 0; lit 0 0; lit 1 0] ]
  else
    let kx := (rx / angle)%py in
    let ky := (ry / angle)%py in
    let kz := (rz / angle)%py in
    let c := math_cos angle in
    let s := math_sin angle in
    let v := (lit 1 0 - c)%py in
    [ [(kx*kx*v + c)%py; (kx*ky*v - kz*s)%py; (kx*kz*v + ky*s)%py];
      [(kx*ky*v + kz*s)%py; (ky*ky*v + c)%py; (ky*kz*v - kx*s)%py];
      [(kx*kz*v - ky*s)%py; (ky*kz*v + kx*s)%py; (kz*kz*v + c)%py] ].

End PoseAlgebra.

(** *** XML trees ([xml.etree.ElementTree]) *)

Set Warnings "-register-all".

Inductive xml :=
| Element (tag : string) (attrib : list (string * string))
          (text : option string) (children : list xml).

Definition xml_tag (e : xml) : string := let 'Element t _ _ _ := e in t.
Definition xml_attrib (e : xml) : list (string * string) :=
  let 'Element _ a _ _ := e in a.
Definition xml_text (e : xml) : option string := let 'Element _ _ x _ := e in x.
Definition xml_children (e : xml) : list xml := let 'Element _ _ _ c := e in c.

(** [e.find(tag)]: the first child with that tag *)
Definition xml_find (tag : string) (e : xml) : option xml :=
  List.find (fun c => (xml_tag c =? tag)%string) (xml_children e).

(** What an emitter leaves on disk: a text file, or the gzip member holding
    the serialised tree *)
Inductive content :=
| Text (s : string)
| GzipXml (root : xml).

(** What a converter returns, [(ok, message, path)], and the files written *)
Record outcome := {
  sucesso : bool;
  mensagem : string;
  caminho : option string;
  written : list (string * content);
}.

(** [os.path.join(pasta, name)] *)
Definition path_join (pasta name : string) : string := pasta +:+ "/" +:+ name.

(** The catalog entry of a robot model ([robot_data]) *)
Record robot := {
  urp : gmap string string;
  nome_completo : option string;
  robodk_nome : option string;
  robodk_frame : option string;
}.

Section Parser.
Context {F : Type} `{Scalar F}.

(** A command of [parse_script_moves].  [joints = None] and [pose = Absent]
    stand for a dictionary without that key. *)
Inductive comando :=
| Move (tipo : string) (joints : option (list F)) (pose : jfield (list F))
| Io (index : nat) (value : bool).

(** A script line as the regular expressions of [parse_script_moves] see
    it: whether the line is skipped before any search, and for each pattern
    whether it matched and what [float] made of the comma-separated group
    ([Raise] when a piece is not a number).  [lm_movel] is the first match
    among the three linear-move patterns, in the order the source tries
    them. *)
Record line_match := {
  lm_skipped : bool;
  lm_joints_comment : option (result (list F));
  lm_movej : option (result (list F));
  lm_movel : option (result (list F));
  lm_io : option (nat * bool);
}.

(** [if all(abs(v) < 7 for v in vals): vals = [rad2deg(v) for v in vals]] *)
Definition radians_heuristic (vals : list F) : list F :=
  if forallb (fun v => (fabs v <? lit 7 0)%py) vals
  then map rad2deg vals else vals.

(** One iteration of the loop of [parse_script_moves] *)
Definition parse_line (l : line_match) : list comando :=
  if lm_skipped l then []
  else
    let joints_from_comment :=
      match lm_joints_comment l with
      | Some (Ok vs) => Some (radians_heuristic (take 6 vs))
      | _ => None
      end in
    match lm_movej l with
    | Some (Ok vs) =>
        let vals := radians_heuristic (take 6 vs) in
        [Move "MoveJ"
              (Some match joints_from_comment with
                    | Some (j :: js) => j :: js
                    | _ => vals
                    end)
              Absent]
    | Some (Raise _) => []
    | None =>
        match lm_movel l with
        | Some r =>
            let pose_vals := try_or_none (vs ← r; Ok (take 6 vs)) in
            match joints_from_comment with
            | Some (j :: js) => [Move "MoveL" (Some (j :: js)) (jwritten pose_vals)]
            | _ =>
                match pose_vals with
                | Some (v :: vs) => [Move "MoveL" None (Val (v :: vs))]
                | _ => []
                end
            end
        | None =>
            match lm_io l with
            | Some (i, v) => [Io i v]
            | None => []
            end
        end
    end.

Definition parse_script_moves (linhas : list line_match) : list comando :=
  concat (map parse_line linhas).

End Parser.
Arguments comando F : clear implicits.
Arguments line_match F : clear implicits.

Section Emitters.
Context {F : Type} `{Scalar F}.

(** The parsed [.ruki] document ([ler_ruki]) *)
Record ruki := {
  program_name : option string;
  ruki_initial_state : list (string * pyval F);
  ruki_targets : list (target F);
  ruki_steps : list (step F);
}.

(** The entries of a state snapshot, as the builder writes them *)
Definition state_items (s : state F) : list (string * pyval F) :=
  [("active_frame", active_frame s); ("active_frame_id", active_frame_id s);
   ("active_tool", active_tool s); ("active_tool_id", active_tool_id s);
   ("speed_linear", speed_linear s); ("speed_joints", speed_joints s);
   ("accel_linear", accel_linear s); ("accel_joints", accel_joints s);
   ("rounding", rounding s)].

(** [ler_ruki] on a file written by [ProgSave]: the entries the emitters
    read from the document.  JSON keeps the numbers, strings, booleans,
    nulls and lists of the document as they are. *)
Definition ler_ruki (d : RukiE.ruki_data F) : ruki := {|
  program_name := Some (RukiE.rd_program_name d);
  ruki_initial_state := state_items (RukiE.rd_initial_state d);
  ruki_targets := RukiE.rd_targets d;
  ruki_steps := RukiE.rd_steps d;
|}.

(** A number read from JSON and used in arithmetic *)
Definition number (v : pyval F) : result F :=
  match v with
  | PFloat x => Ok x
  | PInt z => Ok (lit z 0)
  | PBool b => Ok (lit (if b then 1 else 0) 0)
  | _ => Raise TypeError
  end.

(** [{t['id']: t for t in targets}]: a later target replaces an earlier one
    with the same id *)
Definition targets_by_id (ts : list (target F)) : gmap string (target F) :=
  fold_left (fun m t => <[t_id t := t]> m) ts ∅.

(** [targets.get(step.get('target'), {})] *)
Definition lookup_target (targets : gmap string (target F)) (s : step F)
    : target F :=
  match kw_get_none "target" (s_fields s) with
  | PStr id => default empty_target (targets !! id)
  | _ => empty_target
  end.

(** [[deg2rad(x) for x in t.get('joints', [0]*6)]] *)
Definition joints_rad (t : target F) : result (list F) :=
  match t_joints t with
  | Absent => Ok (map deg2rad (replicate 6 (lit 0 0)))
  | Null => Raise TypeError
  | Val js => Ok (map deg2rad js)
  end.

(** *** IR to controller script: [ruki_para_script] *)

(** One iteration of the step loop: the line appended, if any, and the
    counters [mc], [ic] *)
Definition script_step (targets : gmap string (target F))
    (acc : list string * nat * nat) (s : step F)
    : result (list string * nat * nat) :=
  let '(linhas, mc, ic) := acc in
  let st := s_type s in
  if (st =? "MOVE_J")%string then
    let t := lookup_target targets s in
    j ← joints_rad t;
    Ok (linhas ++ ["  movej([" +:+ join "," (map (format_f 6) j)
                   +:+ "],accel_radss,speed_rads,0,blend_radius_m)"],
        S mc, ic)
  else if (st =? "MOVE_L")%string then
    let t := lookup_target targets s in
    pose ← get_cartesian_pose t;
    match pose with
    | Some (x :: xs) =>
        Ok (linhas ++ ["  movel(p[" +:+ join "," (map (format_f 6) (x :: xs))
                       +:+ "],accel_mss,speed_ms,0,blend_radius_m)"],
            S mc, ic)
    | _ => Ok (linhas, mc, ic)
    end
  else if (st =? "SET_IO")%string then
    Ok (linhas ++ ["  set_standard_digital_out("
                   +:+ format_val (default (PInt 0) (kw_get "io_index" (s_fields s)))
                   +:+ ", "
                   +:+ (if truthy (kw_get_none "value" (s_fields s))
                        then "True" else "False")
                   +:+ ")"],
        mc, S ic)
  else if (st =? "MESSAGE")%string && truthy (kw_get_none "is_comment" (s_fields s)) then
    Ok (linhas ++ ["  # " +:+ format_val (default (PStr "") (kw_get "text" (s_fields s)))],
        mc, ic)
  else Ok (linhas, mc, ic).

(** [for step in steps: ...] with a body that may raise *)
Fixpoint for_each {A B} (body : A -> B -> result A) (acc : A) (l : list B)
    : result A :=
  match l with
  | [] => Ok acc
  | b :: l' => acc' ← body acc b; for_each body acc' l'
  end.

Definition ini_get (ini : list (string * pyval F)) (k : string) (d : Z)
    : result F :=
  number (default (PInt d) (kw_get k ini)).

Definition ruki_para_script (r : ruki) (robot_data : option robot)
    (pasta : string) : result outcome :=
  let nome := default "programa" (program_name r) in
  let ini := ruki_initial_state r in
  let targets := targets_by_id (ruki_targets r) in
  sl ← ini_get ini "speed_linear" 500;
  sj ← ini_get ini "speed_joints" 60;
  al ← ini_get ini "accel_linear" 2000;
  aj ← ini_get ini "accel_joints" 180;
  ro ← ini_get ini "rounding" 0;
  let linhas :=
    ["def " +:+ nome +:+ "():";
     "  global speed_ms = " +:+ format_f 3 (sl / lit 1000 0)%py;
     "  global speed_rads = " +:+ format_f 3 (deg2rad sj);
     "  global accel_mss = " +:+ format_f 3 (al / lit 1000 0)%py;
     "  global accel_radss = " +:+ format_f 3 (deg2rad aj);
     "  global blend_radius_m = " +:+ format_f 3 (ro / lit 1000 0)%py;
     ""] in
  '(linhas, mc, ic) ← for_each (script_step targets) (linhas, 0, 0) (ruki_steps r);
  let linhas := linhas ++ ["end"; ""; nome +:+ "()"] in
  let caminho := path_join pasta (nome +:+ ".script") in
  Ok {| sucesso := true;
        mensagem := "Movimentos: " +:+ str_nat mc +:+ "
IOs: " +:+ str_nat ic +:+ "

Arquivo: " +:+ caminho;
        caminho := Some caminho;
        written := [(caminho, Text (join "
" linhas))] |}.


(** *** The archive tree shared by [ruki_para_urp] and [script_para_urp] *)

Definition kinematics_children (urp : gmap string string) : list xml :=
  map (fun k => Element k [("value", default "" (urp !! k))] None [])
      ["deltaTheta"; "a"; "d"; "alpha"; "jointChecksum"].

(** The [Move] element appended for one waypoint; [mc] is the number of
    moves emitted before it and [wp] the number of this waypoint *)
Definition move_element (urp : gmap string string) (motion js : string)
    (mc wp : nat) : xml :=
  Element "Move"
    [("motionType", motion); ("speed", "1.0"); ("acceleration", "1.2");
     ("useActiveTCP", "true"); ("positionType", "CartesianPose")] None
    [ Element "feature"
        [("class", "GeomFeatureReference");
         (if (mc =? 0)%nat then "referencedName" else "reference",
          if (mc =? 0)%nat then "Joint_0_name" else "../../Move/feature")] None [];
      Element "children" [] None
        [ Element "Waypoint"
            [("type", "Fixed"); ("name", "Waypoint_" +:+ str_nat wp);
             ("kinematicsFlags", "4")] None
            [ Element "motionParameters" [] None [];
              Element "position" [] None
                [ Element "JointAngles" [("angles", js)] None [];
                  Element "TCPOffset" [("pose", "0.0, 0.0, 0.0, 0.0, 0.0, 0.0")] None [];
                  Element "Kinematics"
                    [("status", "NOT_INITIALIZED"); ("validChecksum", "false")] None
                    (kinematics_children urp) ];
              Element "BaseToFeature" [("pose", "0.0, 0.0, 0.0, 0.0, 0.0, 0.0")] None []
            ] ] ].

(** The [Set] element appended for one digital output; [ic] is the number
    of outputs emitted before it *)
Definition set_element (index : string) (value : bool) (ic : nat) : xml :=
  Element "Set" [("type", "DigitalOutput")] None
    [ Element "pin"
        [(if (ic =? 0)%nat then "referencedName" else "reference",
          if (ic =? 0)%nat then "digital_out[" +:+ index +:+ "]" else "../../Set/pin")]
        None [];
      Element "digitalValue" [] (Some (if value then "1" else "0")) [] ].

Definition urp_root (nome : string) (urp : gmap string string)
    (main_children : list xml) : xml :=
  Element "URProgram"
    [("name", nome); ("installation", "default"); ("directory", "/programs");
     ("createdIn", "5.25.0"); ("lastSavedIn", "5.25.0")] None
    [ Element "kinematics"
        [("status", "NOT_INITIALIZED"); ("validChecksum", "false")] None
        (kinematics_children urp);
      Element "children" [] None
        [ Element "InitVariablesNode" [] None [];
          Element "MainProgram"
            [("runOnlyOnce", "false"); ("InitVariablesNode", "true")] None
            [ Element "children" [] None main_children ] ] ].

(** The children of [MainProgram/children] in a tree built by [urp_root] *)
Definition main_children_of (root : xml) : list xml :=
  match xml_children root with
  | [_; Element _ _ _ [_; Element _ _ _ [Element _ _ _ cs]]] => cs
  | _ => []
  end.

(** *** IR to archive: [ruki_para_urp] *)

(** Loop state: the children of the main program and [mc], [ic], [wp] *)
Record urp_acc := {
  acc_children : list xml;
  acc_mc : nat;
  acc_ic : nat;
  acc_wp : nat;
}.

Definition urp_acc0 : urp_acc :=
  {| acc_children := []; acc_mc := 0; acc_ic := 0; acc_wp := 0 |}.

(** One iteration of the step loop of [ruki_para_urp] (and of
    [converter_ruki_para_urp], whose loop is the same text) *)
Definition urp_step (targets : gmap string (target F)) (urp : gmap string string)
    (acc : urp_acc) (s : step F) : result urp_acc :=
  let st := s_type s in
  if (st =? "MOVE_J")%string || (st =? "MOVE_L")%string then
    let t := lookup_target targets s in
    j ← joints_rad t;
    let js := join ", " (map (format_f 6) j) in
    let motion := if (st =? "MOVE_J")%string then "MoveJ" else "MoveL" in
    let wp := S (acc_wp acc) in
    Ok {| acc_children := acc_children acc
                            ++ [move_element urp motion js (acc_mc acc) wp];
          acc_mc := S (acc_mc acc); acc_ic := acc_ic acc; acc_wp := wp |}
  else if (st =? "SET_IO")%string then
    Ok {| acc_children :=
            acc_children acc
            ++ [set_element
                  (format_val (default (PInt 0) (kw_get "io_index" (s_fields s))))
                  (truthy (kw_get_none "value" (s_fields s))) (acc_ic acc)];
          acc_mc := acc_mc acc; acc_ic := S (acc_ic acc); acc_wp := acc_wp acc |}
  else Ok acc.

Definition robot_not_found : outcome :=
  {| sucesso := false; mensagem := "Dados do robô não encontrados";
     caminho := None; written := [] |}.

Definition ruki_para_urp (r : ruki) (robot_data : option robot)
    (pasta : string) : result outcome :=
  let nome := default "programa" (program_name r) in
  match robot_data with
  | None => Ok robot_not_found
  | Some rd =>
      let targets := targets_by_id (ruki_targets r) in
      acc ← for_each (urp_step targets (urp rd)) urp_acc0 (ruki_steps r);
      let caminho := path_join pasta (nome +:+ ".urp") in
      Ok {| sucesso := true;
            mensagem := "Modelo: " +:+ default "" (nome_completo rd) +:+ "
Movimentos: " +:+ str_nat (acc_mc acc) +:+ "
IOs: " +:+ str_nat (acc_ic acc) +:+ "

Arquivo: " +:+ caminho;
            caminho := Some caminho;
            written := [(caminho, GzipXml (urp_root nome (urp rd) (acc_children acc)))] |}
  end.

(** *** Parsed script to archive: [script_para_urp] *)

(** One iteration of the command loop; the last component is
    [movel_sem_joints] *)
Definition urp_cmd (urp : gmap string string) (st : urp_acc * nat)
    (cmd : comando F) : urp_acc * nat :=
  let '(acc, movel_sem_joints) := st in
  match cmd with
  | Move tipo None _ => (acc, S movel_sem_joints)
  | Move tipo (Some joints) _ =>
      let wp := S (acc_wp acc) in
      let j := map deg2rad joints in
      ({| acc_children :=
            acc_children acc
            ++ [move_element urp tipo (join ", " (map (format_f 6) j)) (acc_mc acc) wp];
          acc_mc := S (acc_mc acc); acc_ic := acc_ic acc; acc_wp := wp |},
       movel_sem_joints)
  | Io index value =>
      ({| acc_children := acc_children acc
                            ++ [set_element (str_nat index) value (acc_ic acc)];
          acc_mc := acc_mc acc; acc_ic := S (acc_ic acc); acc_wp := acc_wp acc |},
       movel_sem_joints)
  end.

Definition no_commands : outcome :=
  {| sucesso := false; mensagem := "Nenhum comando encontrado";
     caminho := None; written := [] |}.

(** [nome] is the base name of the input file without its extension and
    [linhas] its lines *)
Definition script_para_urp (nome : string) (linhas : list (line_match F))
    (robot_data : option robot) (pasta : string) : outcome :=
  match robot_data with
  | None => robot_not_found
  | Some rd =>
      let comandos := parse_script_moves linhas in
      let '(acc, movel_sem_joints) :=
        fold_left (urp_cmd (urp rd)) comandos (urp_acc0, 0) in
      if (acc_mc acc =? 0)%nat && (acc_ic acc =? 0)%nat then no_commands
      else
        let caminho := path_join pasta (nome +:+ ".urp") in
        let msg := "Movimentos: " +:+ str_nat (acc_mc acc) +:+ "
IOs: " +:+ str_nat (acc_ic acc) in
        let msg :=
          if (0 <? movel_sem_joints)%nat
          then msg +:+ "

⚠ " +:+ str_nat movel_sem_joints +:+ " MoveL ignorados (sem #JOINTS)
Use .script do RoboDK com output joints+cartesian"
          else msg in
        {| sucesso := true;
           mensagem := msg +:+ "

Arquivo: " +:+ caminho;
           caminho := Some caminho;
           written := [(caminho, GzipXml (urp_root nome (urp rd) (acc_children acc)))] |}
  end.

(** *** Parsed script to RoboDK program: [script_para_robodk] *)

(** The double quotation mark *)
Definition quote : string := String (ascii_of_nat 34) EmptyString.

(** [s.replace(' ', '_')] *)
Fixpoint replace_spaces (s : string) : string :=
  match s with
  | EmptyString => EmptyString
  | String c s' => String (if Ascii.eqb c " " then "_"%char else c) (replace_spaces s')
  end.

(** The text the program starts with: [origem] is the base name of the
    input file *)
Definition robodk_header (origem nome_robo nome_frame : string) : string :=
  "# -*- coding: UTF-8 -*-
"
  +:+ quote
  +:+ quote
  +:+ quote
  +:+ "
Programa RoboDK gerado por Ruki-C v1.7
Arquivo origem: "
  +:+ origem
  +:+ "
"
  +:+ quote
  +:+ quote
  +:+ quote
  +:+ "

from robolink import *
from robodk import *
import math

# ============================================================
# CONFIGURAÇÕES DO ROBÔ (edite conforme necessário)
# ============================================================
RDK = Robolink()
robot = RDK.Item('"
  +:+ nome_robo
  +:+ "', ITEM_TYPE_ROBOT)
robot.setPoseFrame(RDK.Item('"
  +:+ nome_frame
  +:+ "', ITEM_TYPE_FRAME))
robot.setPoseTool(RDK.Item('Tool', ITEM_TYPE_TOOL))
robot.setSpeed(250)
robot.setSpeedJoints(60)

# ============================================================
# FUNÇÃO AUXILIAR (não precisa editar)
# ============================================================
def ur_pose_to_robodk(x, y, z, rx, ry, rz):
    "
  +:+ quote
  +:+ quote
  +:+ quote
  +:+ "Converte pose UR (metros + rotation vector rad) para Pose RoboDK"
  +:+ quote
  +:+ quote
  +:+ quote
  +:+ "
    x_mm, y_mm, z_mm = x * 1000, y * 1000, z * 1000
    angle = math.sqrt(rx*rx + ry*ry + rz*rz)
    if angle < 1e-10:
        return KUKA_2_Pose([x_mm, y_mm, z_mm, 0, 0, 0])
    kx, ky, kz = rx/angle, ry/angle, rz/angle
    c, s = math.cos(angle), math.sin(angle)
    v = 1 - c
    R = [[kx*kx*v+c, kx*ky*v-kz*s, kx*kz*v+ky*s],
         [kx*ky*v+kz*s, ky*ky*v+c, ky*kz*v-kx*s],
         [kx*kz*v-ky*s, ky*kz*v+kx*s, kz*kz*v+c]]
    if abs(R[2][0]) < 0.9999:
        pitch = math.asin(-R[2][0])
        roll = math.atan2(R[2][1]/math.cos(pitch), R[2][2]/math.cos(pitch))
        yaw = math.atan2(R[1][0]/math.cos(pitch), R[0][0]/math.cos(pitch))
    else:
        yaw = 0
        if R[2][0] < 0:
            pitch = math.pi/2
            roll = math.atan2(R[0][1], R[0][2])
        else:
            pitch = -math.pi/2
            roll = math.atan2(-R[0][1], -R[0][2])
    return KUKA_2_Pose([x_mm, y_mm, z_mm, math.degrees(yaw), math.degrees(pitch), math.degrees(roll)])

# ============================================================
# PROGRAMA
# ============================================================
".

(** One iteration of the command loop: the code so far and [mc], [ic].
    [p[0]] raises on [None] and on a list that is too short. *)
Definition robodk_cmd (st : string * nat * nat) (cmd : comando F)
    : result (string * nat * nat) :=
  let '(codigo, mc, ic) := st in
  match cmd with
  | Move tipo joints pose =>
      match (tipo =? "MoveJ")%string, joints with
      | true, Some js =>
          Ok (codigo +:+ "robot.MoveJ([" +:+ join ", " (map (format_f 4) js) +:+ "])
", S mc, ic)
      | _, _ =>
          if (tipo =? "MoveL")%string then
            match pose with
            | Val p =>
                p0 ← item p 0; p1 ← item p 1; p2 ← item p 2;
                p3 ← item p 3; p4 ← item p 4; p5 ← item p 5;
                Ok (codigo +:+ "robot.MoveL(ur_pose_to_robodk("
                    +:+ join ", " (map (format_f 6) [p0; p1; p2; p3; p4; p5])
                    +:+ "))
", S mc, ic)
            | Null => Raise TypeError
            | Absent =>
                match joints with
                | Some js =>
                    Ok (codigo +:+ "robot.MoveL(["
                        +:+ join ", " (map (format_f 4) js) +:+ "])
", S mc, ic)
                | None => Ok (codigo, mc, ic)
                end
            end
          else Ok (codigo, mc, ic)
      end
  | Io index value =>
      Ok (codigo +:+ "robot.setDO(" +:+ str_nat index +:+ ", "
          +:+ (if value then "1" else "0") +:+ ")
", mc, S ic)
  end.

Definition robodk_footer : string :=
  "
print(" +:+ quote +:+ "Programa concluído!" +:+ quote +:+ ")
".

(** [origem] is the base name of the input file, [stem] that name without
    its extension and [linhas] the lines of the file *)
Definition script_para_robodk (origem stem : string) (linhas : list (line_match F))
    (robot_data : option robot) (pasta : string) : result outcome :=
  let nome := replace_spaces stem in
  let nome_robo :=
    match robot_data with
    | Some rd => default "UR20" (robodk_nome rd)
    | None => "UR20"
    end in
  let nome_frame :=
    match robot_data with
    | Some rd => default (nome_robo +:+ " Base") (robodk_frame rd)
    | None => "UR20 Base"
    end in
  let comandos := parse_script_moves linhas in
  '(codigo, mc, ic) ←
    for_each robodk_cmd (robodk_header origem nome_robo nome_frame, 0, 0) comandos;
  let codigo := codigo +:+ robodk_footer in
  let caminho := path_join pasta (nome +:+ "_RoboDK.py") in
  Ok {| sucesso := true;
        mensagem := "Movimentos: " +:+ str_nat mc +:+ "
IOs: " +:+ str_nat ic +:+ "

Arquivo: " +:+ caminho;
        caminho := Some caminho;
        written := [(caminho, Text codigo)] |}.

End Emitters.
Arguments ruki F : clear implicits.

(** *** Model detection: [detectar_modelo] *)

Section Detection.

(** [\w], [str.upper] and case-insensitive character comparison as they
    act on ASCII characters.  Python's are Unicode aware; the two agree on
    ASCII text, and the statements that use these definitions assume it
    ([ascii_text]). *)
Definition is_word (c : ascii) : bool :=
  let n := nat_of_ascii c in
  (((48 <=? n) && (n <=? 57)) || ((65 <=? n) && (n <=? 90))
   || ((97 <=? n) && (n <=? 122)) || (n =? 95))%nat.

Definition upper_char (c : ascii) : ascii :=
  let n := nat_of_ascii c in
  if ((97 <=? n) && (n <=? 122))%nat then ascii_of_nat (n - 32) else c.

Fixpoint upper (s : string) : string :=
  match s with
  | EmptyString => EmptyString
  | String c s' => String (upper_char c) (upper s')
  end.

Definition ci_eqb (a b : ascii) : bool := Ascii.eqb (upper_char a) (upper_char b).

(** The text left after [key] matched case-insensitively at the start of
    [text], with the last character matched *)
Fixpoint match_here (key text : string) (last : option ascii)
    : option (option ascii * string) :=
  match key with
  | EmptyString => Some (last, text)
  | String k key' =>
      match text with
      | EmptyString => None
      | String c text' =>
          if ci_eqb k c then match_here key' text' (Some c) else None
      end
  end.

Definition first_char (s : string) : option ascii :=
  match s with
  | EmptyString => None
  | String c _ => Some c
  end.

(** [\b] between two neighbouring characters ([None] beyond either end) *)
Definition word_boundary (a b : option ascii) : bool :=
  xorb (from_option is_word false a) (from_option is_word false b).

(** [re.search(r'\b' + re.escape(key) + r'\b', text, re.IGNORECASE)], with
    [prev] the character before [text] *)
Fixpoint search_word (key text : string) (prev : option ascii) : bool :=
  (word_boundary prev (first_char text)
   && match match_here key text prev with
      | Some (last, rest) => word_boundary last (first_char rest)
      | None => false
      end)
  || match text with
     | EmptyString => false
     | String c text' => search_word key text' (Some c)
     end.

(** [re.search(re.escape(key), text, re.IGNORECASE)] and [key in text] *)
Fixpoint search_ci (key text : string) : bool :=
  match match_here key text None with
  | Some _ => true
  | None =>
      match text with
      | EmptyString => false
      | String _ text' => search_ci key text'
      end
  end.

Fixpoint contains (key text : string) : bool :=
  String.prefix key text
  || match text with
     | EmptyString => false
     | String _ text' => contains key text'
     end.

(** What the two readers make of the file at [arquivo]: [ler_ruki] followed
    by [.get('robot', {}).get('name', '')], and [ler_arquivo] *)
Record file := {
  robot_name : result string;
  lines : result (list string);
}.

Definition endswith (suffix s : string) : bool :=
  let n := String.length s in
  let k := String.length suffix in
  (k <=? n)%nat && (String.substring (n - k) k s =? suffix)%string.

(** A catalog ([robos]) in declaration order *)
Definition detectar_modelo (arquivo : string) (f : file)
    (robos : list (string * robot)) : option string :=
  default None
    (try_or_none
       (if endswith ".ruki" arquivo then
          nome ← robot_name f;
          Ok (List.find (fun m => contains m nome || contains (upper m) (upper nome))
                        (map fst robos))
        else
          ls ← lines f;
          let texto := join "
" (take 100 ls) in
          Ok (List.find (fun m => search_word m texto None) (map fst robos)))).

End Detection.
End UR.

(** ** The converter front end: [Ruki_C.py] *)

Module RukiC.
Section Compiler.
Context {F : Type} `{Scalar F}.

(** One brand of the catalog, as [carregar_dados_robos] stores it *)
Record marca_data := {
  modelo_padrao : string;
  modelos_ordem : list string;
  robos : list (string * UR.robot);
}.

(** A loaded emitter module; [em_detectar_modelo] is [None] when the
    module defines no [detectar_modelo] *)
Record emitter := {
  em_detectar_modelo :
    option (string -> UR.file -> list (string * UR.robot) -> option string);
}.

(** The two module-level tables, filled when the program starts *)
Variable DADOS_ROBOS : list (string * marca_data).
Variable EMITTERS : list (string * emitter).

(** [d.get(k)] on a dictionary kept in insertion order *)
Fixpoint dict_get {A} (k : string) (d : list (string * A)) : option A :=
  match d with
  | [] => None
  | (k', v) :: d' => if (k =? k')%string then Some v else dict_get k d'
  end.

Definition get_robot_data (marca modelo : string) : option UR.robot :=
  match dict_get marca DADOS_ROBOS with
  | None => None
  | Some d =>
      match dict_get modelo (robos d) with
      | Some r => Some r
      | None => dict_get (modelo_padrao d) (robos d)
      end
  end.

(** Same body as the emitter's function; the two extra arguments are unused *)
Definition get_cartesian_pose (t : target F) (marca modelo : string)
    : result (option (list F)) :=
  UR.get_cartesian_pose t.

(** [detectar_modelo_script] on the list of lines [ler_arquivo] returns *)
Definition detectar_modelo_script (linhas : list string) (marca : string)
    : option string :=
  match dict_get marca DADOS_ROBOS with
  | None => None
  | Some d =>
      let texto := join "
" (take 100 linhas) in
      List.find (fun modelo => UR.search_ci modelo texto) (map fst (robos d))
  end.

Definition detectar_modelo_ruki (robot_name marca : string) : option string :=
  match dict_get marca DADOS_ROBOS with
  | None => None
  | Some d =>
      if existsb (String.eqb robot_name) (map fst (robos d)) then Some robot_name
      else List.find (fun modelo => UR.contains (UR.upper modelo) (UR.upper robot_name))
                     (map fst (robos d))
  end.

(** The model guess of [Api.selecionar_arquivo] for the chosen file *)
Definition modelo_detectado (arq : string) (f : UR.file) (marca : string)
    : option string :=
  if negb (marca =? "")%string then
    match dict_get marca DADOS_ROBOS with
    | None => None
    | Some d =>
        default None
          (try_or_none
             (match dict_get marca EMITTERS with
              | Some {| em_detectar_modelo := Some detect |} =>
                  Ok (detect arq f (robos d))
              | _ =>
                  if UR.endswith ".ruki" arq then
                    nome ← UR.robot_name f; Ok (detectar_modelo_ruki nome marca)
                  else
                    ls ← UR.lines f; Ok (detectar_modelo_script ls marca)
              end))
    end
  else None.

(** [converter_ruki_para_urp]: the step loop is the text of
    [UR.ruki_para_urp]'s loop *)
Definition converter_ruki_para_urp (r : UR.ruki F) (marca modelo pasta : string)
    : result UR.outcome :=
  let nome := default "programa" (UR.program_name r) in
  match get_robot_data marca modelo with
  | None => Ok UR.robot_not_found
  | Some rd =>
      let targets := UR.targets_by_id (UR.ruki_targets r) in
      acc ← UR.for_each (UR.urp_step targets (UR.urp rd)) UR.urp_acc0 (UR.ruki_steps r);
      let caminho := UR.path_join pasta (nome +:+ ".urp") in
      Ok {| UR.sucesso := true;
            UR.mensagem := "Convertido!

Modelo: " +:+ default "" (UR.nome_completo rd) +:+ "
Movimentos: " +:+ str_nat (UR.acc_mc acc) +:+ "
IOs: " +:+ str_nat (UR.acc_ic acc) +:+ "

Arquivo: " +:+ caminho;
            UR.caminho := Some caminho;
            UR.written :=
              [(caminho, UR.GzipXml (UR.urp_root nome (UR.urp rd) (UR.acc_children acc)))] |}
  end.

(** The move branch of the line loop of [converter_script_para_robodk]:
    [tipo] is [MoveJ] or [MoveL] and [r] what [float] made of the group *)
Definition robodk_move (tipo : string) (r : result (list F)) : option string :=
  match r with
  | Ok vs =>
      let vals := UR.radians_heuristic (take 6 vs) in
      Some ("robot." +:+ tipo +:+ "([" +:+ join ", " (map (format_f 4) vals) +:+ "])
")
  | Raise _ => None
  end.

End Compiler.

(** The emitter module of the repository *)
Definition universal_robots : emitter :=
  {| em_detectar_modelo := Some UR.detectar_modelo |}.

End RukiC.

(** ** Exact arithmetic: the instance of [Scalar] on the real numbers

    The operations are those of the real numbers, where the source computes
    with binary64 numbers and prints them.  The two differ by rounding.  The
    difference is material where an operation is ill conditioned, which
    here is the rotation vector of an angle close to pi, and where a
    decimal to print lies halfway between two printed values; the
    statements about round trips keep away from the first, and the only
    number whose digits a statement spells out is 0. *)

Module Exact.

Definition Rltb (a b : R) : bool := if Rlt_dec a b then true else false.

(** The decimal literal [m]e[e] *)
Definition Rlit (m e : Z) : R :=
  if (0 <=? e)%Z then IZR (m * 10 ^ e) else (IZR m / IZR (10 ^ (- e)))%R.

(** Nearest integer, ties to the even one *)
Definition round_half_even (y : R) : Z :=
  let f := Int_part y in
  let d := (y - IZR f)%R in
  if Rlt_dec d (1 / 2) then f
  else if Rlt_dec (1 / 2) d then (f + 1)%Z
  else if Z.even f then f else (f + 1)%Z.

(** [f"{x:.<d>f}"] *)
Definition Rformat_f (d : nat) (x : R) : string :=
  let n := round_half_even (Rabs x * IZR (10 ^ Z.of_nat d)) in
  (if Rlt_dec x 0 then "-" else "")
  +:+ str_Z (n / 10 ^ Z.of_nat d)
  +:+ (if (d =? 0)%nat then ""
       else "." +:+ zfill d (str_Z (n mod 10 ^ Z.of_nat d))).

(** [str(x)]: the shortest of the expansions with 1 to 17 decimals that
    denotes [x] exactly, and the one with 17 decimals when none does *)
Definition Rstr (x : R) : string :=
  let exact k := if Req_dec_T (frac_part (Rabs x * IZR (10 ^ Z.of_nat k))) 0
                 then true else false in
  Rformat_f (default 17%nat (List.find exact (seq 1 17))) x.

#[global] Instance R_scalar : Scalar R := {|
  fadd := Rplus;
  fsub := Rminus;
  fmul := Rmult;
  fdiv := Rdiv;
  fneg := Ropp;
  fabs := Rabs;
  fltb := Rltb;
  lit := Rlit;
  math_pi := PI;
  math_sqrt := sqrt;
  math_acos := acos;
  math_sin := sin;
  math_cos := cos;
  format_f := Rformat_f;
  fstr := Rstr;
|}.

End Exact.

(** ** Definitions used in the statements *)

(** Reading a string of decimal digits back as a number *)
Definition read_nat (s : string) : option nat :=
  option_map Nat.of_uint (NilEmpty.uint_of_string s).

Section BuilderInvariants.
Context {F : Type} `{Scalar F} {Mat : Type}.

(** The id the builder gives to the [n]-th target *)
Definition target_id (n : nat) : string := "T" +:+ format_03d n.

(** The step list carries the indices 1 .. [instruction_index] *)
Definition indices_ok (self : RukiE.RobotPost F Mat) : Prop :=
  map s_index (RukiE.steps self) = seq 1 (RukiE.instruction_index self).

(** The target list carries the ids of 1 .. [target_counter] *)
Definition ids_ok (self : RukiE.RobotPost F Mat) : Prop :=
  map t_id (RukiE.targets self) = map target_id (seq 1 (RukiE.target_counter self)).

End BuilderInvariants.

(** The host of the source's own [test_post] when RoboDK is not installed:
    a pose is the list [[x, y, z, rx, ry, rz]] *)
Definition standalone : RukiE.host R (list R) := {|
  RukiE.pose_2_xyzrpw := fun _ => Raise TypeError;
  RukiE.Mat_item := fun _ _ _ => Raise TypeError;
  RukiE.Mat_index := item;
  RukiE.ROBODK_AVAILABLE := false;
  RukiE.FilterName := None;
  RukiE.INCLUDE_MATRICES := true;
|}.

Section EmitterSpecs.
Context {F : Type} `{Scalar F}.

(** Whether a step makes [ruki_para_urp] append an element *)
Definition emits_element (s : step F) : bool :=
  (s_type s =? "MOVE_J")%string || (s_type s =? "MOVE_L")%string
  || (s_type s =? "SET_IO")%string.

Definition is_move (e : UR.xml) : bool := (UR.xml_tag e =? "Move")%string.
Definition is_set (e : UR.xml) : bool := (UR.xml_tag e =? "Set")%string.

(** The attributes of the first child of [e] named [child] *)
Definition child_attrib (child : string) (e : UR.xml) : list (string * string) :=
  match UR.xml_find child e with
  | Some c => UR.xml_attrib c
  | None => []
  end.

(** What C6 prescribes for the [i]-th Move and the [i]-th Set of a document *)
Definition feature_attrib (i : nat) : list (string * string) :=
  [("class", "GeomFeatureReference");
   if (i =? 0)%nat then ("referencedName", "Joint_0_name")
   else ("reference", "../../Move/feature")].

Definition pin_attrib (i : nat) (index : string) : list (string * string) :=
  [if (i =? 0)%nat then ("referencedName", "digital_out[" +:+ index +:+ "]")
   else ("reference", "../../Set/pin")].

(** The first/subsequent alternation of C6 on the main program of [root];
    [indices] are the output indices of the Set elements, in order *)
Definition alternation (root : UR.xml) (indices : list string) : Prop :=
  let kids := UR.main_children_of root in
  map (child_attrib "feature") (List.filter is_move kids)
  = map feature_attrib (seq 0 (length (List.filter is_move kids)))
  /\ map (child_attrib "pin") (List.filter is_set kids)
     = zip_with pin_attrib (seq 0 (length indices)) indices.

(** The output indices an input asks for, as the emitters print them *)
Definition step_io_index (s : step F) : string :=
  format_val (default (PInt 0) (kw_get "io_index" (s_fields s))).

Definition ruki_io_indices (r : UR.ruki F) : list string :=
  map step_io_index (List.filter (fun s => (s_type s =? "SET_IO")%string) (UR.ruki_steps r)).

Definition comando_io_index (c : UR.comando F) : option string :=
  match c with
  | UR.Io index _ => Some (str_nat index)
  | UR.Move _ _ _ => None
  end.

Definition script_io_indices (linhas : list (UR.line_match F)) : list string :=
  omap comando_io_index (UR.parse_script_moves linhas).

(** The archive documents the emitters produce, with the output indices of
    the input they were produced from *)
Inductive archive : UR.xml -> list string -> Prop :=
| archive_of_script nome linhas robot_data pasta p root :
    In (p, UR.GzipXml root)
       (UR.written (UR.script_para_urp nome linhas robot_data pasta)) ->
    archive root (script_io_indices linhas)
| archive_of_ruki r robot_data pasta o p root :
    UR.ruki_para_urp r robot_data pasta = Ok o ->
    In (p, UR.GzipXml root) (UR.written o) ->
    archive root (ruki_io_indices r)
| archive_of_converter catalog r marca modelo pasta o p root :
    RukiC.converter_ruki_para_urp catalog r marca modelo pasta = Ok o ->
    In (p, UR.GzipXml root) (UR.written o) ->
    archive root (ruki_io_indices r).

(** The counters of a command list: moves with joints, outputs, and moves
    without joints *)
Definition has_joints (c : UR.comando F) : bool :=
  match c with
  | UR.Move _ (Some _) _ => true
  | _ => false
  end.

Definition is_io (c : UR.comando F) : bool :=
  match c with
  | UR.Io _ _ => true
  | _ => false
  end.

Definition lacks_joints (c : UR.comando F) : bool :=
  match c with
  | UR.Move _ None _ => true
  | _ => false
  end.

(** A MOVE_L step for which [get_cartesian_pose] finds no pose *)
Definition unresolvable (targets : gmap string (target F)) (s : step F) : bool :=
  (s_type s =? "MOVE_L")%string
  && match UR.get_cartesian_pose (UR.lookup_target targets s) with
     | Ok None => true
     | _ => false
     end.

Definition without_unresolvable (r : UR.ruki F) : UR.ruki F :=
  {| UR.program_name := UR.program_name r;
     UR.ruki_initial_state := UR.ruki_initial_state r;
     UR.ruki_targets := UR.ruki_targets r;
     UR.ruki_steps :=
       List.filter (fun s => negb (unresolvable (UR.targets_by_id (UR.ruki_targets r)) s))
              (UR.ruki_steps r) |}.

(** The step refers to no target of the map, or to one without a [joints]
    field *)
Definition joints_missing (targets : gmap string (target F)) (s : step F) : Prop :=
  match kw_get_none "target" (s_fields s) with
  | PStr id =>
      match targets !! id with
      | Some t => t_joints t = Absent
      | None => True
      end
  | _ => True
  end.

End EmitterSpecs.

Section ArchiveInvariant.

(** The alternation of C6 on a list of children under construction, with
    [mc] moves so far and the output indices [indices] so far *)
Definition alternates (kids : list UR.xml) (mc : nat) (indices : list string)
    : Prop :=
  map (child_attrib "feature") (List.filter is_move kids)
  = map feature_attrib (seq 0 mc)
  /\ map (child_attrib "pin") (List.filter is_set kids)
     = zip_with pin_attrib (seq 0 (length indices)) indices.

End ArchiveInvariant.

Definition six_zeros : string := "0.000000, 0.000000, 0.000000, 0.000000, 0.000000, 0.000000".

(** ** Sample inputs *)

Section Samples.

Definition UR20 : UR.robot := {|
  UR.urp := {[ "deltaTheta" := "0, 0, 0, 0, 0, 0"; "jointChecksum" := "-1" ]};
  UR.nome_completo := Some "Universal Robots UR20";
  UR.robodk_nome := Some "UR20";
  UR.robodk_frame := None;
|}.

Definition plain_step (ty : string) (fields : list (string * pyval R)) : step R :=
  {| s_index := 1; s_type := ty; s_state_before := None; s_fields := fields;
     s_state_after := None |}.

(** An IR whose only step is a pause *)
Definition pause_only : UR.ruki R := {|
  UR.program_name := Some "vazio";
  UR.ruki_initial_state := [];
  UR.ruki_targets := [];
  UR.ruki_steps := [plain_step "PAUSE" [("duration_s", PFloat 1%R)]];
|}.

(** An IR with one joint move whose target does not exist, one output and
    one linear move to a target without joints *)
Definition two_moves : UR.ruki R := {|
  UR.program_name := Some "dois";
  UR.ruki_initial_state := [];
  UR.ruki_targets :=
    [{| t_id := "T002"; t_name := "P"; t_is_joint_target := false;
        t_joints := Absent; t_pose := Absent; t_config_RLF := None;
        t_context := None; t_track_pose := None; t_turntable_pose := None;
        t_pose_matrix := Absent |}];
  UR.ruki_steps :=
    [plain_step "MOVE_J" [("target", PStr "T001")];
     plain_step "SET_IO" [("io_index", PInt 3); ("value", PBool true)];
     plain_step "MOVE_L" [("target", PStr "T002")]];
|}.

Definition no_match : UR.line_match R := {|
  UR.lm_skipped := false; UR.lm_joints_comment := None; UR.lm_movej := None;
  UR.lm_movel := None; UR.lm_io := None |}.

(** [movel(p[0.3, 0.2, 0.5, 0, 3.14, 0], a=1.2, v=0.25)] *)
Definition movel_pose_only : UR.line_match R := {|
  UR.lm_skipped := false; UR.lm_joints_comment := None; UR.lm_movej := None;
  UR.lm_movel := Some (Ok [0.3; 0.2; 0.5; 0; 3.14; 0]%R); UR.lm_io := None |}.

(** [movej([0.1, -0.2, 0.3, 0.0, 1.5, -1.5])] *)
Definition movej_radians : UR.line_match R := {|
  UR.lm_skipped := false; UR.lm_joints_comment := None;
  UR.lm_movej := Some (Ok [0.1; -0.2; 0.3; 0.0; 1.5; -1.5]%R);
  UR.lm_movel := None; UR.lm_io := None |}.

(** [movej([45, -90, 0, 90, 0, 180])] *)
Definition movej_degrees : UR.line_match R := {|
  UR.lm_skipped := false; UR.lm_joints_comment := None;
  UR.lm_movej := Some (Ok [45; -90; 0; 90; 0; 180]%R);
  UR.lm_movel := None; UR.lm_io := None |}.

(** [set_standard_digital_out(2, True)] *)
Definition io_line : UR.line_match R := {|
  UR.lm_skipped := false; UR.lm_joints_comment := None; UR.lm_movej := None;
  UR.lm_movel := None; UR.lm_io := Some (2, true) |}.

End Samples.

Section MoreSamples.

(** A script with two joint moves and two outputs, and the archive
    [script_para_urp] builds from it *)
Definition four_lines : list (UR.line_match R) :=
  [movej_degrees; io_line; movej_radians; io_line].

Definition four_lines_archive : UR.xml :=
  UR.urp_root "demo" (UR.urp UR20)
    (UR.acc_children
       (fold_left (UR.urp_cmd (UR.urp UR20)) (UR.parse_script_moves four_lines)
                  (UR.urp_acc0, 0)).1).

End MoreSamples.

Section DetectionSpecs.

(** A string of ASCII characters: there a Python string and its bytes
    agree, and the character classes and the case folding of Python are
    those of [UR.is_word], [UR.upper_char] and [RukiE.isalnum] *)
Definition is_ascii (c : ascii) : bool := (nat_of_ascii c <? 128)%nat.

Definition ascii_text (s : string) : bool :=
  forallb is_ascii (list_ascii_of_string s).

(** [key] occurs somewhere in [text], letter case ignored *)
Definition occurs_in (key text : string) : Prop :=
  exists pre mid post,
    text = pre +:+ mid +:+ post /\ UR.upper mid = UR.upper key.

(** The last character of [s], or [prev] when [s] is empty *)
Fixpoint last_char_from (prev : option ascii) (s : string) : option ascii :=
  match s with
  | EmptyString => prev
  | String c s' => last_char_from (Some c) s'
  end.

(** [key] occurs in [text] as a whole word, letter case ignored: [text] is
    [pre mid post] where [mid] is [key] up to case and there is a word
    boundary on either side of [mid].  [prev] is the character before
    [text]. *)
Definition occurs_from (prev : option ascii) (key text : string) : Prop :=
  exists pre mid post,
    text = pre +:+ mid +:+ post
    /\ UR.upper mid = UR.upper key
    /\ UR.word_boundary (last_char_from prev pre) (UR.first_char (mid +:+ post)) = true
    /\ UR.word_boundary (last_char_from prev (pre +:+ mid)) (UR.first_char post) = true.

Definition occurs_as_word (key text : string) : Prop := occurs_from None key text.

(** A catalog with three models and the first lines of a script that
    names the second *)
Definition three_models : list (string * UR.robot) :=
  [("UR3e", UR20); ("UR20", UR20); ("UR30", UR20)].

Definition script_lines : list string :=
  ["# Programa para o robo ur20 da celula 3
"; "def prog():
"; "  movej([0,0,0,0,0,0])
"; "end
"].

Definition script_file : UR.file := {|
  UR.robot_name := Raise ValueError;
  UR.lines := Ok script_lines;
|}.

End DetectionSpecs.

(** ** The pose formula as the specification words it *)

Section PoseSpec.
Open Scope R_scope.

(** Entry [i], [j] of a matrix given as a list of rows *)
Definition at_ (m : list (list R)) (i j : nat) : R := nth j (nth i m []) 0.

(** A 4x4 matrix *)
Definition is_4x4 (m : list (list R)) : Prop :=
  length m = 4%nat /\ Forall (fun row => length row = 4%nat) m.

(** [clamp(v, -1, 1)] *)
Definition clamp1 (v : R) : R := Rmax (-1) (Rmin 1 v).

(** The rotation angle: [acos(clamp((trace(R) - 1) / 2, -1, 1))] *)
Definition rotation_angle (m : list (list R)) : R :=
  acos (clamp1 ((at_ m 0 0 + at_ m 1 1 + at_ m 2 2 - 1) / 2)).

(** The three branches of the rotation vector *)
Definition spec_rotation_vector (m : list (list R)) : list R :=
  let angle := rotation_angle m in
  if Rlt_dec (Rabs angle) 1e-10 then [0; 0; 0]
  else if Rlt_dec (Rabs (angle - PI)) 1e-10 then
    let rx := sqrt ((at_ m 0 0 + 1) / 2) * PI in
    let ry := sqrt ((at_ m 1 1 + 1) / 2) * PI in
    let rz := sqrt ((at_ m 2 2 + 1) / 2) * PI in
    [rx;
     if Rlt_dec (at_ m 0 1) 0 then - ry else ry;
     if Rlt_dec (at_ m 0 2) 0 then - rz else rz]
  else
    let k := angle / (2 * sin angle) in
    [k * (at_ m 2 1 - at_ m 1 2);
     k * (at_ m 0 2 - at_ m 2 0);
     k * (at_ m 1 0 - at_ m 0 1)].

Definition spec_cartesian_pose (m : list (list R)) : list R :=
  [at_ m 0 3 / 1000; at_ m 1 3 / 1000; at_ m 2 3 / 1000]
  ++ spec_rotation_vector m.

(** A target that carries the pose matrix [m] *)
Definition target_with_matrix (m : list (list R)) : target R := {|
  t_id := "T001"; t_name := "P1"; t_is_joint_target := false;
  t_joints := Null; t_pose := Null; t_config_RLF := None;
  t_context := None; t_track_pose := None; t_turntable_pose := None;
  t_pose_matrix := Val m |}.

(** The pose at (100, 200, 300) mm with the identity rotation *)
Definition translation_only : list (list R) :=
  [ [1; 0; 0; 100]; [0; 1; 0; 200]; [0; 0; 1; 300]; [0; 0; 0; 1] ].

End PoseSpec.

(** ** Rotation matrices and the round trip through the rotation vector *)

Section RoundTrip.
Open Scope R_scope.

Definition row_dot (m : list (list R)) (i j : nat) : R :=
  at_ m i 0 * at_ m j 0 + at_ m i 1 * at_ m j 1 + at_ m i 2 * at_ m j 2.

Definition det3 (m : list (list R)) : R :=
  at_ m 0 0 * (at_ m 1 1 * at_ m 2 2 - at_ m 1 2 * at_ m 2 1)
  - at_ m 0 1 * (at_ m 1 0 * at_ m 2 2 - at_ m 1 2 * at_ m 2 0)
  + at_ m 0 2 * (at_ m 1 0 * at_ m 2 1 - at_ m 1 1 * at_ m 2 0).

(** A 3x3 rotation matrix: orthonormal rows and determinant 1 *)
Definition is_rotation (m : list (list R)) : Prop :=
  length m = 3%nat
  /\ Forall (fun row => length row = 3%nat) m
  /\ row_dot m 0 0 = 1 /\ row_dot m 1 1 = 1 /\ row_dot m 2 2 = 1
  /\ row_dot m 0 1 = 0 /\ row_dot m 0 2 = 0 /\ row_dot m 1 2 = 0
  /\ det3 m = 1.

(** The rotation vector of [get_cartesian_pose] fed to the rotation matrix
    of [ur_pose_to_robodk] *)
Definition roundtrip (m : list (list R)) : option (list (list R)) :=
  match UR.rotation_vector m with
  | Ok [rx; ry; rz] => Some (UR.ur_pose_to_robodk_R rx ry rz)
  | _ => None
  end.

(** Every entry of the 3x3 matrices [m1] and [m2] agrees within [tol] *)
Definition within (tol : R) (m1 m2 : list (list R)) : Prop :=
  forall i j, (i < 3)%nat -> (j < 3)%nat ->
              Rabs (at_ m1 i j - at_ m2 i j) <= tol.

(** A turn about the z axis by a little less than pi, given by its sine
    2^-23 (1 + 2^-9) *)
Definition exact_half_turn : list (list R) :=
  let s := (1 + / 2 ^ 9) / 2 ^ 23 in
  let c := - sqrt (1 - s * s) in
  [ [c; - s; 0]; [s; c; 0]; [0; 0; 1] ].

(** The same matrix with binary64 entries: the sine is a binary64 number,
    and the binary64 number nearest to the cosine is -(1 - 2^-47) *)
Definition rounded_half_turn : list (list R) :=
  [ [- (1 - / 2 ^ 47); - ((1 + / 2 ^ 9) / 2 ^ 23); 0];
    [(1 + / 2 ^ 9) / 2 ^ 23; - (1 - / 2 ^ 47); 0];
    [0; 0; 1] ].

(** A quarter turn about the z axis *)
Definition quarter_turn : list (list R) :=
  [ [0; -1; 0]; [1; 0; 0]; [0; 0; 1] ].

End RoundTrip.

(** ** Definitions used in the statements about whole runs of the builder *)

Section BuilderRun.
Context {F : Type} `{Scalar F} {Mat : Type}.

Definition is_setter (ty : string) : bool :=
  (ty =? "SET_FRAME")%string || (ty =? "SET_TOOL")%string
  || (ty =? "SET_SPEED")%string || (ty =? "SET_ACCEL")%string
  || (ty =? "SET_ROUNDING")%string.

Fixpoint threads (before : state F) (ss : list (step F)) (after : state F) : Prop :=
  match ss with
  | [] => before = after
  | s :: ss' =>
      s_state_before s = Some before
      /\ exists mid, s_state_after s = Some mid /\ threads mid ss' after
  end.

Definition threaded (self : RukiE.RobotPost F Mat) : Prop :=
  threads (RukiE.current_state (RukiE.init (F:=F) (Mat:=Mat)))
          (RukiE.steps self) (RukiE.current_state self).

Definition quiet (s : step F) : Prop :=
  is_setter (s_type s) = false -> s_state_after s = s_state_before s.

Definition is_ProgStart (c : RukiE.call F Mat) : bool :=
  match c with RukiE.CProgStart _ => true | _ => false end.

(** The target a step field names exists *)
Definition names_target (ts : list (target F)) (s : step F) (k : string) : Prop :=
  exists t, kw_get k (s_fields s) = Some (PStr (t_id t)) /\ In t ts.

Definition step_resolves (ts : list (target F)) (s : step F) : Prop :=
  ((s_type s = "MOVE_J" \/ s_type s = "MOVE_L") -> names_target ts s "target")
  /\ (s_type s = "MOVE_C" ->
      names_target ts s "target_via" /\ names_target ts s "target_end").

(** A value that names an entry of a table *)
Definition defined_in {A} (m : gmap string A) (v : pyval F) : Prop :=
  exists k, v = PStr k /\ is_Some (m !! k).

Definition context_defined (frames : gmap string (RukiE.frame_data F))
    (tools : gmap string (RukiE.tool_data F)) (t : target F) : Prop :=
  exists c, t_context t = Some c
            /\ defined_in frames (ctx_frame c) /\ defined_in tools (ctx_tool c).

Definition resolved (self : RukiE.RobotPost F Mat) : Prop :=
  Forall (step_resolves (RukiE.targets self)) (RukiE.steps self).

Definition framed (self : RukiE.RobotPost F Mat) : Prop :=
  defined_in (RukiE.frames self) (active_frame (RukiE.current_state self))
  /\ defined_in (RukiE.tools self) (active_tool (RukiE.current_state self))
  /\ Forall (context_defined (RukiE.frames self) (RukiE.tools self))
            (RukiE.targets self).

Definition io_kind (ty : string) : Prop := ty = "DO" \/ ty = "AO" \/ ty = "DI".

(** An IO step names an entry of the IO map of its own type, whose index
    prints as the step's index *)
Definition io_step_registered (io_map : gmap string (RukiE.io_entry F))
    (s : step F) : Prop :=
  exists r ty v e,
    kw_get "io_ref" (s_fields s) = Some (PStr r)
    /\ kw_get "io_type" (s_fields s) = Some (PStr ty)
    /\ kw_get "io_index" (s_fields s) = Some v
    /\ io_map !! r = Some e
    /\ RukiE.io_type e = ty
    /\ format_val (RukiE.io_index e) = format_val v.

Definition is_io_step (s : step F) : Prop :=
  s_type s = "SET_IO" \/ s_type s = "WAIT_IO".

Definition io_keyed (m : gmap string (RukiE.io_entry F)) : Prop :=
  forall k e, m !! k = Some e ->
    io_kind (RukiE.io_type e)
    /\ k = RukiE.io_type e +:+ "_" +:+ format_val (RukiE.io_index e).

Definition io_ok (self : RukiE.RobotPost F Mat) : Prop :=
  io_keyed (RukiE.io_map self)
  /\ Forall (fun s => is_io_step s -> io_step_registered (RukiE.io_map self) s)
            (RukiE.steps self).

End BuilderRun.

Section BuilderCalls.
Context {F : Type} `{Scalar F} {Mat : Type}.

(** The type of the step a callback records, if it records one *)
Definition step_type_of (c : RukiE.call F Mat) : option string :=
  match c with
  | RukiE.CMoveJ _ _ _ => Some "MOVE_J"
  | RukiE.CMoveL _ _ _ => Some "MOVE_L"
  | RukiE.CMoveC _ _ _ _ _ _ => Some "MOVE_C"
  | RukiE.CsetFrame _ _ _ => Some "SET_FRAME"
  | RukiE.CsetTool _ _ _ => Some "SET_TOOL"
  | RukiE.CsetSpeed _ | RukiE.CsetSpeedJoints _ => Some "SET_SPEED"
  | RukiE.CsetAcceleration _ | RukiE.CsetAccelerationJoints _ => Some "SET_ACCEL"
  | RukiE.CsetZoneData _ => Some "SET_ROUNDING"
  | RukiE.CsetDO _ _ | RukiE.CsetAO _ _ => Some "SET_IO"
  | RukiE.CwaitDI _ _ _ => Some "WAIT_IO"
  | RukiE.CPause _ => Some "PAUSE"
  | RukiE.CRunCode _ _ => Some "RUN_CODE"
  | RukiE.CRunMessage _ _ => Some "MESSAGE"
  | _ => None
  end.

(** The number of targets a callback records *)
Definition targets_of (c : RukiE.call F Mat) : nat :=
  match c with
  | RukiE.CMoveJ _ _ _ | RukiE.CMoveL _ _ _ => 1
  | RukiE.CMoveC _ _ _ _ _ _ => 2
  | _ => 0
  end.

End BuilderCalls.

Section BuilderPrograms.
Context {F : Type} `{Scalar F} {Mat : Type}.

(** The program names the host passed to [ProgStart], in order *)
Definition started (cs : list (RukiE.call F Mat)) : list string :=
  omap (fun c => match c with RukiE.CProgStart n => Some n | _ => None end) cs.

Definition is_ProgFinish (c : RukiE.call F Mat) : bool :=
  match c with RukiE.CProgFinish _ => true | _ => false end.

(** [sum(1 for ty in types if ty in wanted)] on the types of a step list *)
Definition count_types (wanted : list string) (types : list string) : nat :=
  length (List.filter (fun ty => existsb (String.eqb ty) wanted) types).

End BuilderPrograms.

Section BuilderNames.
Context {F : Type} `{Scalar F} {Mat : Type}.
Variable RoboDK : RukiE.host F Mat.

(** The builder has seen [ProgStart] for [names], in that order *)
Definition named (self : RukiE.RobotPost F Mat) (names : list string) : Prop :=
  RukiE.PROG_NAMES self = map (RukiE.filter_name RoboDK) names
  /\ RukiE.PROG_NAME self = List.last (map (RukiE.filter_name RoboDK) names) ""
  /\ dom (RukiE.subprograms self)
     = list_to_set (tl (map (RukiE.filter_name RoboDK) names)).

End BuilderNames.

Section BuilderSubprograms.
Context {F : Type} `{Scalar F} {Mat : Type}.

(** A callback that neither starts nor finishes a program *)
Definition in_body (c : RukiE.call F Mat) : bool :=
  negb (is_ProgStart c) && negb (is_ProgFinish c).

(** A character that [filter_name] keeps *)
Definition name_char (c : ascii) : bool :=
  RukiE.isalnum c || Ascii.eqb c "_" || Ascii.eqb c "-".

End BuilderSubprograms.

Section PoseBranches.
Context {F : Type} `{Scalar F}.

(** The pose [get_cartesian_pose] makes of a list [x, y, z, rx, ry, rz]
    in millimetres and degrees; values after the sixth are ignored *)
Definition ur_pose_of (p : list F) : option (list F) :=
  match p with
  | p0 :: p1 :: p2 :: p3 :: p4 :: p5 :: _ =>
      Some [(p0 / lit 1000 0)%py; (p1 / lit 1000 0)%py; (p2 / lit 1000 0)%py;
            UR.deg2rad p3; UR.deg2rad p4; UR.deg2rad p5]
  | _ => None
  end.

(** The target carries no matrix of four rows *)
Definition no_usable_matrix (t : target F) : Prop :=
  match t_pose_matrix t with
  | Val m => length m <> 4
  | _ => True
  end.

End PoseBranches.

Section ArchiveReading.
Context {F : Type} `{Scalar F}.

(** [e.get(k)] on an element *)
Definition attr (k : string) (e : UR.xml) : option string :=
  option_map snd (List.find (fun kv => (fst kv =? k)%string) (UR.xml_attrib e)).

(** The waypoint of a Move element, with its name and joint angles *)
Definition waypoint (e : UR.xml) : option UR.xml :=
  c ← UR.xml_find "children" e; UR.xml_find "Waypoint" c.

Definition waypoint_name (e : UR.xml) : option string :=
  w ← waypoint e; attr "name" w.

Definition joint_angles (e : UR.xml) : option string :=
  w ← waypoint e; p ← UR.xml_find "position" w;
  j ← UR.xml_find "JointAngles" p; attr "angles" j.

(** What a Move element says: motion type, joint angles, waypoint name *)
Definition read_move (e : UR.xml) : option string * option string * option string :=
  (attr "motionType" e, joint_angles e, waypoint_name e).

(** The text of the [digitalValue] child of a Set element *)
Definition digital_value (e : UR.xml) : option string :=
  v ← UR.xml_find "digitalValue" e; UR.xml_text v.

(** The moves (motion type and printed joint angles) expected in a
    document, numbered from 1 *)
Definition expected_moves (l : list (string * string))
    : list (option string * option string * option string) :=
  zip_with (fun i m => (Some m.1, Some m.2, Some ("Waypoint_" +:+ str_nat i)))
           (seq 1 (length l)) l.

Definition expected_values (l : list bool) : list (option string) :=
  map (fun b : bool => Some (if b then "1" else "0")) l.

(** [', '.join(f'{x:.6f}' for x in j)] with [j] the joints in radians *)
Definition print_joints (joints : list F) : string :=
  join ", " (map (format_f 6) (map UR.deg2rad joints)).

(** The moves and the output values of a command list, as
    [script_para_urp] emits them *)
Definition comando_move (c : UR.comando F) : option (string * string) :=
  match c with
  | UR.Move tipo (Some joints) _ => Some (tipo, print_joints joints)
  | _ => None
  end.

Definition comando_value (c : UR.comando F) : option bool :=
  match c with
  | UR.Io _ value => Some value
  | _ => None
  end.

Definition comando_tag (c : UR.comando F) : option string :=
  match c with
  | UR.Move _ (Some _) _ => Some "Move"
  | UR.Move _ None _ => None
  | UR.Io _ _ => Some "Set"
  end.

(** The same for the steps of an IR, where reading the joints may fail *)
Definition is_move_step (s : step F) : bool :=
  (s_type s =? "MOVE_J")%string || (s_type s =? "MOVE_L")%string.

Definition is_set_step (s : step F) : bool := (s_type s =? "SET_IO")%string.

Definition step_move (targets : gmap string (target F)) (s : step F)
    : result (string * string) :=
  j ← UR.joints_rad (UR.lookup_target targets s);
  Ok (if (s_type s =? "MOVE_J")%string then "MoveJ" else "MoveL",
      join ", " (map (format_f 6) j)).

Definition step_value (s : step F) : bool :=
  truthy (kw_get_none "value" (s_fields s)).

Definition step_tag (s : step F) : string :=
  if is_set_step s then "Set" else "Move".

(** The loop state agrees with the moves [ms] and the output values [vs]
    emitted so far *)
Definition emitted (acc : UR.urp_acc) (tags : list string)
    (ms : list (string * string)) (vs : list bool) : Prop :=
  UR.acc_mc acc = length ms /\ UR.acc_wp acc = length ms
  /\ UR.acc_ic acc = length vs
  /\ map UR.xml_tag (UR.acc_children acc) = tags
  /\ map read_move (List.filter is_move (UR.acc_children acc)) = expected_moves ms
  /\ map digital_value (List.filter is_set (UR.acc_children acc))
     = expected_values vs.

End ArchiveReading.

Section ParserShape.
Context {F : Type} `{Scalar F}.

(** The shapes of the commands [parse_script_moves] can return *)
Definition well_formed (c : UR.comando F) : Prop :=
  match c with
  | UR.Move tipo joints pose =>
      (tipo = "MoveJ" /\ pose = Absent
       /\ exists js, joints = Some js /\ (length js <= 6)%nat)
      \/ (tipo = "MoveL"
          /\ ((exists js, joints = Some js /\ js <> [] /\ (length js <= 6)%nat
                          /\ match pose with
                             | Val p => (length p <= 6)%nat
                             | Null => True
                             | Absent => False
                             end)
              \/ (joints = None
                  /\ exists p, pose = Val p /\ p <> [] /\ (length p <= 6)%nat)))
  | UR.Io _ _ => True
  end.

End ParserShape.

Section RobodkProgram.
Context {F : Type} `{Scalar F}.

(** A command whose pose [script_para_robodk] can print: a linear move
    carries either no pose or one of at least six values *)
Definition pose_printable (c : UR.comando F) : bool :=
  match c with
  | UR.Move tipo _ (Val p) => negb (tipo =? "MoveL")%string || (6 <=? length p)%nat
  | UR.Move tipo _ Null => negb (tipo =? "MoveL")%string
  | _ => true
  end.

Definition is_move_cmd (c : UR.comando F) : bool :=
  match c with
  | UR.Move _ _ _ => true
  | _ => false
  end.

(** The exception [p[0] ... p[5]] raises on the pose of a command *)
Definition pose_error (c : UR.comando F) : exn :=
  match c with
  | UR.Move _ _ Null => TypeError
  | _ => IndexError
  end.

Definition robodk_path (pasta stem : string) : string :=
  UR.path_join pasta (UR.replace_spaces stem +:+ "_RoboDK.py").

End RobodkProgram.

Section BuilderToArchive.
Context {F : Type} `{Scalar F} {Mat : Type}.

(** The step type and the joints of a joint or linear move callback *)
Definition call_move (c : RukiE.call F Mat) : option (string * option (list F)) :=
  match c with
  | RukiE.CMoveJ _ joints _ => Some ("MOVE_J", joints)
  | RukiE.CMoveL _ joints _ => Some ("MOVE_L", joints)
  | _ => None
  end.

(** The motion type and the printed joints of such a callback when it
    carries joints *)
Definition call_printed (c : RukiE.call F Mat) : option (string * string) :=
  match c with
  | RukiE.CMoveJ _ (Some joints) _ => Some ("MoveJ", print_joints joints)
  | RukiE.CMoveL _ (Some joints) _ => Some ("MoveL", print_joints joints)
  | _ => None
  end.

Definition has_move_without_joints (c : RukiE.call F Mat) : bool :=
  match c with
  | RukiE.CMoveJ _ None _ | RukiE.CMoveL _ None _ => true
  | _ => false
  end.

(** A move step and the callback it was recorded for *)
Definition step_of_move (ts : list (target F)) (s : step F)
    (m : string * option (list F)) : Prop :=
  s_type s = m.1
  /\ exists t, In t ts /\ kw_get "target" (s_fields s) = Some (PStr (t_id t))
               /\ t_joints t = jwritten m.2.

Definition moves_match (self : RukiE.RobotPost F Mat)
    (cs : list (RukiE.call F Mat)) : Prop :=
  Forall2 (step_of_move (RukiE.targets self))
          (List.filter is_move_step (RukiE.steps self)) (omap call_move cs).

(** The document [ProgSave] writes for a run, as the emitters read it *)
Definition saved_ir (RoboDK : RukiE.host F Mat) (cs : list (RukiE.call F Mat))
    : UR.ruki F :=
  UR.ler_ruki (RukiE.build_ruki_data (RukiE.run RoboDK cs)).

End BuilderToArchive.

Section ScriptLayout.

(** The kinds of line in the body of an emitted script *)
Definition is_move_line (l : string) : bool := startswith "  move" l.
Definition is_io_line (l : string) : bool :=
  startswith "  set_standard_digital_out" l.
Definition is_comment_line (l : string) : bool := startswith "  #" l.

Definition body_line (l : string) : bool :=
  is_move_line l || is_io_line l || is_comment_line l.

(** The body lines and counters of the loop of [ruki_para_script] agree *)
Definition script_counted (header : list string) (acc : list string * nat * nat)
    : Prop :=
  exists body,
    acc.1.1 = header ++ body
    /\ forallb body_line body = true
    /\ acc.1.2 = length (List.filter is_move_line body)
    /\ acc.2 = length (List.filter is_io_line body).

End ScriptLayout.

(** ** Sample traversals of the builder *)

Section BuilderSamples.

(** A main program with a speed change, a joint move, an output and a
    linear move, as the host would call the post-processor *)
Definition demo_calls : list (RukiE.call R (list R)) :=
  [RukiE.CProgStart "Main";
   RukiE.CsetSpeed 200%R;
   RukiE.CMoveJ None (Some [0; -90; 0; -90; 0; 0]%R) None;
   RukiE.CsetDO (PInt 2) (PInt 1);
   RukiE.CMoveL None (Some [10; -80; 0; -90; 0; 0]%R) None;
   RukiE.CProgFinish "Main"].

(** The [i]-th step and target the builder holds after [demo_calls] *)
Definition demo_step (i : nat) : step R :=
  nth i (RukiE.steps (RukiE.run standalone demo_calls)) (plain_step "" []).

Definition demo_target (i : nat) : target R :=
  nth i (RukiE.targets (RukiE.run standalone demo_calls))
      {| t_id := ""; t_name := ""; t_is_joint_target := false;
         t_joints := Absent; t_pose := Absent; t_config_RLF := None;
         t_context := None; t_track_pose := None; t_turntable_pose := None;
         t_pose_matrix := Absent |}.

End BuilderSamples.

Section MoreBuilderSamples.

(** The start of a main program, and the body of a subprogram *)
Definition main_prefix : list (RukiE.call R (list R)) :=
  [RukiE.CProgStart "Main";
   RukiE.CMoveJ None (Some [0; -90; 0; -90; 0; 0]%R) None].

Definition grip_body : list (RukiE.call R (list R)) :=
  [RukiE.CsetDO (PInt 2) (PInt 1);
   RukiE.CMoveL None (Some [10; -80; 0; -90; 0; 0]%R) None].

End MoreBuilderSamples.

Section PoseSamples.
Open Scope R_scope.

(** A target 300 mm in front of the base, tool pointing down, given by its
    pose only *)
Definition pose_only_target : target R := {|
  t_id := "T001"; t_name := "P1"; t_is_joint_target := false;
  t_joints := Null; t_pose := Val [300; 0; 500; 180; 0; 0]; t_config_RLF := None;
  t_context := None; t_track_pose := None; t_turntable_pose := None;
  t_pose_matrix := Absent |}.

(** A matrix whose second row lost its translation entry *)
Definition short_row_matrix : list (list R) :=
  [ [1; 0; 0; 100]; [0; 1; 0]; [0; 0; 1; 300]; [0; 0; 0; 1] ].

(** A matrix that scales the x axis by -2: not a rotation *)
Definition stretched_matrix : list (list R) :=
  [ [-2; 0; 0; 100]; [0; 0; 0; 200]; [0; 0; 0; 300]; [0; 0; 0; 1] ].

End PoseSamples.

Section EmitterSamples.
Open Scope R_scope.

(** An IR with one joint move to a target that carries joints, and one
    output *)
Definition joint_ir : UR.ruki R := {|
  UR.program_name := Some "pega";
  UR.ruki_initial_state := [];
  UR.ruki_targets :=
    [{| t_id := "T001"; t_name := "Home"; t_is_joint_target := true;
        t_joints := Val [0; -90; 0; -90; 0; 0]; t_pose := Null;
        t_config_RLF := None; t_context := None; t_track_pose := None;
        t_turntable_pose := None; t_pose_matrix := Absent |}];
  UR.ruki_steps :=
    [plain_step "MOVE_J" [("target", PStr "T001")];
     plain_step "SET_IO" [("io_index", PInt 3); ("value", PBool true)]];
|}.

(** What [ruki_para_urp] and [ruki_para_script] return for it *)
Definition joint_ir_archive : UR.outcome :=
  match UR.ruki_para_urp joint_ir (Some UR20) "out" with
  | Ok o => o
  | Raise _ => UR.robot_not_found
  end.

Definition joint_ir_script : UR.outcome :=
  match UR.ruki_para_script joint_ir (Some UR20) "out" with
  | Ok o => o
  | Raise _ => UR.robot_not_found
  end.

(** [movel(p[0.3, 0.2, 0.5], a=1.2, v=0.25)]: a pose of three values *)
Definition movel_short_pose : UR.line_match R := {|
  UR.lm_skipped := false; UR.lm_joints_comment := None; UR.lm_movej := None;
  UR.lm_movel := Some (Ok [0.3; 0.2; 0.5]); UR.lm_io := None |}.

(** A traversal with a linear move for which the host gave no joints *)
Definition pose_only_calls : list (RukiE.call R (list R)) :=
  [RukiE.CProgStart "Main";
   RukiE.CMoveJ None (Some [0; -90; 0; -90; 0; 0]) None;
   RukiE.CMoveL (Some [300; 0; 500; 180; 0; 0]) None None].

(** A [.ruki] file whose robot is named in lower case *)
Definition ruki_file : UR.file := {|
  UR.robot_name := Ok "ur20 da celula 3";
  UR.lines := Raise ValueError;
|}.

(** A catalog with one brand *)
Definition one_brand : list (string * RukiC.marca_data) :=
  [("Universal Robots",
    {| RukiC.modelo_padrao := "UR20"; RukiC.modelos_ordem := ["UR3e"; "UR20"];
       RukiC.robos := three_models |})].

End EmitterSamples.

Section ScriptLines.
Context {F : Type} `{Scalar F}.

(** The line feed, and a string without one *)
Definition line_feed : ascii := ascii_of_nat 10.

Definition one_line (s : string) : bool :=
  forallb (fun c => negb (Ascii.eqb c line_feed)) (list_ascii_of_string s).

(** The lines of a text: what the line feeds separate *)
Fixpoint split_lines (s : string) : list string :=
  match s with
  | EmptyString => [EmptyString]
  | String c s' =>
      if Ascii.eqb c line_feed then EmptyString :: split_lines s'
      else match split_lines s' with
           | l :: ls => String c l :: ls
           | [] => [String c EmptyString]
           end
  end.

(** What [ruki_para_script] prints of a step, the index of an output and
    the text of a comment, holds no line feed *)
Definition prints_one_line (s : step F) : bool :=
  one_line (format_val (default (PInt 0) (kw_get "io_index" (s_fields s))))
  && one_line (format_val (default (PStr "") (kw_get "text" (s_fields s)))).

End ScriptLines.

(** * Verification *)

(** ** Decimal formatting *)

Section Formatting.

Lemma read_nat_zero (s : string) (n : nat) :
  read_nat s = Some n -> read_nat (String "0"%char s) = Some n.
Proof.
  unfold read_nat. cbn [NilEmpty.uint_of_string].
  destruct (NilEmpty.uint_of_string s) as [d|]; [|discriminate].
  intros Hs. exact Hs.
Qed.

Lemma read_nat_zero_prefix (k : nat) (s : string) (n : nat) :
  read_nat s = Some n ->
  read_nat (Nat.iter k (String "0"%char) s) = Some n.
Proof.
  intros Hs. induction k as [|k IH]; [exact Hs|].
  change (Nat.iter (S k) (String "0"%char) s)
    with (String "0"%char (Nat.iter k (String "0"%char) s)).
  apply read_nat_zero, IH.
Qed.

Lemma to_uint_not_nil (n : nat) : Nat.to_uint n <> Decimal.Nil.
Proof.
  intros Hn. pose proof (Unsigned.of_to n) as Hof. rewrite Hn in Hof.
  cbn in Hof. subst n. discriminate.
Qed.

Lemma read_str_nat (n : nat) : read_nat (str_nat n) = Some n.
Proof.
  unfold read_nat, str_nat.
  pose proof (NilZero.usu (Nat.to_uint n) (to_uint_not_nil n)) as Hu.
  unfold NilZero.uint_of_string in Hu.
  destruct (NilZero.string_of_uint (Nat.to_uint n)) eqn:Hs; [discriminate|].
  rewrite Hu. cbn. f_equal. apply Unsigned.of_to.
Qed.

Lemma read_format_03d (n : nat) : read_nat (format_03d n) = Some n.
Proof. apply read_nat_zero_prefix, read_str_nat. Qed.

Lemma format_03d_inj (n m : nat) : format_03d n = format_03d m -> n = m.
Proof.
  intros Heq. pose proof (read_format_03d n) as Hn.
  rewrite Heq, read_format_03d in Hn. congruence.
Qed.

End Formatting.

(** ** The IR builder *)

Section BuilderFacts.
Context {F : Type} `{Scalar F} {Mat : Type}.
Variable RoboDK : RukiE.host F Mat.


Lemma add_step_steps (self : RukiE.RobotPost F Mat) ty kw :
  map s_index (RukiE.steps (RukiE._add_step self ty kw))
  = map s_index (RukiE.steps self) ++ [S (RukiE.instruction_index self)]
  /\ RukiE.instruction_index (RukiE._add_step self ty kw)
     = S (RukiE.instruction_index self).
Proof. unfold RukiE._add_step. cbn. rewrite map_app. split; reflexivity. Qed.

Lemma add_step_indices_ok (self : RukiE.RobotPost F Mat) ty kw :
  indices_ok self -> indices_ok (RukiE._add_step self ty kw).
Proof.
  unfold indices_ok. intros Hok.
  destruct (add_step_steps self ty kw) as [-> ->].
  rewrite Hok, seq_S. reflexivity.
Qed.

Lemma add_step_targets (self : RukiE.RobotPost F Mat) ty kw :
  RukiE.targets (RukiE._add_step self ty kw) = RukiE.targets self
  /\ RukiE.target_counter (RukiE._add_step self ty kw)
     = RukiE.target_counter self.
Proof. split; reflexivity. Qed.

Lemma add_target_steps (self : RukiE.RobotPost F Mat) pose joints conf name :
  RukiE.steps (RukiE._add_target RoboDK self pose joints conf name).1
  = RukiE.steps self
  /\ RukiE.instruction_index
       (RukiE._add_target RoboDK self pose joints conf name).1
     = RukiE.instruction_index self.
Proof. split; reflexivity. Qed.

Lemma add_target_indices_ok (self : RukiE.RobotPost F Mat) pose joints conf name :
  indices_ok self ->
  indices_ok (RukiE._add_target RoboDK self pose joints conf name).1.
Proof. intros Hok. exact Hok. Qed.

Lemma get_io_ref_indices_ok (self : RukiE.RobotPost F Mat) io_var io_type :
  indices_ok self -> indices_ok (RukiE._get_io_ref self io_var io_type).1.
Proof.
  intros Hok. unfold RukiE._get_io_ref.
  destruct (RukiE.io_map self !! _); exact Hok.
Qed.

Lemma invoke_indices_ok (self : RukiE.RobotPost F Mat) (c : RukiE.call F Mat) :
  indices_ok self -> indices_ok (RukiE.invoke RoboDK self c).
Proof.
  intros Hok. destruct c; cbn [RukiE.invoke]; try exact Hok.
  - unfold RukiE.ProgStart. destruct (_ <? _)%nat; exact Hok.
  - unfold RukiE.ProgFinish. destruct (RukiE.current_subprogram self) as [cur|];
      [destruct (cur =? "")%string|]; exact Hok.
  - apply (add_step_indices_ok _ "MOVE_J"), add_target_indices_ok, Hok.
  - apply (add_step_indices_ok _ "MOVE_L"), add_target_indices_ok, Hok.
  - apply (add_step_indices_ok _ "MOVE_C"); do 2 apply add_target_indices_ok.
    exact Hok.
  - apply add_step_indices_ok, Hok.
  - apply add_step_indices_ok, Hok.
  - apply add_step_indices_ok, Hok.
  - apply add_step_indices_ok, Hok.
  - apply add_step_indices_ok, Hok.
  - apply add_step_indices_ok, Hok.
  - apply add_step_indices_ok, Hok.
  - unfold RukiE.setDO.
    pose proof (get_io_ref_indices_ok self io_var "DO" Hok) as Hio.
    destruct (RukiE._get_io_ref self io_var "DO") as [self' r].
    apply add_step_indices_ok, Hio.
  - unfold RukiE.setAO.
    pose proof (get_io_ref_indices_ok self io_var "AO" Hok) as Hio.
    destruct (RukiE._get_io_ref self io_var "AO") as [self' r].
    apply add_step_indices_ok, Hio.
  - unfold RukiE.waitDI.
    pose proof (get_io_ref_indices_ok self io_var "DI" Hok) as Hio.
    destruct (RukiE._get_io_ref self io_var "DI") as [self' r].
    apply add_step_indices_ok, Hio.
  - apply add_step_indices_ok, Hok.
  - apply add_step_indices_ok, Hok.
  - apply add_step_indices_ok, Hok.
Qed.

Lemma fold_invoke_indices_ok (cs : list (RukiE.call F Mat)) (self : RukiE.RobotPost F Mat) :
  indices_ok self -> indices_ok (fold_left (RukiE.invoke RoboDK) cs self).
Proof.
  revert self. induction cs as [|c cs IH]; intros self Hok; [exact Hok|].
  cbn [fold_left]. apply IH, invoke_indices_ok, Hok.
Qed.

(** C8. Whatever sequence of callbacks the host invokes on a fresh builder
    (moves, frame and tool changes, speed, acceleration and rounding
    settings, IO, pauses, code and messages, in any mix), the indices
    recorded in the step list are exactly 1, 2, 3, ... in order: the k-th
    step carries index k, so indices grow by one from 1 and none is
    reused. *)
Theorem step_indices_count_from_one (cs : list (RukiE.call F Mat)) :
  map s_index (RukiE.steps (RukiE.run RoboDK cs))
  = seq 1 (length (RukiE.steps (RukiE.run RoboDK cs))).
Proof.
  assert (Hok : indices_ok (RukiE.run RoboDK cs)).
  { apply fold_invoke_indices_ok. reflexivity. }
  unfold indices_ok in Hok.
  replace (length (RukiE.steps (RukiE.run RoboDK cs)))
    with (RukiE.instruction_index (RukiE.run RoboDK cs)); [exact Hok|].
  rewrite <- (length_map s_index), Hok, length_seq. reflexivity.
Qed.

Lemma joints_to_list_id (joints : option (list F)) :
  RukiE.joints_to_list joints = joints.
Proof.
  destruct joints as [js|]; [|reflexivity]. cbn.
  induction js as [|j js IH]; [reflexivity|].
  cbn in *. destruct (mapM Ok js) as [l|e]; cbn in *;
    [injection IH as ->; reflexivity | discriminate].
Qed.

Lemma target_id_inj (n m : nat) : target_id n = target_id m -> n = m.
Proof. unfold target_id. intros Heq. injection Heq. apply format_03d_inj. Qed.

Lemma target_id_fresh (n : nat) : target_id (S n) ∉ map target_id (seq 1 n).
Proof.
  intros Hin. apply list_elem_of_In, in_map_iff in Hin.
  destruct Hin as [m [Heq Hm]]. apply target_id_inj in Heq.
  apply in_seq in Hm. lia.
Qed.

Lemma add_target_ids_ok (self : RukiE.RobotPost F Mat)
    (pose : option Mat) (joints : option (list F)) (conf : option (list Z))
    (name : option string) :
  ids_ok self ->
  ids_ok (RukiE._add_target RoboDK self pose joints conf name).1.
Proof.
  unfold ids_ok. intros Hok.
  cbn [RukiE._add_target RukiE.targets RukiE.target_counter RukiE.set_targets fst].
  rewrite map_app, Hok, seq_S, map_app. reflexivity.
Qed.

Lemma add_step_ids_ok (self : RukiE.RobotPost F Mat) ty kw :
  ids_ok self -> ids_ok (RukiE._add_step self ty kw).
Proof. intros Hok. exact Hok. Qed.

Lemma get_io_ref_ids_ok (self : RukiE.RobotPost F Mat) io_var io_type :
  ids_ok self -> ids_ok (RukiE._get_io_ref self io_var io_type).1.
Proof.
  intros Hok. unfold RukiE._get_io_ref.
  destruct (RukiE.io_map self !! _); exact Hok.
Qed.

Lemma invoke_ids_ok (self : RukiE.RobotPost F Mat) (c : RukiE.call F Mat) :
  ids_ok self -> ids_ok (RukiE.invoke RoboDK self c).
Proof.
  intros Hok. destruct c; cbn [RukiE.invoke]; try exact Hok.
  - unfold RukiE.ProgStart. destruct (_ <? _)%nat; exact Hok.
  - unfold RukiE.ProgFinish. destruct (RukiE.current_subprogram self) as [cur|];
      [destruct (cur =? "")%string|]; exact Hok.
  - apply (add_target_ids_ok self pose joints conf (RukiE._TargetName self)), Hok.
  - apply (add_target_ids_ok self pose joints conf (RukiE._TargetName self)), Hok.
  - apply (add_target_ids_ok _ pose2 joints2 conf2 (RukiE._TargetName self)).
    apply (add_target_ids_ok self pose1 joints1 conf1 (RukiE._TargetNameVia self)), Hok.
  - unfold RukiE.setDO.
    pose proof (get_io_ref_ids_ok self io_var "DO" Hok) as Hio.
    destruct (RukiE._get_io_ref self io_var "DO") as [self' r]. exact Hio.
  - unfold RukiE.setAO.
    pose proof (get_io_ref_ids_ok self io_var "AO" Hok) as Hio.
    destruct (RukiE._get_io_ref self io_var "AO") as [self' r]. exact Hio.
  - unfold RukiE.waitDI.
    pose proof (get_io_ref_ids_ok self io_var "DI" Hok) as Hio.
    destruct (RukiE._get_io_ref self io_var "DI") as [self' r]. exact Hio.
Qed.

(** Every builder the host can reach carries the ids of 1 ..
    [target_counter] *)
Lemma run_ids_ok (cs : list (RukiE.call F Mat)) : ids_ok (RukiE.run RoboDK cs).
Proof.
  unfold RukiE.run. generalize (eq_refl : ids_ok (RukiE.init (F := F) (Mat := Mat))).
  generalize (RukiE.init (F := F) (Mat := Mat)).
  induction cs as [|c cs IH]; intros self Hok; [exact Hok|].
  cbn [fold_left]. apply IH, invoke_ids_ok, Hok.
Qed.

(** C1 (amended). [_add_target] has no failure path.  Every call, also one
    with neither pose nor joints, returns the id [T<n>] of the incremented
    target counter (zero-padded to three digits) and appends exactly one
    target with that id, whose joints are the given ones and whose pose is
    the converted one, each written as null when missing.  On a builder
    whose targets carry the ids of 1 .. [target_counter] the returned id is
    fresh, and the new builder is again of that form. *)
Theorem add_target_always_appends (self : RukiE.RobotPost F Mat)
    (pose : option Mat) (joints : option (list F)) (conf : option (list Z))
    (name : option string) :
  ids_ok self ->
  let r := RukiE._add_target RoboDK self pose joints conf name in
  r.2 = target_id (S (RukiE.target_counter self))
  /\ (r.2 ∉ map t_id (RukiE.targets self))
  /\ (exists t, RukiE.targets r.1 = RukiE.targets self ++ [t]
                /\ t_id t = r.2
                /\ t_joints t = jwritten joints
                /\ t_pose t = jwritten (RukiE.pose_to_xyzrpw_deg RoboDK pose))
  /\ ids_ok r.1.
Proof.
  intros Hok. cbn zeta. unfold RukiE._add_target. cbn [fst snd].
  split; [reflexivity|]. split.
  { rewrite Hok. apply target_id_fresh. }
  split.
  { eexists. split; [reflexivity|]. cbn.
    rewrite joints_to_list_id. repeat split; reflexivity. }
  apply (add_target_ids_ok self pose joints conf name Hok).
Qed.

End BuilderFacts.

(** Witness of C1 (amended): the first target of a fresh builder, given
    joints only. *)
Lemma add_target_always_appends_witness :
  let r := RukiE._add_target standalone RukiE.init None
             (Some [0; -90; 0; -90; 0; 0]%R) None (Some "Home") in
  r.2 = "T001"
  /\ (r.2 ∉ map t_id (RukiE.targets (RukiE.init (Mat := list R))))
  /\ (exists t, RukiE.targets r.1 = [] ++ [t]
                /\ t_id t = r.2
                /\ t_joints t = Val [0; -90; 0; -90; 0; 0]%R
                /\ t_pose t = Null)
  /\ ids_ok r.1.
Proof.
  exact (add_target_always_appends standalone RukiE.init None
           (Some [0; -90; 0; -90; 0; 0]%R) None (Some "Home") eq_refl).
Defined.

(** Counterexample to C1 as stated: on a fresh builder, the call with
    pose = null and joints = null does not fail.  It returns the id [T001]
    and leaves in the target list one target whose joints and pose are both
    null. *)
Lemma add_target_null_null_is_written :
  let r := RukiE._add_target standalone RukiE.init None None None None in
  r.2 = "T001"
  /\ RukiE.targets r.1 <> RukiE.targets (RukiE.init (Mat := list R))
  /\ map t_joints (RukiE.targets r.1) = [Null]
  /\ map t_pose (RukiE.targets r.1) = [Null].
Proof. repeat split; try reflexivity. discriminate. Qed.

(** ** The archive emitters *)

Section ArchiveFacts.
Context {F : Type} `{Scalar F}.

Lemma alternates_nil : alternates [] 0 [].
Proof. split; reflexivity. Qed.

Lemma alternates_move (kids : list UR.xml) (mc : nat) (idxs : list string)
    (urp : gmap string string) (motion js : string) (wp : nat) :
  alternates kids mc idxs ->
  alternates (kids ++ [UR.move_element urp motion js mc wp]) (S mc) idxs.
Proof.
  intros [Hm Hs]. split.
  - rewrite List.filter_app, map_app, Hm, seq_S, map_app. f_equal.
    cbn. unfold feature_attrib. destruct (mc =? 0)%nat; reflexivity.
  - rewrite List.filter_app. cbn. rewrite app_nil_r. exact Hs.
Qed.

Lemma alternates_set (kids : list UR.xml) (mc : nat) (idxs : list string)
    (index : string) (value : bool) :
  alternates kids mc idxs ->
  alternates (kids ++ [UR.set_element index value (length idxs)]) mc
             (idxs ++ [index]).
Proof.
  intros [Hm Hs]. split.
  - rewrite List.filter_app. cbn. rewrite app_nil_r. exact Hm.
  - rewrite List.filter_app, map_app, Hs, length_app, Nat.add_1_r, seq_S.
    rewrite zip_with_app by (rewrite length_seq; reflexivity).
    f_equal. cbn. unfold pin_attrib.
    destruct (length idxs =? 0)%nat; reflexivity.
Qed.

(** The command loop of [script_para_urp] *)
Lemma fold_urp_cmd_alternates (urp : gmap string string)
    (cmds : list (UR.comando F)) (acc : UR.urp_acc) (n : nat)
    (idxs : list string) :
  alternates (UR.acc_children acc) (UR.acc_mc acc) idxs ->
  length idxs = UR.acc_ic acc ->
  let r := fold_left (UR.urp_cmd urp) cmds (acc, n) in
  alternates (UR.acc_children r.1) (UR.acc_mc r.1)
             (idxs ++ omap comando_io_index cmds)
  /\ length (idxs ++ omap comando_io_index cmds) = UR.acc_ic r.1.
Proof.
  revert acc n idxs. induction cmds as [|c cmds IH]; intros acc n idxs Ha Hl.
  { cbn. rewrite app_nil_r. split; assumption. }
  cbn [fold_left]. destruct c as [tipo [js|] pose | index value].
  - cbn [omap list_omap comando_io_index]. apply IH; [|exact Hl].
    cbn. apply alternates_move, Ha.
  - cbn [omap list_omap comando_io_index]. apply IH; assumption.
  - change (omap comando_io_index (UR.Io index value :: cmds))
      with (str_nat index :: omap comando_io_index cmds).
    rewrite (cons_middle (str_nat index)), app_assoc.
    apply IH.
    + cbn. rewrite <- Hl. apply alternates_set, Ha.
    + cbn. rewrite length_app, Hl. cbn. lia.
Qed.

Lemma fold_urp_cmd_counts (urp : gmap string string)
    (cmds : list (UR.comando F)) (acc : UR.urp_acc) (n : nat) :
  let r := fold_left (UR.urp_cmd urp) cmds (acc, n) in
  UR.acc_mc r.1 = UR.acc_mc acc + length (List.filter has_joints cmds)
  /\ UR.acc_ic r.1 = UR.acc_ic acc + length (List.filter is_io cmds)
  /\ r.2 = n + length (List.filter lacks_joints cmds)
  /\ length (UR.acc_children r.1)
     = length (UR.acc_children acc)
       + length (List.filter has_joints cmds) + length (List.filter is_io cmds).
Proof.
  revert acc n. induction cmds as [|c cmds IH]; intros acc n.
  { cbn. repeat split; lia. }
  cbn [fold_left].
  destruct c as [tipo [js|] pose | index value];
    cbn [UR.urp_cmd List.filter has_joints is_io lacks_joints];
    match goal with
    | |- context [fold_left _ _ (?a, ?m)] => specialize (IH a m)
    end;
    cbn zeta in IH; destruct IH as (-> & -> & -> & ->);
    cbn [UR.acc_mc UR.acc_ic UR.acc_children];
    rewrite ?length_app; cbn [length]; repeat split; lia.
Qed.

(** The step loop of [ruki_para_urp] and of [converter_ruki_para_urp] *)
Lemma for_each_urp_step_alternates (targets : gmap string (target F))
    (urp : gmap string string) (ss : list (step F)) (acc acc' : UR.urp_acc)
    (idxs : list string) :
  UR.for_each (UR.urp_step targets urp) acc ss = Ok acc' ->
  alternates (UR.acc_children acc) (UR.acc_mc acc) idxs ->
  length idxs = UR.acc_ic acc ->
  alternates (UR.acc_children acc') (UR.acc_mc acc')
    (idxs ++ map step_io_index
               (List.filter (fun s => (s_type s =? "SET_IO")%string) ss)).
Proof.
  revert acc idxs. induction ss as [|s ss IH]; intros acc idxs Hrun Ha Hl.
  { cbn in *. injection Hrun as <-. rewrite app_nil_r. exact Ha. }
  cbn [UR.for_each] in Hrun.
  destruct (UR.urp_step targets urp acc s) as [acc1|e] eqn:Hstep;
    [|discriminate].
  cbn in Hrun. unfold UR.urp_step in Hstep. cbn [List.filter].
  destruct (String.eqb_spec (s_type s) "MOVE_J") as [Hj|Hj].
  - rewrite Hj in *. cbn in Hstep |- *.
    destruct (UR.joints_rad _) as [j|e]; [|discriminate].
    cbn in Hstep. injection Hstep as <-.
    eapply IH; [exact Hrun| |exact Hl]. cbn. apply alternates_move, Ha.
  - destruct (String.eqb_spec (s_type s) "MOVE_L") as [Hm|Hm].
    + rewrite Hm in *. cbn in Hstep |- *.
      destruct (UR.joints_rad _) as [j|e]; [|discriminate].
      cbn in Hstep. injection Hstep as <-.
      eapply IH; [exact Hrun| |exact Hl]. cbn. apply alternates_move, Ha.
    + cbn [orb] in Hstep.
      destruct (String.eqb_spec (s_type s) "SET_IO") as [Hi|Hi].
      * injection Hstep as <-. cbn [map].
        rewrite (cons_middle (step_io_index s)), app_assoc.
        eapply IH; [exact Hrun| |].
        -- cbn. rewrite <- Hl. apply alternates_set, Ha.
        -- cbn. rewrite length_app, Hl. cbn. lia.
      * injection Hstep as <-. eapply IH; eassumption.
Qed.

Lemma alternation_of_alternates (nome : string) (urp : gmap string string)
    (kids : list UR.xml) (mc : nat) (idxs : list string) :
  alternates kids mc idxs -> alternation (UR.urp_root nome urp kids) idxs.
Proof.
  intros [Hm Hs]. unfold alternation.
  change (UR.main_children_of (UR.urp_root nome urp kids)) with kids.
  cbn zeta. split; [|exact Hs].
  rewrite Hm. f_equal. f_equal.
  rewrite <- (length_map (child_attrib "feature")), Hm, length_map, length_seq.
  reflexivity.
Qed.

(** C6. In every archive document the emitters produce, the feature child
    of the first Move element carries [referencedName="Joint_0_name"] and
    that of every later Move element carries
    [reference="../../Move/feature"]; the pin child of the first Set element
    carries [referencedName="digital_out[<index>]"] with the index of that
    output and that of every later Set element carries
    [reference="../../Set/pin"].  Moves and Sets are counted separately,
    whatever the order of the steps. *)
Theorem archive_reference_alternation (root : UR.xml) (indices : list string) :
  archive (F := F) root indices -> alternation root indices.
Proof.
  intros Harch. destruct Harch as
    [nome linhas robot_data pasta p root Hin
    |r robot_data pasta o p root Hrun Hin
    |catalog r marca modelo pasta o p root Hrun Hin].
  - unfold UR.script_para_urp in Hin.
    destruct robot_data as [rd|]; [|destruct Hin].
    pose proof (fold_urp_cmd_alternates (UR.urp rd) (UR.parse_script_moves linhas)
                  UR.urp_acc0 0 [] alternates_nil eq_refl) as [Ha _].
    cbn zeta in Ha. unfold script_io_indices.
    destruct (fold_left _ _ _) as [acc n]. cbn [fst] in Ha.
    destruct (_ && _); [destruct Hin|].
    destruct Hin as [Heq|[]]. injection Heq as _ <-.
    eapply alternation_of_alternates, Ha.
  - unfold UR.ruki_para_urp in Hrun.
    destruct robot_data as [rd|].
    2:{ injection Hrun as <-. destruct Hin. }
    destruct (UR.for_each _ _ _) as [acc|e] eqn:Hloop; [|discriminate].
    cbn in Hrun. injection Hrun as <-.
    destruct Hin as [Heq|[]]. injection Heq as _ <-.
    eapply alternation_of_alternates.
    apply (for_each_urp_step_alternates _ _ _ _ _ [] Hloop alternates_nil eq_refl).
  - unfold RukiC.converter_ruki_para_urp in Hrun.
    destruct (RukiC.get_robot_data _ _ _) as [rd|].
    2:{ injection Hrun as <-. destruct Hin. }
    destruct (UR.for_each _ _ _) as [acc|e] eqn:Hloop; [|discriminate].
    cbn in Hrun. injection Hrun as <-.
    destruct Hin as [Heq|[]]. injection Heq as _ <-.
    eapply alternation_of_alternates.
    apply (for_each_urp_step_alternates _ _ _ _ _ [] Hloop alternates_nil eq_refl).
Qed.

End ArchiveFacts.

(** ** Empty results and partial data *)

Section PolicyFacts.
Context {F : Type} `{Scalar F}.

Lemma urp_step_idle (targets : gmap string (target F))
    (urp : gmap string string) (acc : UR.urp_acc) (s : step F) :
  emits_element s = false -> UR.urp_step targets urp acc s = Ok acc.
Proof.
  unfold emits_element, UR.urp_step. intros Hs.
  destruct (s_type s =? "MOVE_J")%string; [discriminate|].
  destruct (s_type s =? "MOVE_L")%string; [discriminate|].
  destruct (s_type s =? "SET_IO")%string; [discriminate|].
  reflexivity.
Qed.

Lemma for_each_urp_step_idle (targets : gmap string (target F))
    (urp : gmap string string) (ss : list (step F)) (acc : UR.urp_acc) :
  forallb (fun s => negb (emits_element s)) ss = true ->
  UR.for_each (UR.urp_step targets urp) acc ss = Ok acc.
Proof.
  induction ss as [|s ss IH]; intros Hall; [reflexivity|].
  cbn [forallb] in Hall. apply andb_prop in Hall as [Hs Hall].
  apply negb_true_iff in Hs.
  cbn [UR.for_each]. rewrite (urp_step_idle _ _ _ _ Hs).
  cbn [mbind result_bind Py.bind]. apply IH, Hall.
Qed.

(** C2, the archive emitter on an IR: when no step of the IR is a MOVE_J,
    MOVE_L or SET_IO step, so that no Move and no Set element is built,
    [ruki_para_urp] still reports success with the counts 0 and 0 and
    writes an archive whose main program has no children. *)
Theorem ruki_para_urp_without_commands (r : UR.ruki F) (rd : UR.robot)
    (pasta : string) :
  forallb (fun s => negb (emits_element s)) (UR.ruki_steps r) = true ->
  let nome := default "programa" (UR.program_name r) in
  let caminho := UR.path_join pasta (nome +:+ ".urp") in
  UR.ruki_para_urp r (Some rd) pasta
  = Ok {| UR.sucesso := true;
          UR.mensagem := "Modelo: " +:+ default "" (UR.nome_completo rd) +:+ "
Movimentos: 0
IOs: 0

Arquivo: " +:+ caminho;
          UR.caminho := Some caminho;
          UR.written := [(caminho, UR.GzipXml (UR.urp_root nome (UR.urp rd) []))] |}.
Proof.
  intros Hall. cbn zeta. unfold UR.ruki_para_urp.
  rewrite (for_each_urp_step_idle _ _ _ _ Hall). reflexivity.
Qed.

(** The sibling path does what C2 says: nothing emitted, nothing written. *)
Lemma script_para_urp_without_commands (nome : string)
    (linhas : list (UR.line_match F)) (robot_data : option UR.robot)
    (pasta : string) :
  List.filter has_joints (UR.parse_script_moves linhas) = [] ->
  List.filter is_io (UR.parse_script_moves linhas) = [] ->
  UR.sucesso (UR.script_para_urp nome linhas robot_data pasta) = false
  /\ UR.written (UR.script_para_urp nome linhas robot_data pasta) = []
  /\ (robot_data <> None ->
      UR.script_para_urp nome linhas robot_data pasta = UR.no_commands).
Proof.
  intros Hm Hi. unfold UR.script_para_urp.
  destruct robot_data as [rd|]; [|repeat split; intros []; reflexivity].
  pose proof (fold_urp_cmd_counts (UR.urp rd) (UR.parse_script_moves linhas)
                UR.urp_acc0 0) as (Hmc & Hic & _).
  cbn zeta in *. destruct (fold_left _ _ _) as [acc n]. cbn [fst] in *.
  rewrite Hm in Hmc. rewrite Hi in Hic. cbn in Hmc, Hic.
  rewrite Hmc, Hic. repeat split.
Qed.

Lemma script_step_unresolvable (targets : gmap string (target F))
    (acc : list string * nat * nat) (s : step F) :
  unresolvable targets s = true -> UR.script_step targets acc s = Ok acc.
Proof.
  unfold unresolvable. intros Hu. apply andb_prop in Hu as [Hty Hpose].
  apply String.eqb_eq in Hty. destruct acc as [[linhas mc] ic].
  unfold UR.script_step. rewrite Hty. cbn.
  destruct (UR.get_cartesian_pose _) as [[p|]|e]; try discriminate.
  reflexivity.
Qed.

Lemma for_each_script_step_filter (targets : gmap string (target F))
    (ss : list (step F)) (acc : list string * nat * nat) :
  UR.for_each (UR.script_step targets) acc ss
  = UR.for_each (UR.script_step targets) acc
      (List.filter (fun s => negb (unresolvable targets s)) ss).
Proof.
  revert acc. induction ss as [|s ss IH]; intros acc; [reflexivity|].
  cbn [List.filter UR.for_each].
  destruct (unresolvable targets s) eqn:Hu; cbn [negb].
  - rewrite (script_step_unresolvable _ _ _ Hu). cbn. apply IH.
  - cbn [UR.for_each]. destruct (UR.script_step targets acc s) as [acc'|e];
      [cbn; apply IH | reflexivity].
Qed.

(** C7 (amended).  The IR-to-script emitter drops a MOVE_L step without a
    resolvable pose silently: the loop body leaves the lines and both
    counters as they were, and the whole result (lines written, movement
    count, message, success) is that of the same IR without those steps.
    The script-to-archive emitter skips every move without joints and
    counts it; when at least one Move or Set element was emitted it
    succeeds and, if the count is positive, reports it in the message;
    when nothing was emitted it fails with "Nenhum comando encontrado",
    writes nothing and does not mention the skipped moves. *)
Theorem partial_data_policy :
  (forall (targets : gmap string (target F)) (acc : list string * nat * nat)
          (s : step F),
      unresolvable targets s = true -> UR.script_step targets acc s = Ok acc)
  /\ (forall (r : UR.ruki F) (robot_data : option UR.robot) (pasta : string),
         UR.ruki_para_script r robot_data pasta
         = UR.ruki_para_script (without_unresolvable r) robot_data pasta)
  /\ (forall (nome : string) (linhas : list (UR.line_match F)) (rd : UR.robot)
             (pasta : string),
         let cmds := UR.parse_script_moves linhas in
         let mc := length (List.filter has_joints cmds) in
         let ic := length (List.filter is_io cmds) in
         let skipped := length (List.filter lacks_joints cmds) in
         let caminho := UR.path_join pasta (nome +:+ ".urp") in
         let msg := "Movimentos: " +:+ str_nat mc +:+ "
IOs: " +:+ str_nat ic in
         exists kids,
           length kids = mc + ic
           /\ UR.script_para_urp nome linhas (Some rd) pasta
              = if (mc =? 0)%nat && (ic =? 0)%nat then UR.no_commands
                else {| UR.sucesso := true;
                        UR.mensagem :=
                          (if (0 <? skipped)%nat
                           then msg +:+ "

⚠ " +:+ str_nat skipped +:+ " MoveL ignorados (sem #JOINTS)
Use .script do RoboDK com output joints+cartesian"
                           else msg)
                          +:+ "

Arquivo: " +:+ caminho;
                        UR.caminho := Some caminho;
                        UR.written :=
                          [(caminho, UR.GzipXml (UR.urp_root nome (UR.urp rd) kids))] |}).
Proof.
  split; [exact script_step_unresolvable|]. split.
  - intros r robot_data pasta. unfold UR.ruki_para_script, without_unresolvable.
    cbn [UR.program_name UR.ruki_initial_state UR.ruki_targets UR.ruki_steps].
    do 5 (destruct (UR.ini_get _ _ _) as [?|?];
          cbn [mbind result_bind Py.bind]; [|reflexivity]).
    rewrite <- for_each_script_step_filter. reflexivity.
  - intros nome linhas rd pasta. cbn zeta. unfold UR.script_para_urp.
    pose proof (fold_urp_cmd_counts (UR.urp rd) (UR.parse_script_moves linhas)
                  UR.urp_acc0 0) as (Hmc & Hic & Hn & Hlen).
    cbn zeta in *. destruct (fold_left _ _ _) as [acc n]. cbn [fst snd] in *.
    cbn in Hmc, Hic, Hn, Hlen. exists (UR.acc_children acc).
    split; [lia|]. rewrite Hmc, Hic, Hn.
    destruct (_ && _); [reflexivity|].
    destruct (0 <? _)%nat; reflexivity.
Qed.

End PolicyFacts.

(** Witness of C6: the archive of a script with two joint moves and two
    outputs. *)
Lemma archive_reference_alternation_witness :
  archive four_lines_archive (script_io_indices four_lines)
  /\ alternation four_lines_archive (script_io_indices four_lines).
Proof.
  assert (Harch : archive four_lines_archive (script_io_indices four_lines)).
  { apply (archive_of_script "demo" four_lines (Some UR20) "out"
             (UR.path_join "out" "demo.urp") four_lines_archive).
    left. reflexivity. }
  split; [exact Harch|].
  exact (archive_reference_alternation four_lines_archive
           (script_io_indices four_lines) Harch).
Defined.

(** Witness of C2's theorem: an IR whose only step is a pause. *)
Lemma ruki_para_urp_without_commands_witness :
  forallb (fun s => negb (emits_element s)) (UR.ruki_steps pause_only) = true
  /\ UR.ruki_para_urp pause_only (Some UR20) "out"
     = Ok {| UR.sucesso := true;
             UR.mensagem := "Modelo: Universal Robots UR20
Movimentos: 0
IOs: 0

Arquivo: out/vazio.urp";
             UR.caminho := Some "out/vazio.urp";
             UR.written :=
               [("out/vazio.urp",
                 UR.GzipXml (UR.urp_root "vazio" (UR.urp UR20) []))] |}.
Proof.
  split; [reflexivity|].
  exact (ruki_para_urp_without_commands pause_only UR20 "out" eq_refl).
Defined.

(** Witness of C7 (amended): the linear move of an IR whose target has
    neither pose nor matrix is dropped by the script emitter. *)
Lemma partial_data_policy_witness :
  let targets := UR.targets_by_id (UR.ruki_targets two_moves) in
  let s := plain_step "MOVE_L" [("target", PStr "T002")] in
  unresolvable targets s = true
  /\ UR.script_step targets (["def dois():"], 1, 1) s = Ok (["def dois():"], 1, 1).
Proof.
  cbn zeta. split; [reflexivity|].
  exact (proj1 partial_data_policy
           (UR.targets_by_id (UR.ruki_targets two_moves))
           (["def dois():"], 1, 1)
           (plain_step "MOVE_L" [("target", PStr "T002")]) eq_refl).
Defined.

(** Counterexample to C7 as stated: a script whose only command is a
    linear move given by its pose.  The move lacks joints, is counted as
    skipped, and [script_para_urp] fails with "Nenhum comando encontrado"
    instead of succeeding with the count in its message. *)
Lemma script_para_urp_only_skipped_moves_fails :
  length (List.filter lacks_joints (UR.parse_script_moves [movel_pose_only])) = 1
  /\ UR.script_para_urp "prog" [movel_pose_only] (Some UR20) "out"
     = {| UR.sucesso := false; UR.mensagem := "Nenhum comando encontrado";
          UR.caminho := None; UR.written := [] |}.
Proof. split; reflexivity. Qed.

(** ** Exact arithmetic *)

Section ExactFacts.
Open Scope R_scope.

Lemma Int_part_0 : Int_part 0 = 0%Z.
Proof. symmetry. apply Int_part_spec. lra. Qed.

Lemma round_half_even_0 : Exact.round_half_even 0 = 0%Z.
Proof.
  unfold Exact.round_half_even. rewrite Int_part_0.
  destruct (Rlt_dec (0 - 0) (1 / 2)) as [_|Hn]; [reflexivity|].
  exfalso. apply Hn. lra.
Qed.

Lemma Rformat_f_0 (d : nat) :
  Exact.Rformat_f d 0
  = str_Z (0 / 10 ^ Z.of_nat d)
    +:+ (if (d =? 0)%nat then ""
         else "." +:+ zfill d (str_Z (0 mod 10 ^ Z.of_nat d))).
Proof.
  unfold Exact.Rformat_f. rewrite Rabs_R0, Rmult_0_l, round_half_even_0.
  destruct (Rlt_dec 0 0) as [Hlt|_]; [lra|]. reflexivity.
Qed.

Lemma deg2rad_0 : UR.deg2rad (lit 0 0) = 0.
Proof.
  change (UR.deg2rad (lit 0 0)) with (0 * PI / Exact.Rlit 1800 (-1)).
  unfold Rdiv. rewrite !Rmult_0_l. reflexivity.
Qed.

Lemma format_6_zero_degrees : format_f 6 (UR.deg2rad (lit 0 0)) = "0.000000".
Proof.
  rewrite deg2rad_0. change (format_f 6 0) with (Exact.Rformat_f 6 0).
  rewrite Rformat_f_0. reflexivity.
Qed.

Lemma for_each_snoc {A B} (body : A -> B -> result A) (acc : A) (l : list B)
    (b : B) :
  UR.for_each body acc (l ++ [b])
  = acc' ← UR.for_each body acc l; body acc' b.
Proof.
  revert acc. induction l as [|x l IH]; intros acc; cbn [app UR.for_each].
  - cbn [mbind result_bind Py.bind]. destruct (body acc b); reflexivity.
  - destruct (body acc x) as [acc1|e]; [|reflexivity].
    cbn [mbind result_bind Py.bind]. apply IH.
Qed.

Lemma joints_missing_lookup (targets : gmap string (target R)) (s : step R) :
  joints_missing targets s -> t_joints (UR.lookup_target targets s) = Absent.
Proof.
  unfold joints_missing, UR.lookup_target.
  destruct (kw_get_none "target" (s_fields s)); try reflexivity.
  destruct (targets !! s0) as [t|]; [intros Ht; exact Ht | reflexivity].
Qed.

Lemma read_zero_move (urp : gmap string string) (motion : string) (mc wp : nat) :
  UR.xml_tag (UR.move_element urp motion six_zeros mc wp) = "Move"
  /\ read_move (UR.move_element urp motion six_zeros mc wp)
     = (Some motion,
        Some "0.000000, 0.000000, 0.000000, 0.000000, 0.000000, 0.000000",
        Some ("Waypoint_" +:+ str_nat wp)).
Proof. split; reflexivity. Qed.

(** C10. In the IR-to-archive emitter (the loop body shared by
    [ruki_para_urp] and [converter_ruki_para_urp]), a MOVE_J or MOVE_L step
    whose target id is not in the targets map, or whose target has no
    joints field, does not fail and is not skipped: it appends one element,
    which is a Move of the step's motion type whose waypoint, numbered next
    in sequence, carries the six joint angles 0.000000, and it increments
    the movement count, so that the loop goes on from there.  The
    IR-to-script emitter does the same for a MOVE_J step: it appends a
    movej line with six angles 0.000000 and increments the movement
    count. *)
Theorem missing_joints_emit_zero_waypoint (targets : gmap string (target R))
    (urp : gmap string string) (acc : UR.urp_acc) (s : step R) :
  s_type s = "MOVE_J" \/ s_type s = "MOVE_L" ->
  joints_missing targets s ->
  exists e : UR.xml,
    UR.xml_tag e = "Move"
    /\ read_move e
       = (Some (if (s_type s =? "MOVE_J")%string then "MoveJ" else "MoveL"),
          Some "0.000000, 0.000000, 0.000000, 0.000000, 0.000000, 0.000000",
          Some ("Waypoint_" +:+ str_nat (S (UR.acc_wp acc))))
    /\ (let emitted :=
          {| UR.acc_children := UR.acc_children acc ++ [e];
             UR.acc_mc := S (UR.acc_mc acc);
             UR.acc_ic := UR.acc_ic acc;
             UR.acc_wp := S (UR.acc_wp acc) |} in
        UR.urp_step targets urp acc s = Ok emitted
        /\ forall (before : list (step R)) (acc0 : UR.urp_acc),
             UR.for_each (UR.urp_step targets urp) acc0 before = Ok acc ->
             UR.for_each (UR.urp_step targets urp) acc0 (before ++ [s]) = Ok emitted)
    /\ (s_type s = "MOVE_J" ->
        forall (linhas : list string) (mc ic : nat),
          UR.script_step targets (linhas, mc, ic) s
          = Ok (linhas
                ++ ["  movej([0.000000,0.000000,0.000000,0.000000,0.000000,0.000000],accel_radss,speed_rads,0,blend_radius_m)"],
                S mc, ic)).
Proof.
  intros Hty Hmiss. apply joints_missing_lookup in Hmiss.
  assert (Hj : UR.joints_rad (UR.lookup_target targets s)
               = Ok (replicate 6 (UR.deg2rad (lit 0 0)))).
  { unfold UR.joints_rad. rewrite Hmiss. reflexivity. }
  set (motion := if (s_type s =? "MOVE_J")%string then "MoveJ" else "MoveL").
  set (e := UR.move_element urp motion six_zeros (UR.acc_mc acc) (S (UR.acc_wp acc))).
  assert (Hstep : UR.urp_step targets urp acc s
                  = Ok {| UR.acc_children := UR.acc_children acc ++ [e];
                          UR.acc_mc := S (UR.acc_mc acc);
                          UR.acc_ic := UR.acc_ic acc;
                          UR.acc_wp := S (UR.acc_wp acc) |}).
  { unfold UR.urp_step. rewrite Hj.
    assert (Hb : ((s_type s =? "MOVE_J")%string || (s_type s =? "MOVE_L")%string)
                 = true).
    { destruct Hty as [-> | ->]; reflexivity. }
    rewrite Hb. cbn [mbind result_bind Py.bind replicate map].
    rewrite format_6_zero_degrees. reflexivity. }
  exists e.
  destruct (read_zero_move urp motion (UR.acc_mc acc) (S (UR.acc_wp acc)))
    as [Htag Hread].
  split; [exact Htag|]. split; [exact Hread|]. split; [split|].
  - exact Hstep.
  - intros before acc0 Hrun. rewrite for_each_snoc, Hrun.
    cbn [mbind result_bind Py.bind]. exact Hstep.
  - intros HJ linhas mc ic. unfold UR.script_step. rewrite HJ, Hj.
    cbn [String.eqb Ascii.eqb Bool.eqb mbind result_bind Py.bind replicate map].
    rewrite format_6_zero_degrees. reflexivity.
Qed.

End ExactFacts.

(** Witness of C10: the first step of an IR whose joint move refers to a
    target that is not in the targets list. *)
Lemma missing_joints_emit_zero_waypoint_witness :
  let targets := UR.targets_by_id (UR.ruki_targets two_moves) in
  let s := plain_step "MOVE_J" [("target", PStr "T001")] in
  (s_type s = "MOVE_J" \/ s_type s = "MOVE_L")
  /\ joints_missing targets s
  /\ exists e : UR.xml,
       UR.xml_tag e = "Move"
       /\ read_move e
          = (Some "MoveJ",
             Some "0.000000, 0.000000, 0.000000, 0.000000, 0.000000, 0.000000",
             Some "Waypoint_1")
       /\ UR.urp_step targets (UR.urp UR20) UR.urp_acc0 s
          = Ok {| UR.acc_children := [e];
                  UR.acc_mc := 1; UR.acc_ic := 0; UR.acc_wp := 1 |}.
Proof.
  cbn zeta. split; [left; reflexivity|]. split; [exact I|].
  destruct (missing_joints_emit_zero_waypoint
              (UR.targets_by_id (UR.ruki_targets two_moves)) (UR.urp UR20)
              UR.urp_acc0 (plain_step "MOVE_J" [("target", PStr "T001")])
              (or_introl eq_refl) I) as (e & Htag & Hread & [Hstep _] & _).
  exists e. split; [exact Htag|]. split; [exact Hread|]. exact Hstep.
Defined.

(** ** The radians/degrees heuristic of the script parser *)

Section HeuristicFacts.
Open Scope R_scope.

Lemma rad2deg_exact (r : R) : UR.rad2deg r = r * 180 / PI.
Proof.
  change (UR.rad2deg r) with (r * Exact.Rlit 1800 (-1) / PI).
  replace (Exact.Rlit 1800 (-1)) with 180; [reflexivity|].
  change (Exact.Rlit 1800 (-1)) with (IZR 1800 / IZR 10). lra.
Qed.

Lemma below_seven (v : R) : (fabs v <? lit 7 0)%py = true <-> Rabs v < 7.
Proof.
  change ((fabs v <? lit 7 0)%py) with (Exact.Rltb (Rabs v) (IZR 7)).
  unfold Exact.Rltb. destruct (Rlt_dec (Rabs v) 7); split; intros; try lra;
    try discriminate; reflexivity.
Qed.

Lemma all_below_seven (vs : list R) :
  forallb (fun v => (fabs v <? lit 7 0)%py) vs = true
  <-> Forall (fun v => Rabs v < 7) vs.
Proof.
  rewrite forallb_forall, List.Forall_forall.
  split; intros Hall v Hv; apply below_seven, Hall, Hv.
Qed.

Lemma radians_heuristic_small (vs : list R) :
  Forall (fun v => Rabs v < 7) vs ->
  UR.radians_heuristic vs = map (fun r => r * 180 / PI) vs.
Proof.
  intros Hall. unfold UR.radians_heuristic.
  rewrite (proj2 (all_below_seven vs) Hall).
  apply map_ext. intros r. apply rad2deg_exact.
Qed.

Lemma radians_heuristic_large (vs : list R) :
  Exists (fun v => 7 <= Rabs v) vs -> UR.radians_heuristic vs = vs.
Proof.
  intros Hex. unfold UR.radians_heuristic.
  destruct (forallb _ vs) eqn:Hall; [|reflexivity].
  apply all_below_seven in Hall. apply List.Exists_exists in Hex as [v [Hv Hge]].
  rewrite List.Forall_forall in Hall. specialize (Hall v Hv). lra.
Qed.

Ltac no_joint_move :=
  destruct (try_or_none _) as [[|? ?]|];
  [intros [] | intros [Heq|[]]; discriminate | intros []].

Lemma parse_line_joints (l : UR.line_match R) (tipo : string) (js : list R)
    (pose : jfield (list R)) :
  In (UR.Move tipo (Some js) pose) (UR.parse_line l) ->
  exists vs,
    (UR.lm_joints_comment l = Some (Ok vs) \/ UR.lm_movej l = Some (Ok vs))
    /\ js = UR.radians_heuristic (take 6 vs).
Proof.
  unfold UR.parse_line. destruct (UR.lm_skipped l); [intros []|].
  destruct (UR.lm_movej l) as [[vs|e]|] eqn:Hj.
  - destruct (UR.lm_joints_comment l) as [[cs|e]|] eqn:Hc.
    + destruct (UR.radians_heuristic (take 6 cs)) as [|c cs'] eqn:Hh;
        intros [Heq|[]]; injection Heq as _ <- _.
      * exists vs. split; [right|]; reflexivity.
      * exists cs. split; [left; reflexivity | symmetry; exact Hh].
    + intros [Heq|[]]; injection Heq as _ <- _. exists vs.
      split; [right|]; reflexivity.
    + intros [Heq|[]]; injection Heq as _ <- _. exists vs.
      split; [right|]; reflexivity.
  - intros [].
  - destruct (UR.lm_movel l) as [r|].
    + destruct (UR.lm_joints_comment l) as [[cs|e]|] eqn:Hc.
      * destruct (UR.radians_heuristic (take 6 cs)) as [|c cs'] eqn:Hh.
        -- no_joint_move.
        -- intros [Heq|[]]. injection Heq as _ <- _. exists cs.
           split; [left; reflexivity | symmetry; exact Hh].
      * no_joint_move.
      * no_joint_move.
    + destruct (UR.lm_io l) as [[i v]|]; [intros [Heq|[]]; discriminate | intros []].
Qed.

(** C5. Every joint list in a command of the script parser comes from a
    parsed list of at most six values (the array of a movej call or the
    #JOINTS comment) by this rule: when every value has absolute magnitude
    strictly under 7 the list is converted from radians to degrees, and
    when some value has absolute magnitude 7 or more the list is left
    unchanged.  The move branch of [converter_script_para_robodk] applies
    the same rule.  In particular [0.1, -0.2, 0.3, 0.0, 1.5, -1.5] is
    converted and [45, -90, 0, 90, 0, 180] is not. *)
Theorem parsed_joints_unit_heuristic :
  (forall (l : UR.line_match R) (tipo : string) (js : list R)
          (pose : jfield (list R)),
      In (UR.Move tipo (Some js) pose) (UR.parse_line l) ->
      exists vs,
        (UR.lm_joints_comment l = Some (Ok vs) \/ UR.lm_movej l = Some (Ok vs))
        /\ (Forall (fun v => Rabs v < 7) (take 6 vs) ->
            js = map (fun r => r * 180 / PI) (take 6 vs))
        /\ (Exists (fun v => 7 <= Rabs v) (take 6 vs) -> js = take 6 vs))
  /\ (forall (tipo : string) (vs : list R),
         exists vals,
           RukiC.robodk_move tipo (Ok vs)
           = Some ("robot." +:+ tipo +:+ "(["
                   +:+ Py.join ", " (map (format_f 4) vals) +:+ "])
")
           /\ (Forall (fun v => Rabs v < 7) (take 6 vs) ->
               vals = map (fun r => r * 180 / PI) (take 6 vs))
           /\ (Exists (fun v => 7 <= Rabs v) (take 6 vs) -> vals = take 6 vs))
  /\ UR.parse_line movej_radians
     = [UR.Move "MoveJ"
          (Some (map (fun r => r * 180 / PI) [0.1; -0.2; 0.3; 0.0; 1.5; -1.5]))
          Absent]
  /\ UR.parse_line movej_degrees
     = [UR.Move "MoveJ" (Some [45; -90; 0; 90; 0; 180]) Absent].
Proof.
  split; [|split; [|split]].
  - intros l tipo js pose Hin.
    destruct (parse_line_joints l tipo js pose Hin) as [vs [Hsrc ->]].
    exists vs. split; [exact Hsrc|]. split.
    + apply radians_heuristic_small.
    + apply radians_heuristic_large.
  - intros tipo vs. exists (UR.radians_heuristic (take 6 vs)).
    split; [reflexivity|]. split.
    + apply radians_heuristic_small.
    + apply radians_heuristic_large.
  - unfold UR.parse_line, movej_radians.
    cbn [UR.lm_skipped UR.lm_movej UR.lm_joints_comment take].
    rewrite radians_heuristic_small; [reflexivity|].
    repeat constructor; unfold Rabs; destruct (Rcase_abs _); lra.
  - unfold UR.parse_line, movej_degrees.
    cbn [UR.lm_skipped UR.lm_movej UR.lm_joints_comment take].
    rewrite radians_heuristic_large; [reflexivity|].
    apply Exists_cons_hd. unfold Rabs; destruct (Rcase_abs _); lra.
Qed.

End HeuristicFacts.

(** Witness of C5: the joint list of the command parsed from
    [movej([0.1, -0.2, 0.3, 0.0, 1.5, -1.5])]. *)
Lemma parsed_joints_unit_heuristic_witness :
  In (UR.Move "MoveJ" (Some (UR.radians_heuristic [0.1; -0.2; 0.3; 0.0; 1.5; -1.5]%R))
        Absent)
     (UR.parse_line movej_radians)
  /\ exists vs,
       (UR.lm_joints_comment movej_radians = Some (Ok vs)
        \/ UR.lm_movej movej_radians = Some (Ok vs))
       /\ (Forall (fun v => Rabs v < 7)%R (take 6 vs) ->
           UR.radians_heuristic [0.1; -0.2; 0.3; 0.0; 1.5; -1.5]%R
           = map (fun r => r * 180 / PI)%R (take 6 vs))
       /\ (Exists (fun v => 7 <= Rabs v)%R (take 6 vs) ->
           UR.radians_heuristic [0.1; -0.2; 0.3; 0.0; 1.5; -1.5]%R = take 6 vs).
Proof.
  assert (Hin : In (UR.Move "MoveJ"
                      (Some (UR.radians_heuristic [0.1; -0.2; 0.3; 0.0; 1.5; -1.5]%R))
                      Absent)
                   (UR.parse_line movej_radians)).
  { left. reflexivity. }
  split; [exact Hin|].
  exact (proj1 parsed_joints_unit_heuristic movej_radians "MoveJ" _ Absent Hin).
Defined.

(** ** Model detection *)

Section DetectionFacts.

Lemma append_nil_l (s : string) : "" +:+ s = s.
Proof. reflexivity. Qed.

Lemma append_cons (c : ascii) (a b : string) :
  String c a +:+ b = String c (a +:+ b).
Proof. reflexivity. Qed.

Lemma last_char_from_app (prev : option ascii) (a b : string) :
  last_char_from prev (a +:+ b) = last_char_from (last_char_from prev a) b.
Proof.
  revert prev. induction a as [|x a IH]; intros prev.
  - reflexivity.
  - rewrite append_cons. cbn [last_char_from]. apply IH.
Qed.

Lemma ci_eqb_upper (k c : ascii) :
  UR.ci_eqb k c = true <-> UR.upper_char c = UR.upper_char k.
Proof.
  unfold UR.ci_eqb. rewrite Ascii.eqb_eq. split; intros Heq; symmetry; exact Heq.
Qed.

Lemma match_here_spec (key text : string) (last last' : option ascii)
    (rest : string) :
  UR.match_here key text last = Some (last', rest)
  <-> exists mid, text = mid +:+ rest /\ UR.upper mid = UR.upper key
                  /\ last' = last_char_from last mid.
Proof.
  revert text last. induction key as [|k key IH]; intros text last; cbn [UR.match_here].
  - split.
    + intros Heq. injection Heq as <- <-. exists "". repeat split.
    + intros [mid (-> & Hup & ->)]. destruct mid; [reflexivity|discriminate].
  - destruct text as [|c text].
    + split; [discriminate|]. intros [mid (Htext & Hup & _)].
      destruct mid; discriminate.
    + destruct (UR.ci_eqb k c) eqn:Hkc.
      * rewrite IH. apply ci_eqb_upper in Hkc. split.
        -- intros [mid (-> & Hup & ->)]. exists (String c mid).
           cbn [UR.upper last_char_from]. rewrite Hup, Hkc. repeat split.
        -- intros [mid (Htext & Hup & ->)]. destruct mid as [|c' mid]; [discriminate|].
           rewrite append_cons in Htext. cbn [UR.upper] in Hup.
           injection Htext as <- ->. injection Hup as _ Hup.
           exists mid. repeat split. exact Hup.
      * split; [discriminate|]. intros [mid (Htext & Hup & _)].
        destruct mid as [|c' mid]; [discriminate|].
        rewrite append_cons in Htext. cbn [UR.upper] in Hup.
        injection Htext as <- _. injection Hup as Hc _.
        apply ci_eqb_upper in Hc. congruence.
Qed.

Lemma search_word_unfold (key text : string) (prev : option ascii) :
  UR.search_word key text prev
  = (UR.word_boundary prev (UR.first_char text)
     && match UR.match_here key text prev with
        | Some (last, rest) => UR.word_boundary last (UR.first_char rest)
        | None => false
        end)
    || match text with
       | EmptyString => false
       | String c text' => UR.search_word key text' (Some c)
       end.
Proof. destruct text; reflexivity. Qed.

Lemma search_word_spec (key text : string) (prev : option ascii) :
  UR.search_word key text prev = true <-> occurs_from prev key text.
Proof.
  revert prev. induction text as [|c text IH]; intros prev;
    rewrite search_word_unfold, orb_true_iff, andb_true_iff.
  - split.
    + intros [[Hb Hm]|Hf]; [|discriminate].
      destruct (UR.match_here key "" prev) as [[last rest]|] eqn:Hmh; [|discriminate].
      apply match_here_spec in Hmh as [mid (Htext & Hup & ->)].
      exists "", mid, rest. rewrite !append_nil_l. cbn [last_char_from].
        rewrite <- Htext. repeat split; assumption.
    + intros (pre & mid & post & Htext & Hup & Hb1 & Hb2). left.
      destruct pre; [|discriminate].
      rewrite append_nil_l in Htext, Hb2. cbn [last_char_from] in Hb1.
      rewrite <- Htext in Hb1. split; [exact Hb1|].
      assert (Hmh : UR.match_here key "" prev = Some (last_char_from prev mid, post)).
      { apply match_here_spec. exists mid. repeat split; assumption. }
      rewrite Hmh. exact Hb2.
  - split.
    + intros [[Hb Hm]|Hrest].
      * destruct (UR.match_here key (String c text) prev) as [[last rest]|] eqn:Hmh;
          [|discriminate].
        apply match_here_spec in Hmh as [mid (Htext & Hup & ->)].
        exists "", mid, rest. rewrite !append_nil_l. cbn [last_char_from].
        rewrite <- Htext. repeat split; assumption.
      * apply IH in Hrest as (pre & mid & post & -> & Hup & Hb1 & Hb2).
        exists (String c pre), mid, post. repeat split; assumption.
    + intros (pre & mid & post & Htext & Hup & Hb1 & Hb2).
      destruct pre as [|c' pre].
      * left. rewrite append_nil_l in Htext, Hb2. cbn [last_char_from] in Hb1.
        rewrite <- Htext in Hb1.
        split; [exact Hb1|].
        assert (Hmh : UR.match_here key (String c text) prev
                      = Some (last_char_from prev mid, post)).
        { apply match_here_spec. exists mid. repeat split; assumption. }
        rewrite Hmh. exact Hb2.
      * right. rewrite append_cons in Htext. injection Htext as <- ->. apply IH.
        exists pre, mid, post. repeat split; assumption.
Qed.

Lemma search_ci_of_occurrence (key pre mid post : string) :
  UR.upper mid = UR.upper key -> UR.search_ci key (pre +:+ mid +:+ post) = true.
Proof.
  intros Hup.
  assert (Hmh : UR.match_here key (mid +:+ post) None
                = Some (last_char_from None mid, post)).
  { apply match_here_spec. exists mid. repeat split. exact Hup. }
  induction pre as [|c pre IH].
  - rewrite append_nil_l. destruct (mid +:+ post);
      cbn [UR.search_ci]; rewrite Hmh; reflexivity.
  - rewrite append_cons. cbn [UR.search_ci]. rewrite IH.
    destruct (UR.match_here key (String c _) None); reflexivity.
Qed.

Lemma find_first {A} (p : A -> bool) (l : list A) (x : A) :
  List.find p l = Some x
  <-> exists before after, l = before ++ x :: after /\ p x = true
                           /\ Forall (fun y => p y = false) before.
Proof.
  induction l as [|a l IH]; cbn [List.find].
  - split; [discriminate|]. intros (before & after & Heq & _).
    destruct before; discriminate.
  - destruct (p a) eqn:Hpa.
    + split.
      * intros Heq. injection Heq as <-. exists [], l. repeat split; [exact Hpa|constructor].
      * intros (before & after & Heq & Hpx & Hall).
        destruct before as [|b before].
        -- injection Heq as <- _. reflexivity.
        -- injection Heq as <- _. apply Forall_cons in Hall as [Hb _]. congruence.
    + rewrite IH. split.
      * intros (before & after & -> & Hpx & Hall).
        exists (a :: before), after. repeat split; [exact Hpx|].
        constructor; assumption.
      * intros (before & after & Heq & Hpx & Hall).
        destruct before as [|b before].
        -- injection Heq as <- _. congruence.
        -- injection Heq as <- ->. apply Forall_cons in Hall as [_ Hall].
           exists before, after. repeat split; assumption.
Qed.

Lemma find_none_iff {A} (p : A -> bool) (l : list A) :
  List.find p l = None <-> Forall (fun y => p y = false) l.
Proof.
  induction l as [|a l IH]; cbn [List.find]; [split; [constructor|reflexivity]|].
  destruct (p a) eqn:Hpa.
  - split; [discriminate|]. intros Hall. apply Forall_cons in Hall as [Ha _]. congruence.
  - rewrite IH. split; [intros Hall; constructor; assumption|].
    intros Hall. apply Forall_cons in Hall as [_ Hall]. exact Hall.
Qed.

Lemma not_occurs_iff (key text : string) :
  UR.search_word key text None = false <-> ~ occurs_as_word key text.
Proof.
  unfold occurs_as_word. rewrite <- search_word_spec.
  symmetry. apply not_true_iff_false.
Qed.

Lemma detectar_modelo_script_branch (arquivo : string) (f : UR.file)
    (robos : list (string * UR.robot)) (ls : list string) :
  UR.endswith ".ruki" arquivo = false -> UR.lines f = Ok ls ->
  UR.detectar_modelo arquivo f robos
  = List.find (fun m => UR.search_word m (Py.join "
" (take 100 ls)) None) (map fst robos).
Proof. intros Hext Hls. unfold UR.detectar_modelo. rewrite Hext, Hls. reflexivity. Qed.

Lemma search_ci_spec (key text : string) :
  UR.search_ci key text = true <-> occurs_in key text.
Proof.
  split.
  - induction text as [|c text IH]; cbn [UR.search_ci].
    + destruct (UR.match_here key "" None) as [[last rest]|] eqn:Hmh; [|discriminate].
      intros _. apply match_here_spec in Hmh as [mid (Htext & Hup & _)].
      exists "", mid, rest. rewrite append_nil_l. split; assumption.
    + destruct (UR.match_here key (String c text) None) as [[last rest]|] eqn:Hmh.
      * intros _. apply match_here_spec in Hmh as [mid (Htext & Hup & _)].
        exists "", mid, rest. rewrite append_nil_l. split; assumption.
      * intros Hrest. destruct (IH Hrest) as (pre & mid & post & -> & Hup).
        exists (String c pre), mid, post. split; [reflexivity|exact Hup].
  - intros (pre & mid & post & -> & Hup). apply search_ci_of_occurrence, Hup.
Qed.

Lemma not_occurs_in_iff (key text : string) :
  UR.search_ci key text = false <-> ~ occurs_in key text.
Proof. rewrite <- search_ci_spec. symmetry. apply not_true_iff_false. Qed.

Lemma occurs_as_word_in (key text : string) :
  occurs_as_word key text -> occurs_in key text.
Proof.
  intros (pre & mid & post & Htext & Hup & _). exists pre, mid, post.
  split; assumption.
Qed.

Lemma detectar_modelo_script_find (catalog : list (string * RukiC.marca_data))
    (ls : list string) (marca : string) (d : RukiC.marca_data) :
  RukiC.dict_get marca catalog = Some d ->
  RukiC.detectar_modelo_script catalog ls marca
  = List.find (fun k => UR.search_ci k (Py.join "
" (take 100 ls))) (map fst (RukiC.robos d)).
Proof. intros Hd. unfold RukiC.detectar_modelo_script. rewrite Hd. reflexivity. Qed.


End DetectionFacts.



(** ** The pose formula *)

Section PoseFacts.
Open Scope R_scope.

Lemma lit_int (z : Z) : lit z 0 = IZR z.
Proof.
  change (lit z 0) with (Exact.Rlit z 0). unfold Exact.Rlit.
  change (0 <=? 0)%Z with true. cbv iota. rewrite Z.pow_0_r, Z.mul_1_r. reflexivity.
Qed.

Lemma lit_1em10 : lit 1 (-10) = 1e-10.
Proof. reflexivity. Qed.

Lemma Rltb_true (a b : R) : a < b -> Exact.Rltb a b = true.
Proof. intros Hab. unfold Exact.Rltb. destruct (Rlt_dec a b); [reflexivity|contradiction]. Qed.

Lemma Rltb_false (a b : R) : ~ a < b -> Exact.Rltb a b = false.
Proof. intros Hab. unfold Exact.Rltb. destruct (Rlt_dec a b); [contradiction|reflexivity]. Qed.

Lemma fltb_dec (a b : R) : (a <? b)%py = if Rlt_dec a b then true else false.
Proof. reflexivity. Qed.

Lemma py_clamp (x : R) :
  UR.py_max (lit (-1) 0) (UR.py_min (lit 1 0) x) = clamp1 x.
Proof.
  unfold UR.py_max, UR.py_min, clamp1. rewrite !lit_int, !fltb_dec.
  unfold Rmax, Rmin.
  destruct (Rlt_dec x 1) as [H1|H1]; destruct (Rle_dec 1 x) as [H2|H2]; try lra.
  - destruct (Rlt_dec (-1) x) as [H3|H3]; destruct (Rle_dec (-1) x) as [H4|H4];
      lra.
  - destruct (Rlt_dec (-1) 1) as [H3|H3]; destruct (Rle_dec (-1) 1) as [H4|H4];
      lra.
Qed.

Lemma py_sqrt_defined (x : R) : 0 <= x -> UR.py_sqrt x = Ok (sqrt x).
Proof.
  intros Hx. unfold UR.py_sqrt. rewrite lit_int, fltb_dec.
  destruct (Rlt_dec x 0); [lra|reflexivity].
Qed.


End PoseFacts.


Section RoundTripFacts.
Open Scope R_scope.

Ltac exact_arith :=
  cbn [fadd fsub fmul fdiv fneg fabs math_pi math_sqrt math_acos math_sin
       math_cos Exact.R_scalar].

Lemma rotation_vector_3x3 (a b c d e f g h i : R) :
  -1 <= a -> -1 <= e -> -1 <= i ->
  UR.rotation_vector [[a; b; c]; [d; e; f]; [g; h; i]]
  = Ok (spec_rotation_vector [[a; b; c]; [d; e; f]; [g; h; i]]).
Proof.
  intros Ha He Hi.
  unfold spec_rotation_vector, rotation_angle, at_, UR.rotation_vector.
  cbn [nth UR.entry item nth_error mbind result_bind Py.bind].
  rewrite py_clamp, !lit_int, lit_1em10, !fltb_dec.
  change (fabs ?x) with (Rabs x). change math_acos with acos.
  change math_pi with PI. change math_sin with sin.
  change (fsub ?x ?y) with (x - y). change (fadd ?x ?y) with (x + y).
  change (fdiv ?x ?y) with (x / y). change (fmul ?x ?y) with (x * y).
  change (fneg ?x) with (- x).
  set (angle := acos _).
  destruct (Rlt_dec (Rabs angle) 1e-10); [reflexivity|].
  destruct (Rlt_dec (Rabs (angle - PI)) 1e-10); [|reflexivity].
  rewrite !py_sqrt_defined by lra.
  cbn [mbind result_bind Py.bind]. change math_pi with PI.
  change (fmul ?x ?y) with (x * y). change (fneg ?x) with (- x).
  destruct (Rlt_dec b 0); destruct (Rlt_dec c 0); reflexivity.
Qed.

(** A product of two components of the unit axis, from the components
    scaled by 2 sin *)
Lemma axis_product (X Y v s cc kx ky : R) :
  s * s = 1 - cc * cc -> s <> 0 ->
  2 * s * kx = X -> 2 * s * ky = Y ->
  4 * (1 + cc) * v = X * Y ->
  kx * ky * (1 - cc) = v.
Proof.
  intros Hs2 Hs Hkx Hky Hv.
  apply (Rmult_eq_reg_l (4 * (s * s))); [|nra].
  transitivity ((2 * s * kx) * (2 * s * ky) * (1 - cc)); [ring|].
  rewrite Hkx, Hky, <- Hv, Hs2. ring.
Qed.

(** Facts about the nine entries of a rotation matrix *)
Section Entries.
Variables a b c d e f g h i : R.
Hypothesis r00 : a * a + b * b + c * c = 1.
Hypothesis r11 : d * d + e * e + f * f = 1.
Hypothesis r22 : g * g + h * h + i * i = 1.
Hypothesis r01 : a * d + b * e + c * f = 0.
Hypothesis r02 : a * g + b * h + c * i = 0.
Hypothesis r12 : d * g + e * h + f * i = 0.
Hypothesis det : a * (e * i - f * h) - b * (d * i - f * g) + c * (d * h - e * g) = 1.

Lemma cof_a : a = e * i - f * h. Proof. nsatz. Qed.
Lemma cof_b : b = f * g - d * i. Proof. nsatz. Qed.
Lemma cof_c : c = d * h - e * g. Proof. nsatz. Qed.
Lemma cof_d : d = c * h - b * i. Proof. nsatz. Qed.
Lemma cof_e : e = a * i - c * g. Proof. nsatz. Qed.
Lemma cof_f : f = b * g - a * h. Proof. nsatz. Qed.
Lemma cof_g : g = b * f - c * e. Proof. nsatz. Qed.
Lemma cof_h : h = c * d - a * f. Proof. nsatz. Qed.
Lemma cof_i : i = a * e - b * d. Proof. nsatz. Qed.

Lemma col_0 : a * a + d * d + g * g = 1. Proof. nsatz. Qed.
Lemma col_1 : b * b + e * e + h * h = 1. Proof. nsatz. Qed.
Lemma col_2 : c * c + f * f + i * i = 1. Proof. nsatz. Qed.
Lemma col_01 : a * b + d * e + g * h = 0. Proof. nsatz. Qed.
Lemma col_02 : a * c + d * f + g * i = 0. Proof. nsatz. Qed.
Lemma col_12 : b * c + e * f + h * i = 0. Proof. nsatz. Qed.

Lemma diag_bounds : -1 <= a <= 1 /\ -1 <= e <= 1 /\ -1 <= i <= 1.
Proof. repeat split; nra. Qed.

(** The antisymmetric part against the trace: with 2 cc = trace - 1 *)
Variable cc : R.
Hypothesis Hcc : 2 * cc = a + e + i - 1.

Lemma antisym_norm :
  (h - f) * (h - f) + (c - g) * (c - g) + (d - b) * (d - b) = 4 * (1 - cc * cc).
Proof.
  pose proof cof_a. pose proof cof_e. pose proof cof_i.
  pose proof col_0. pose proof col_1. pose proof col_2. nsatz.
Qed.

Lemma cos_angle_bounds : -1 <= cc <= 1.
Proof.
  pose proof antisym_norm as Hn. pose proof diag_bounds as (Ha & He & Hi).
  assert (Hsq : 0 <= (h - f) * (h - f) + (c - g) * (c - g) + (d - b) * (d - b)).
  { pose proof (Rle_0_sqr (h - f)). pose proof (Rle_0_sqr (c - g)).
    pose proof (Rle_0_sqr (d - b)). unfold Rsqr in *. lra. }
  rewrite Hn in Hsq. split; nra.
Qed.

Lemma sym_00 : 4 * (1 + cc) * (a - cc) = (h - f) * (h - f).
Proof.
  pose proof cof_a. pose proof cof_e. pose proof cof_i.
  pose proof col_0. pose proof col_1. pose proof col_2. nsatz.
Qed.

Lemma sym_11 : 4 * (1 + cc) * (e - cc) = (c - g) * (c - g).
Proof.
  pose proof cof_a. pose proof cof_e. pose proof cof_i.
  pose proof col_0. pose proof col_1. pose proof col_2. nsatz.
Qed.

Lemma sym_22 : 4 * (1 + cc) * (i - cc) = (d - b) * (d - b).
Proof.
  pose proof cof_a. pose proof cof_e. pose proof cof_i.
  pose proof col_0. pose proof col_1. pose proof col_2. nsatz.
Qed.

Lemma sym_01 : 2 * (1 + cc) * (b + d) = (h - f) * (c - g).
Proof.
  pose proof cof_a. pose proof cof_e. pose proof cof_i.
  pose proof cof_b. pose proof cof_d.
  pose proof col_0. pose proof col_1. pose proof col_2. pose proof col_01.
  nsatz.
Qed.

Lemma sym_02 : 2 * (1 + cc) * (c + g) = (h - f) * (d - b).
Proof.
  pose proof cof_a. pose proof cof_e. pose proof cof_i.
  pose proof cof_c. pose proof cof_g.
  pose proof col_0. pose proof col_1. pose proof col_2. pose proof col_02.
  nsatz.
Qed.

Lemma sym_12 : 2 * (1 + cc) * (f + h) = (c - g) * (d - b).
Proof.
  pose proof cof_a. pose proof cof_e. pose proof cof_i.
  pose proof cof_f. pose proof cof_h.
  pose proof col_0. pose proof col_1. pose proof col_2. pose proof col_12.
  nsatz.
Qed.

Lemma rodrigues_entries (s kx ky kz : R) :
  s * s = 1 - cc * cc -> s <> 0 ->
  2 * s * kx = h - f -> 2 * s * ky = c - g -> 2 * s * kz = d - b ->
  [ [kx * kx * (1 - cc) + cc; kx * ky * (1 - cc) - kz * s; kx * kz * (1 - cc) + ky * s];
    [kx * ky * (1 - cc) + kz * s; ky * ky * (1 - cc) + cc; ky * kz * (1 - cc) - kx * s];
    [kx * kz * (1 - cc) - ky * s; ky * kz * (1 - cc) + kx * s; kz * kz * (1 - cc) + cc] ]
  = [ [a; b; c]; [d; e; f]; [g; h; i] ].
Proof.
  intros Hs2 Hs Hkx Hky Hkz.
  assert (Pxx : kx * kx * (1 - cc) = a - cc).
  { apply (axis_product (h - f) (h - f) _ s); try assumption. apply sym_00. }
  assert (Pyy : ky * ky * (1 - cc) = e - cc).
  { apply (axis_product (c - g) (c - g) _ s); try assumption. apply sym_11. }
  assert (Pzz : kz * kz * (1 - cc) = i - cc).
  { apply (axis_product (d - b) (d - b) _ s); try assumption. apply sym_22. }
  assert (Pxy : kx * ky * (1 - cc) = (b + d) / 2).
  { apply (axis_product (h - f) (c - g) _ s); try assumption.
    rewrite <- sym_01. field. }
  assert (Pxz : kx * kz * (1 - cc) = (c + g) / 2).
  { apply (axis_product (h - f) (d - b) _ s); try assumption.
    rewrite <- sym_02. field. }
  assert (Pyz : ky * kz * (1 - cc) = (f + h) / 2).
  { apply (axis_product (c - g) (d - b) _ s); try assumption.
    rewrite <- sym_12. field. }
  assert (Sx : kx * s = (h - f) / 2) by lra.
  assert (Sy : ky * s = (c - g) / 2) by lra.
  assert (Sz : kz * s = (d - b) / 2) by lra.
  rewrite Pxx, Pyy, Pzz, Pxy, Pxz, Pyz, Sx, Sy, Sz.
  repeat f_equal; lra.
Qed.

End Entries.

Lemma clamp1_id (x : R) : -1 <= x <= 1 -> clamp1 x = x.
Proof.
  intros [Hlo Hhi]. unfold clamp1, Rmax, Rmin.
  destruct (Rle_dec 1 x); destruct (Rle_dec (-1) _); lra.
Qed.

Lemma rodrigues_general (rx ry rz theta : R) :
  rx * rx + ry * ry + rz * rz = theta * theta ->
  1e-10 <= theta ->
  UR.ur_pose_to_robodk_R rx ry rz
  = let kx := rx / theta in
    let ky := ry / theta in
    let kz := rz / theta in
    let v := 1 - cos theta in
    [ [kx * kx * v + cos theta; kx * ky * v - kz * sin theta;
       kx * kz * v + ky * sin theta];
      [kx * ky * v + kz * sin theta; ky * ky * v + cos theta;
       ky * kz * v - kx * sin theta];
      [kx * kz * v - ky * sin theta; ky * kz * v + kx * sin theta;
       kz * kz * v + cos theta] ].
Proof.
  intros Hsum Hth. unfold UR.ur_pose_to_robodk_R. exact_arith.
  rewrite Hsum, sqrt_square by lra.
  rewrite lit_1em10, fltb_dec. destruct (Rlt_dec theta 1e-10); [lra|].
  rewrite !lit_int. reflexivity.
Qed.

(** Away from both thresholds the round trip returns the matrix itself *)
Lemma roundtrip_general (a b c d e f g h i : R) :
  let m := [[a; b; c]; [d; e; f]; [g; h; i]] in
  is_rotation m ->
  ~ Rabs (rotation_angle m) < 1e-10 ->
  ~ Rabs (rotation_angle m - PI) < 1e-10 ->
  roundtrip m = Some m.
Proof.
  intros m (_ & _ & r00 & r11 & r22 & r01 & r02 & r12 & Hdet) Hzero Hpi.
  unfold row_dot, det3, at_ in *. cbn [nth] in *.
  set (cc := (a + e + i - 1) / 2).
  assert (Hcc : 2 * cc = a + e + i - 1) by (unfold cc; field).
  pose proof (cos_angle_bounds a b c d e f g h i r00 r11 r22 r01 r02 r12 Hdet cc Hcc)
    as Hb.
  pose proof (diag_bounds a b c d e f g h i r00 r11 r22) as (Ha & He & Hi).
  assert (Hangle : rotation_angle m = acos cc).
  { unfold rotation_angle, m, at_. cbn [nth]. fold cc. rewrite clamp1_id by exact Hb.
    reflexivity. }
  rewrite Hangle in Hzero, Hpi. set (theta := acos cc) in *.
  pose proof (acos_bound cc) as Hth. fold theta in Hth.
  assert (Hlo : 1e-10 <= theta).
  { apply Rnot_lt_le in Hzero. rewrite Rabs_pos_eq in Hzero; lra. }
  assert (Hhi : theta <= PI - 1e-10).
  { apply Rnot_lt_le in Hpi. rewrite Rabs_left1 in Hpi; lra. }
  assert (Hs : 0 < sin theta) by (apply sin_gt_0; lra).
  assert (Hc : cos theta = cc) by (apply cos_acos, Hb).
  assert (Hs2 : sin theta * sin theta = 1 - cc * cc).
  { pose proof (sin2_cos2 theta) as Hsc. unfold Rsqr in Hsc. rewrite Hc in Hsc. lra. }
  unfold roundtrip. unfold m at 1. rewrite rotation_vector_3x3 by lra.
  unfold spec_rotation_vector. fold m. rewrite Hangle. fold theta.
  destruct (Rlt_dec (Rabs theta) 1e-10); [contradiction|].
  destruct (Rlt_dec (Rabs (theta - PI)) 1e-10); [contradiction|].
  cbn zeta. unfold m, at_. cbn [nth].
  set (k := theta / (2 * sin theta)).
  assert (Hk : k * (2 * sin theta) = theta) by (unfold k; field; lra).
  assert (Hsum : k * (h - f) * (k * (h - f)) + k * (c - g) * (k * (c - g))
                 + k * (d - b) * (k * (d - b)) = theta * theta).
  { pose proof (antisym_norm a b c d e f g h i r00 r11 r22 r01 r02 r12 Hdet cc Hcc)
      as Hn.
    replace (theta * theta) with (k * (2 * sin theta) * (k * (2 * sin theta)))
      by (rewrite Hk; reflexivity).
    transitivity (k * k * ((h - f) * (h - f) + (c - g) * (c - g) + (d - b) * (d - b)));
      [ring|].
    rewrite Hn, <- Hs2. ring. }
  rewrite (rodrigues_general _ _ _ theta Hsum Hlo).
  cbn zeta. rewrite Hc. f_equal.
  assert (Hne : sin theta <> 0) by lra.
  assert (Hkx : 2 * sin theta * (k * (h - f) / theta) = h - f)
    by (unfold k; field; lra).
  assert (Hky : 2 * sin theta * (k * (c - g) / theta) = c - g)
    by (unfold k; field; lra).
  assert (Hkz : 2 * sin theta * (k * (d - b) / theta) = d - b)
    by (unfold k; field; lra).
  exact (rodrigues_entries a b c d e f g h i r00 r11 r22 r01 r02 r12 Hdet cc Hcc
           (sin theta) _ _ _ Hs2 Hne Hkx Hky Hkz).
Qed.


Lemma cos_lower (x : R) : -2 <= x <= 2 -> 1 - x * x / 2 <= cos x.
Proof.
  intros [Hlo Hhi]. destruct (pre_cos_bound x 0 Hlo Hhi) as [Hb _].
  unfold cos_approx, cos_term in Hb. cbn in Hb. lra.
Qed.

Lemma cos_upper (x : R) :
  -2 <= x <= 2 -> cos x <= 1 - x * x / 2 + x * x * x * x / 24.
Proof.
  intros [Hlo Hhi]. destruct (pre_cos_bound x 0 Hlo Hhi) as [_ Hb].
  unfold cos_approx, cos_term in Hb. cbn in Hb. lra.
Qed.


Lemma PI_gt_3 : 3 < PI.
Proof. pose proof PI2_3_2. lra. Qed.

Lemma PI_gt_31 : 3.1 < PI.
Proof.
  destruct (Rlt_or_le 3.1 PI) as [Hlt|Hle]; [exact Hlt|]. exfalso.
  pose proof PI_gt_3 as Hpi.
  destruct (pre_cos_bound 1.55 1 ltac:(lra) ltac:(lra)) as [Hb _].
  unfold cos_approx, cos_term in Hb. cbn in Hb.
  assert (Hpos : 0 < cos 1.55) by lra.
  assert (Hneg : cos 1.55 <= cos (PI / 2)) by (apply cos_decr_1; lra).
  rewrite cos_PI2 in Hneg. lra.
Qed.

Lemma rodrigues_zero :
  UR.ur_pose_to_robodk_R 0 0 0 = [[1; 0; 0]; [0; 1; 0]; [0; 0; 1]].
Proof.
  unfold UR.ur_pose_to_robodk_R. exact_arith.
  replace (0 * 0 + 0 * 0 + 0 * 0) with 0 by ring. rewrite sqrt_0.
  rewrite lit_1em10, fltb_dec. destruct (Rlt_dec 0 1e-10); [|lra].
  rewrite !lit_int. reflexivity.
Qed.

Lemma off_diagonal_small (x y z : R) :
  x * x + y * y + z * z = 1 -> 1 - 1e-20 <= x <= 1 ->
  Rabs (0 - y) <= 1e-6 /\ Rabs (0 - z) <= 1e-6.
Proof.
  intros Hrow [Hlo Hhi].
  assert (Hx : 1 - x * x <= 4e-20) by nra.
  assert (Hy : y * y <= 4e-20) by nra.
  assert (Hz : z * z <= 4e-20) by nra.
  split; apply Rabs_le; split.
  - destruct (Rle_or_lt (0 - y) (-1e-6)) as [Hc|Hc]; [|lra].
    assert (1e-6 * 1e-6 <= y * y) by nra. lra.
  - destruct (Rle_or_lt 1e-6 (0 - y)) as [Hc|Hc]; [|lra].
    assert (1e-6 * 1e-6 <= y * y) by nra. lra.
  - destruct (Rle_or_lt (0 - z) (-1e-6)) as [Hc|Hc]; [|lra].
    assert (1e-6 * 1e-6 <= z * z) by nra. lra.
  - destruct (Rle_or_lt 1e-6 (0 - z)) as [Hc|Hc]; [|lra].
    assert (1e-6 * 1e-6 <= z * z) by nra. lra.
Qed.

(** Below the lower threshold the round trip returns the identity, and the
    matrix is that close to the identity *)
Lemma roundtrip_small_angle (a b c d e f g h i : R) :
  let m := [[a; b; c]; [d; e; f]; [g; h; i]] in
  is_rotation m ->
  Rabs (rotation_angle m) < 1e-10 ->
  roundtrip m = Some [[1; 0; 0]; [0; 1; 0]; [0; 0; 1]]
  /\ within 1e-6 [[1; 0; 0]; [0; 1; 0]; [0; 0; 1]] m.
Proof.
  intros m (_ & _ & r00 & r11 & r22 & r01 & r02 & r12 & Hdet) Hzero.
  unfold row_dot, det3, at_ in r00, r11, r22, r01, r02, r12, Hdet.
  cbv delta [m] in r00, r11, r22, r01, r02, r12, Hdet.
  cbn [nth] in r00, r11, r22, r01, r02, r12, Hdet.
  set (cc := (a + e + i - 1) / 2).
  assert (Hcc : 2 * cc = a + e + i - 1) by (unfold cc; field).
  pose proof (cos_angle_bounds a b c d e f g h i r00 r11 r22 r01 r02 r12 Hdet cc Hcc)
    as Hb.
  pose proof (diag_bounds a b c d e f g h i r00 r11 r22) as (Ha & He & Hi).
  assert (Hangle : rotation_angle m = acos cc).
  { unfold rotation_angle, m, at_. cbn [nth]. fold cc. rewrite clamp1_id by exact Hb.
    reflexivity. }
  split.
  - unfold roundtrip. unfold m at 1. rewrite rotation_vector_3x3 by lra.
    unfold spec_rotation_vector. fold m.
    destruct (Rlt_dec (Rabs (rotation_angle m)) 1e-10); [|contradiction].
    rewrite rodrigues_zero. reflexivity.
  - rewrite Hangle in Hzero. set (theta := acos cc) in *.
    pose proof (acos_bound cc) as Hth. fold theta in Hth.
    rewrite Rabs_pos_eq in Hzero by lra.
    pose proof PI_gt_3 as Hpi.
    assert (Hcos : 1 - 1e-10 * 1e-10 / 2 <= cc).
    { pose proof (cos_lower 1e-10 ltac:(lra)) as Hl.
      pose proof (cos_decr_1 theta 1e-10 ltac:(lra) ltac:(lra) ltac:(lra)
                    ltac:(lra) ltac:(lra)) as Hd.
      rewrite (cos_acos cc Hb : cos theta = cc) in Hd. lra. }
    assert (Ha1 : 1 - 1e-20 <= a) by lra.
    assert (He1 : 1 - 1e-20 <= e) by lra.
    assert (Hi1 : 1 - 1e-20 <= i) by lra.
    destruct (off_diagonal_small a b c r00 ltac:(lra)) as [Hb0 Hc0].
    destruct (off_diagonal_small e d f ltac:(lra) ltac:(lra)) as [Hd0 Hf0].
    destruct (off_diagonal_small i g h ltac:(lra) ltac:(lra)) as [Hg0 Hh0].
    intros p q Hp Hq. unfold m, at_.
    destruct p as [|[|[|p]]]; try lia;
      destruct q as [|[|[|q]]]; try lia; cbn [nth]; try assumption;
      apply Rabs_le; lra.
Qed.

Lemma sin_lower (x : R) : 0 <= x <= 4 -> x - x * x * x / 6 <= sin x.
Proof.
  intros [Hlo Hhi]. destruct (pre_sin_bound x 0 Hlo Hhi) as [Hb _].
  unfold sin_approx, sin_term in Hb. cbn in Hb. lra.
Qed.

(** The cosine of [exact_half_turn], up to sign: at most 2^-54 below the
    binary64 number 1 - 2^-47, whose neighbours are 2^-53 away *)
Lemma exact_half_turn_cos :
  let y := sqrt (1 - (1 + / 2 ^ 9) / 2 ^ 23 * ((1 + / 2 ^ 9) / 2 ^ 23)) in
  y * y = 1 - (1 + / 2 ^ 9) / 2 ^ 23 * ((1 + / 2 ^ 9) / 2 ^ 23)
  /\ 1 - / 2 ^ 47 - / 2 ^ 54 <= y <= 1 - / 2 ^ 47.
Proof.
  intros y.
  assert (Hsq : y * y = 1 - (1 + / 2 ^ 9) / 2 ^ 23 * ((1 + / 2 ^ 9) / 2 ^ 23)).
  { unfold y. apply sqrt_sqrt. lra. }
  assert (Hy : 0 <= y) by (unfold y; apply sqrt_pos).
  split; [exact Hsq|]. split.
  - destruct (Rle_or_lt (1 - / 2 ^ 47 - / 2 ^ 54) y) as [Hle|Hgt]; [exact Hle|]. exfalso.
    assert (y * y < (1 - / 2 ^ 47 - / 2 ^ 54) * (1 - / 2 ^ 47 - / 2 ^ 54)) by nra. lra.
  - destruct (Rle_or_lt y (1 - / 2 ^ 47)) as [Hle|Hgt]; [exact Hle|]. exfalso.
    assert ((1 - / 2 ^ 47) * (1 - / 2 ^ 47) < y * y) by nra. lra.
Qed.

Lemma exact_half_turn_is_rotation : is_rotation exact_half_turn.
Proof.
  destruct exact_half_turn_cos as [Hsq _]. cbv zeta in Hsq.
  unfold is_rotation, exact_half_turn, row_dot, det3, at_. cbn [nth length].
  set (y := sqrt _) in *.
  split; [reflexivity|]. split; [repeat constructor|].
  repeat split; lra.
Qed.

(** A cosine -y with y between 1 - 2^-46 and 1 - 2^-48 belongs to an angle
    pi - delta with delta between 1e-10 and 1e-3 *)
Lemma angle_near_pi (y : R) :
  1 - / 2 ^ 46 <= y <= 1 - / 2 ^ 48 ->
  PI - 1e-3 <= acos (- y) <= PI - 1e-10.
Proof.
  intros [Hy0 Hy1]. rewrite acos_opp.
  set (delta := acos y).
  pose proof (acos_bound y) as [Hd0 Hd1]. fold delta in Hd0, Hd1.
  assert (Hc : cos delta = y) by (apply cos_acos; lra).
  pose proof PI_gt_3 as Hpi.
  split.
  - destruct (Rle_or_lt delta 1e-3) as [Hle|Hgt]; [lra|]. exfalso.
    assert (Hlt : cos delta < cos 1e-3) by (apply cos_decreasing_1; lra).
    pose proof (cos_upper 1e-3 ltac:(lra)) as Hup. lra.
  - destruct (Rle_or_lt 1e-10 delta) as [Hle|Hlt]; [lra|]. exfalso.
    pose proof (cos_lower delta ltac:(lra)) as Hlo.
    assert (Hsq : delta * delta <= 1e-10 * 1e-10) by nra. lra.
Qed.

Lemma exact_half_turn_angle :
  PI - 1e-3 <= rotation_angle exact_half_turn <= PI - 1e-10.
Proof.
  destruct exact_half_turn_cos as [_ [Hlo Hhi]]. cbv zeta in Hlo, Hhi.
  unfold rotation_angle, exact_half_turn, at_. cbn [nth].
  set (y := sqrt _) in *.
  replace ((- y + - y + 1 - 1) / 2) with (- y) by field.
  rewrite clamp1_id by lra. apply angle_near_pi. lra.
Qed.

Lemma rounded_half_turn_is_rounded :
  within (/ 2 ^ 54) rounded_half_turn exact_half_turn.
Proof.
  destruct exact_half_turn_cos as [_ [Hlo Hhi]]. cbv zeta in Hlo, Hhi.
  intros p q Hp Hq. unfold rounded_half_turn, exact_half_turn, at_.
  set (y := sqrt _) in *.
  destruct p as [|[|[|p]]]; try lia;
    destruct q as [|[|[|q]]]; try lia; cbn [nth]; apply Rabs_le; lra.
Qed.

(** The angle of [rounded_half_turn] is pi - delta with delta between
    1e-10 and 1e-3 *)
Lemma rounded_half_turn_angle :
  PI - 1e-3 <= rotation_angle rounded_half_turn <= PI - 1e-10
  /\ cos (rotation_angle rounded_half_turn) = - (1 - / 2 ^ 47).
Proof.
  unfold rotation_angle, rounded_half_turn, at_. cbn [nth].
  replace ((- (1 - / 2 ^ 47) + - (1 - / 2 ^ 47) + 1 - 1) / 2)
    with (- (1 - / 2 ^ 47)) by field.
  rewrite clamp1_id by lra.
  split; [apply angle_near_pi; lra|apply cos_acos; lra].
Qed.

Lemma rounded_half_turn_roundtrip :
  exists m', roundtrip rounded_half_turn = Some m'
             /\ 1e-3 < Rabs (at_ m' 1 0 - at_ rounded_half_turn 1 0).
Proof.
  destruct rounded_half_turn_angle as [[Hlo Hhi] Hcos].
  pose proof PI_gt_3 as Hpi3. pose proof PI_4 as Hpi4.
  unfold roundtrip.
  set (c0 := - (1 - / 2 ^ 47)) in *.
  set (s0 := (1 + / 2 ^ 9) / 2 ^ 23).
  assert (Hc0 : -1 <= c0) by (unfold c0; lra).
  unfold rounded_half_turn at 1. fold c0 s0.
  rewrite rotation_vector_3x3 by lra.
  unfold spec_rotation_vector.
  change (rotation_angle [[c0; - s0; 0]; [s0; c0; 0]; [0; 0; 1]])
    with (rotation_angle rounded_half_turn).
  set (angle := rotation_angle rounded_half_turn) in *.
  destruct (Rlt_dec (Rabs angle) 1e-10) as [Hz|_].
  { rewrite Rabs_pos_eq in Hz; lra. }
  destruct (Rlt_dec (Rabs (angle - PI)) 1e-10) as [Hn|_].
  { rewrite Rabs_left1 in Hn; lra. }
  cbv zeta. unfold at_. cbn [nth].
  assert (Hs : 0 < sin angle) by (apply sin_gt_0; lra).
  set (sg := sin angle) in *.
  assert (Hsg2 : sg * sg = 1 - c0 * c0).
  { pose proof (sin2_cos2 angle) as Hsc. unfold Rsqr in Hsc. rewrite Hcos in Hsc.
    fold sg in Hsc. lra. }
  (* the sine entry is larger than the sine of the angle by about 2^-9 *)
  assert (Hs0 : 0 < s0) by (unfold s0; lra).
  assert (Hup : sg <= / 2 ^ 23).
  { destruct (Rle_or_lt sg (/ 2 ^ 23)) as [Hle|Hgt]; [exact Hle|]. exfalso.
    assert (/ 2 ^ 23 * / 2 ^ 23 < sg * sg) by nra.
    unfold c0 in Hsg2. lra. }
  assert (Hdn : / 2 ^ 23 * (1 - / 2 ^ 48) <= sg).
  { destruct (Rle_or_lt (/ 2 ^ 23 * (1 - / 2 ^ 48)) sg) as [Hle|Hgt]; [exact Hle|].
    exfalso.
    assert (sg * sg < / 2 ^ 23 * (1 - / 2 ^ 48) * (/ 2 ^ 23 * (1 - / 2 ^ 48))) by nra.
    unfold c0 in Hsg2. lra. }
  set (rho := s0 / sg).
  assert (Hrho : rho * sg = s0) by (unfold rho; field; lra).
  assert (Hrho_lo : 1 + / 2 ^ 9 <= rho).
  { unfold s0 in Hrho. nra. }
  assert (Hrho_hi : rho <= 1.002).
  { unfold s0 in Hrho. nra. }
  set (rz := angle / (2 * sg) * (s0 - - s0)).
  assert (Hrz : rz = angle * rho) by (unfold rz, rho; field; lra).
  set (eps := rz - PI).
  assert (Heps : 4e-3 <= eps <= 9e-3).
  { unfold eps. rewrite Hrz. split; nra. }
  assert (Hrz0 : 1e-10 <= rz) by (unfold eps in Heps; lra).
  replace (angle / (2 * sg) * (0 - 0)) with 0 by (field; lra).
  assert (Hsum : 0 * 0 + 0 * 0 + rz * rz = rz * rz) by ring.
  rewrite (rodrigues_general 0 0 rz rz Hsum Hrz0). cbv zeta.
  eexists. split; [reflexivity|]. unfold rounded_half_turn, at_. cbn [nth]. fold s0.
  replace (0 / rz * (0 / rz) * (1 - cos rz) + rz / rz * sin rz - s0)
    with (sin rz - s0) by (field; lra).
  replace rz with (eps + PI) by (unfold eps; ring).
  rewrite neg_sin.
  pose proof (sin_lower eps ltac:(lra)) as Hsl.
  assert (Hcube : eps * eps * eps <= 9e-3 * 9e-3 * 9e-3).
  { assert (eps * eps <= 9e-3 * 9e-3) by nra. nra. }
  rewrite Rabs_left1; lra.
Qed.

End RoundTripFacts.

(** Counterexample to C3 as stated.  [exact_half_turn] is a rotation
    matrix: a turn about the z axis by an angle strictly between 0 and pi
    and more than 1e-10 away from pi (about pi - 1.2e-7).  The entries of
    a matrix that the code receives are binary64 numbers;
    [rounded_half_turn] is [exact_half_turn] with each entry rounded to the
    nearest binary64 number, which moves the two cosine entries by less
    than 2^-54 and leaves the others as they are.  On it
    [get_cartesian_pose] takes its general branch and divides by the sine
    of the angle, which the rounded cosine determines only to a relative
    2e-3: the rotation vector is longer than pi, and the matrix rebuilt by
    [ur_pose_to_robodk] differs from the rotation by more than 1e-3 in
    row 1, column 0. *)
Lemma rounded_half_turn_breaks_roundtrip :
  is_rotation exact_half_turn
  /\ (0 < rotation_angle exact_half_turn < PI)%R
  /\ ~ (Rabs (rotation_angle exact_half_turn - PI) < 1e-10)%R
  /\ within (/ 2 ^ 54) rounded_half_turn exact_half_turn
  /\ ~ (Rabs (rotation_angle rounded_half_turn - PI) < 1e-10)%R
  /\ exists m', roundtrip rounded_half_turn = Some m'
                /\ (1e-3 < Rabs (at_ m' 1 0 - at_ exact_half_turn 1 0))%R.
Proof.
  pose proof exact_half_turn_angle as [Hlo Hhi].
  destruct rounded_half_turn_angle as [[Hlo' Hhi'] _].
  pose proof PI_gt_3 as Hpi.
  split; [exact exact_half_turn_is_rotation|].
  split; [lra|]. split; [rewrite Rabs_left1; lra|].
  split; [exact rounded_half_turn_is_rounded|].
  split; [rewrite Rabs_left1; lra|].
  exact rounded_half_turn_roundtrip.
Qed.

Section RoundTripTheorem.
Open Scope R_scope.

(** The one divisor of [get_cartesian_pose] that depends on the input is
    not zero where it is used *)
Lemma general_branch_divisor (m : list (list R)) :
  ~ Rabs (rotation_angle m) < 1e-10 ->
  ~ Rabs (rotation_angle m - PI) < 1e-10 ->
  2 * sin (rotation_angle m) <> 0.
Proof.
  intros Hzero Hpi. unfold rotation_angle in *.
  set (theta := acos _) in *.
  pose proof (acos_bound (clamp1 ((at_ m 0 0 + at_ m 1 1 + at_ m 2 2 - 1) / 2)))
    as Hth. fold theta in Hth.
  apply Rnot_lt_le in Hzero. rewrite Rabs_pos_eq in Hzero by lra.
  apply Rnot_lt_le in Hpi. rewrite Rabs_left1 in Hpi by lra.
  assert (0 < sin theta) by (apply sin_gt_0; lra). lra.
Qed.

(** C3 (amended).  For every 3x3 rotation matrix R whose rotation angle is
    at most 3 radians, the rotation vector of [get_cartesian_pose] fed to
    the rotation-matrix computation of [ur_pose_to_robodk] yields a matrix
    equal to R within 1e-6 in every entry; in exact arithmetic it is R
    itself when the angle is at least 1e-10.  The bound keeps the angle
    away from pi, where the extraction divides by the sine of the angle
    and amplifies the rounding of the entries. *)
Theorem rotation_roundtrip (m : list (list R)) :
  is_rotation m ->
  rotation_angle m <= 3 ->
  exists m', roundtrip m = Some m'
             /\ within 1e-6 m' m
             /\ (~ Rabs (rotation_angle m) < 1e-10 -> m' = m).
Proof.
  intros Hrot Hbound.
  assert (Hpi : ~ Rabs (rotation_angle m - PI) < 1e-10).
  { pose proof PI_gt_31. rewrite Rabs_left1; lra. }
  clear Hbound. pose proof Hrot as (Hlen & Hrows & _).
  destruct m as [|r0 [|r1 [|r2 [|r3 m]]]]; try discriminate Hlen.
  apply Forall_cons in Hrows as [L0 Hrows]. apply Forall_cons in Hrows as [L1 Hrows].
  apply Forall_cons in Hrows as [L2 _].
  destruct r0 as [|a [|b [|c [|? ?]]]]; try discriminate L0.
  destruct r1 as [|d [|e [|f [|? ?]]]]; try discriminate L1.
  destruct r2 as [|g [|h [|i [|? ?]]]]; try discriminate L2.
  destruct (Rlt_dec (Rabs (rotation_angle [[a; b; c]; [d; e; f]; [g; h; i]])) 1e-10)
    as [Hzero|Hzero].
  - destruct (roundtrip_small_angle a b c d e f g h i Hrot Hzero) as [Hrt Hwithin].
    eexists. split; [exact Hrt|]. split; [exact Hwithin|]. intros Hn. contradiction.
  - exists [[a; b; c]; [d; e; f]; [g; h; i]].
    split; [exact (roundtrip_general a b c d e f g h i Hrot Hzero Hpi)|].
    split; [|reflexivity].
    intros p q _ _. rewrite Rminus_diag, Rabs_R0. lra.
Qed.

End RoundTripTheorem.

(** Witness of C3 (amended): the quarter turn about the z axis. *)
Lemma rotation_roundtrip_witness :
  is_rotation quarter_turn
  /\ (rotation_angle quarter_turn <= 3)%R
  /\ exists m', roundtrip quarter_turn = Some m'
                /\ within 1e-6 m' quarter_turn
                /\ (~ (Rabs (rotation_angle quarter_turn) < 1e-10)%R
                    -> m' = quarter_turn).
Proof.
  assert (Hrot : is_rotation quarter_turn).
  { unfold is_rotation, quarter_turn, row_dot, det3, at_. cbn [nth length].
    split; [reflexivity|]. split; [repeat constructor|]. repeat split; ring. }
  assert (Hangle : rotation_angle quarter_turn = (PI / 2)%R).
  { unfold rotation_angle, quarter_turn, at_. cbn [nth].
    replace ((0 + 0 + 1 - 1) / 2)%R with 0%R by field.
    rewrite clamp1_id by lra. apply acos_0. }
  assert (Hbound : (rotation_angle quarter_turn <= 3)%R).
  { rewrite Hangle. pose proof PI_4. lra. }
  split; [exact Hrot|]. split; [exact Hbound|].
  exact (rotation_roundtrip quarter_turn Hrot Hbound).
Defined.

(** ** Whole runs of the builder *)

Section BuilderRunFacts.
Context {F : Type} `{Scalar F} {Mat : Type}.
Variable RoboDK : RukiE.host F Mat.

(** Case analysis on a callback, with [P] an invariant that
    [_get_io_ref] keeps *)
Ltac callback_cases Hok io_lemma :=
  cbn [RukiE.invoke];
  unfold RukiE.ProgStart, RukiE.ProgFinish, RukiE.setDO, RukiE.setAO, RukiE.waitDI;
  repeat match goal with
  | |- context [RukiE._get_io_ref ?s ?v ?t] =>
      pose proof (io_lemma s v t Hok);
      destruct (RukiE._get_io_ref s v t) as [? ?]
  | |- context [RukiE.current_subprogram ?s] =>
      destruct (RukiE.current_subprogram s) as [cur|];
      [destruct (cur =? "")%string|]
  | |- context [(?a <? ?b)%nat] => destruct (a <? b)%nat
  end.

Lemma threads_snoc (s0 : state F) (ss : list (step F)) (s1 s2 : state F) (s : step F) :
  threads s0 ss s1 -> s_state_before s = Some s1 -> s_state_after s = Some s2 ->
  threads s0 (ss ++ [s]) s2.
Proof.
  revert s0. induction ss as [|x ss IH]; intros s0 Hth Hb Ha.
  - cbn in Hth. subst s1. cbn. split; [exact Hb|]. exists s2. split; [exact Ha|reflexivity].
  - destruct Hth as [Hx [mid [Hm Hth]]]. cbn. split; [exact Hx|].
    exists mid. split; [exact Hm|]. apply IH; assumption.
Qed.

Lemma add_step_threaded (self : RukiE.RobotPost F Mat) ty kw :
  threaded self -> threaded (RukiE._add_step self ty kw).
Proof.
  unfold threaded. intros Hth.
  unfold RukiE._add_step. cbn [RukiE.steps RukiE.current_state RukiE.set_steps].
  eapply threads_snoc; [exact Hth| reflexivity | reflexivity].
Qed.

Lemma get_io_ref_threaded (self : RukiE.RobotPost F Mat) io_var io_type :
  threaded self -> threaded (RukiE._get_io_ref self io_var io_type).1.
Proof.
  intros Hok. unfold RukiE._get_io_ref.
  destruct (RukiE.io_map self !! _); exact Hok.
Qed.

Lemma invoke_threaded (self : RukiE.RobotPost F Mat) (c : RukiE.call F Mat) :
  threaded self -> threaded (RukiE.invoke RoboDK self c).
Proof.
  intros Hok. destruct c; callback_cases Hok get_io_ref_threaded;
    first [exact Hok | apply add_step_threaded; assumption].
Qed.

Lemma run_invariant (P : RukiE.RobotPost F Mat -> Prop) :
  P RukiE.init ->
  (forall self c, P self -> P (RukiE.invoke RoboDK self c)) ->
  forall cs, P (RukiE.run RoboDK cs).
Proof.
  intros H0 Hstep cs. unfold RukiE.run. revert H0.
  generalize (RukiE.init (F := F) (Mat := Mat)).
  induction cs as [|c cs IH]; intros self Hok; [exact Hok|].
  cbn [fold_left]. apply IH, Hstep, Hok.
Qed.

(** X1. After any sequence of callbacks the recorded steps thread the
    interpreter state: the first step starts from the state of a fresh
    builder, every step starts from the state its predecessor ended in,
    and the last one ends in the builder's current state. *)
Theorem steps_thread_the_state (cs : list (RukiE.call F Mat)) :
  threads (RukiE.current_state (RukiE.init (F:=F) (Mat:=Mat)))
          (RukiE.steps (RukiE.run RoboDK cs))
          (RukiE.current_state (RukiE.run RoboDK cs)).
Proof.
  apply (run_invariant threaded); [reflexivity|]. apply invoke_threaded.
Qed.

(** Quiet steps *)

Lemma add_step_quiet (self : RukiE.RobotPost F Mat) ty kw :
  Forall quiet (RukiE.steps self) ->
  Forall quiet (RukiE.steps (RukiE._add_step self ty kw)).
Proof.
  intros Hq. unfold RukiE._add_step. cbn [RukiE.steps RukiE.set_steps].
  apply Forall_app. split; [exact Hq|]. constructor; [|constructor].
  unfold quiet, is_setter. cbn [s_type s_state_after s_state_before].
  intros Hty. unfold RukiE._copy_state.
  destruct (ty =? "SET_FRAME")%string; [discriminate|].
  destruct (ty =? "SET_TOOL")%string; [discriminate|].
  destruct (ty =? "SET_SPEED")%string; [discriminate|].
  destruct (ty =? "SET_ACCEL")%string; [discriminate|].
  destruct (ty =? "SET_ROUNDING")%string; [discriminate|].
  reflexivity.
Qed.

Lemma get_io_ref_quiet (self : RukiE.RobotPost F Mat) io_var io_type :
  Forall quiet (RukiE.steps self) ->
  Forall quiet (RukiE.steps (RukiE._get_io_ref self io_var io_type).1).
Proof.
  intros Hok. unfold RukiE._get_io_ref.
  destruct (RukiE.io_map self !! _); exact Hok.
Qed.

Lemma invoke_quiet (self : RukiE.RobotPost F Mat) (c : RukiE.call F Mat) :
  Forall quiet (RukiE.steps self) ->
  Forall quiet (RukiE.steps (RukiE.invoke RoboDK self c)).
Proof.
  intros Hok. destruct c; callback_cases Hok get_io_ref_quiet;
    first [exact Hok | apply add_step_quiet; assumption].
Qed.

(** X2. A recorded step that is not a frame, tool, speed,
    acceleration or rounding setter carries the same state snapshot before
    and after: moves, IO, pauses, code and messages never change the
    interpreter state. *)
Theorem only_setters_change_the_state (cs : list (RukiE.call F Mat)) (s : step F) :
  In s (RukiE.steps (RukiE.run RoboDK cs)) ->
  is_setter (s_type s) = false ->
  s_state_after s = s_state_before s.
Proof.
  intros Hin Hty.
  assert (Hall : Forall quiet (RukiE.steps (RukiE.run RoboDK cs))).
  { apply (run_invariant (fun self => Forall quiet (RukiE.steps self)));
      [constructor|]. apply invoke_quiet. }
  rewrite List.Forall_forall in Hall. exact (Hall s Hin Hty).
Qed.

(** Initial state *)

Lemma invoke_initial_state (self : RukiE.RobotPost F Mat) (c : RukiE.call F Mat)
    (s : state F) :
  RukiE.initial_state self = Some s ->
  RukiE.initial_state (RukiE.invoke RoboDK self c) = Some s.
Proof.
  intros Hok. destruct c; cbn [RukiE.invoke];
    unfold RukiE.ProgStart, RukiE.ProgFinish, RukiE.setDO, RukiE.setAO, RukiE.waitDI,
      RukiE._get_io_ref;
    repeat match goal with
    | |- context [RukiE.io_map ?s !! ?k] => destruct (RukiE.io_map s !! k)
    | |- context [RukiE.current_subprogram ?s] =>
        destruct (RukiE.current_subprogram s) as [cur|];
        [destruct (cur =? "")%string|]
    | |- context [(?a <? ?b)%nat] => destruct (a <? b)%nat
    end; cbn; try rewrite Hok; try reflexivity; try exact Hok.
Qed.

Lemma fold_invoke_initial_state (cs : list (RukiE.call F Mat))
    (self : RukiE.RobotPost F Mat) (s : state F) :
  RukiE.initial_state self = Some s ->
  RukiE.initial_state (fold_left (RukiE.invoke RoboDK) cs self) = Some s.
Proof.
  revert self. induction cs as [|c cs IH]; intros self Hs; [exact Hs|].
  cbn [fold_left]. apply IH, invoke_initial_state, Hs.
Qed.

Lemma invoke_initial_state_none (self : RukiE.RobotPost F Mat) (c : RukiE.call F Mat) :
  is_ProgStart c = false ->
  RukiE.initial_state self = None ->
  RukiE.initial_state (RukiE.invoke RoboDK self c) = None.
Proof.
  intros Hc Hok. destruct c; try discriminate Hc; cbn [RukiE.invoke];
    unfold RukiE.ProgFinish, RukiE.setDO, RukiE.setAO, RukiE.waitDI,
      RukiE._get_io_ref;
    repeat match goal with
    | |- context [RukiE.io_map ?s !! ?k] => destruct (RukiE.io_map s !! k)
    | |- context [RukiE.current_subprogram ?s] =>
        destruct (RukiE.current_subprogram s) as [cur|];
        [destruct (cur =? "")%string|]
    end; cbn; try exact Hok.
Qed.

(** X3. The initial state is unset until the first [ProgStart];
    that call stores the state current at that moment, and no later
    callback, a later [ProgStart] included, replaces it. *)
Theorem initial_state_is_taken_once (cs1 cs2 : list (RukiE.call F Mat))
    (progname : string) :
  existsb is_ProgStart cs1 = false ->
  RukiE.initial_state (RukiE.run RoboDK cs1) = None
  /\ RukiE.initial_state
       (RukiE.run RoboDK (cs1 ++ RukiE.CProgStart progname :: cs2))
     = Some (RukiE.current_state (RukiE.run RoboDK cs1)).
Proof.
  intros Hno.
  assert (Hnone : RukiE.initial_state (RukiE.run RoboDK cs1) = None).
  { unfold RukiE.run.
    assert (Hi : RukiE.initial_state (RukiE.init (F:=F) (Mat:=Mat)) = None)
      by reflexivity.
    revert Hi Hno. generalize (RukiE.init (F := F) (Mat := Mat)).
    induction cs1 as [|c cs IH]; intros self Hi Hno; [exact Hi|].
    cbn [existsb] in Hno. apply orb_false_iff in Hno as [Hc Hno].
    cbn [fold_left]. apply IH; [|exact Hno].
    apply invoke_initial_state_none; assumption. }
  split; [exact Hnone|].
  unfold RukiE.run in *. rewrite fold_left_app. cbn [fold_left].
  apply fold_invoke_initial_state.
  cbn [RukiE.invoke]. unfold RukiE.ProgStart. rewrite Hnone.
  destruct (_ <? _)%nat; reflexivity.
Qed.

(** Steps refer to targets of the list *)

Lemma names_target_mono (ts : list (target F)) (t : target F) (s : step F) k :
  names_target ts s k -> names_target (ts ++ [t]) s k.
Proof.
  intros [t' [Hk Hin]]. exists t'. split; [exact Hk|].
  apply in_or_app. left. exact Hin.
Qed.

Lemma step_resolves_mono (ts : list (target F)) (t : target F) (s : step F) :
  step_resolves ts s -> step_resolves (ts ++ [t]) s.
Proof.
  intros [Hm Hc]. split.
  - intros Hty. apply names_target_mono, Hm, Hty.
  - intros Hty. destruct (Hc Hty). split; apply names_target_mono; assumption.
Qed.

Lemma add_target_resolved (self : RukiE.RobotPost F Mat) pose joints conf name :
  resolved self ->
  resolved (RukiE._add_target RoboDK self pose joints conf name).1.
Proof.
  unfold resolved. intros Hok.
  cbn [RukiE._add_target RukiE.targets RukiE.steps RukiE.set_targets fst].
  eapply List.Forall_impl; [|exact Hok]. intros s. apply step_resolves_mono.
Qed.

Lemma add_step_resolved (self : RukiE.RobotPost F Mat) ty kw :
  ty <> "MOVE_J" -> ty <> "MOVE_L" -> ty <> "MOVE_C" ->
  resolved self -> resolved (RukiE._add_step self ty kw).
Proof.
  unfold resolved. intros Hj Hl Hc Hok.
  unfold RukiE._add_step. cbn [RukiE.steps RukiE.targets RukiE.set_steps].
  apply Forall_app. split; [exact Hok|]. constructor; [|constructor].
  split; cbn [s_type]; [intros [Hty|Hty]|intros Hty]; congruence.
Qed.

Lemma get_io_ref_resolved (self : RukiE.RobotPost F Mat) io_var io_type :
  resolved self -> resolved (RukiE._get_io_ref self io_var io_type).1.
Proof.
  intros Hok. unfold RukiE._get_io_ref.
  destruct (RukiE.io_map self !! _); exact Hok.
Qed.

Lemma add_target_last (self : RukiE.RobotPost F Mat) pose joints conf name :
  let r := RukiE._add_target RoboDK self pose joints conf name in
  exists t, RukiE.targets r.1 = RukiE.targets self ++ [t] /\ t_id t = r.2
            /\ t_joints t = jwritten joints.
Proof.
  cbn zeta. unfold RukiE._add_target. cbn [fst snd RukiE.targets RukiE.set_targets].
  eexists. split; [reflexivity|]. cbn [t_id t_joints].
  rewrite joints_to_list_id. split; reflexivity.
Qed.

Lemma move_resolved (self : RukiE.RobotPost F Mat) ty pose joints conf name rest :
  ty = "MOVE_J" \/ ty = "MOVE_L" ->
  resolved self ->
  let r := RukiE._add_target RoboDK self pose joints conf name in
  resolved (RukiE._add_step r.1 ty (("target", PStr r.2) :: rest)).
Proof.
  intros Hty Hok r. unfold resolved, RukiE._add_step.
  cbn [RukiE.steps RukiE.targets RukiE.set_steps].
  apply Forall_app. split; [apply (add_target_resolved self), Hok|].
  constructor; [|constructor]. split; cbn [s_type s_fields].
  - intros _. destruct (add_target_last self pose joints conf name) as [t [Hts [Hid _]]].
    exists t. fold r in Hts, Hid. rewrite Hts, Hid. split; [reflexivity|].
    apply in_or_app. right. left. reflexivity.
  - intros Hc. destruct Hty; subst ty; discriminate.
Qed.

Lemma invoke_resolved (self : RukiE.RobotPost F Mat) (c : RukiE.call F Mat) :
  resolved self -> resolved (RukiE.invoke RoboDK self c).
Proof.
  intros Hok. destruct c; callback_cases Hok get_io_ref_resolved;
    try exact Hok;
    try (apply add_step_resolved; [discriminate..|assumption]).
  - apply (move_resolved self "MOVE_J"); [left; reflexivity|exact Hok].
  - apply (move_resolved self "MOVE_L"); [right; reflexivity|exact Hok].
  - unfold RukiE.MoveC, resolved, RukiE._add_step.
    cbn [RukiE.steps RukiE.targets RukiE.set_steps RukiE.set_protocol
         RukiE._add_target RukiE.set_targets fst snd].
    apply Forall_app. split.
    { eapply List.Forall_impl; [|exact Hok]. intros s Hs.
      do 2 apply step_resolves_mono. exact Hs. }
    constructor; [|constructor]. split; cbn [s_type s_fields].
    + intros [Hty|Hty]; discriminate.
    + intros _. split.
      * eexists. split; [|apply in_or_app; left; apply in_or_app; right; left;
                          reflexivity]. reflexivity.
      * eexists. split; [|apply in_or_app; right; left; reflexivity]. reflexivity.
Qed.

Lemma target_ids_NoDup (cs : list (RukiE.call F Mat)) :
  NoDup (map t_id (RukiE.targets (RukiE.run RoboDK cs))).
Proof.
  rewrite (run_ids_ok RoboDK cs). apply NoDup_ListNoDup.
  apply Finite.Injective_map_NoDup.
  - intros n m. apply target_id_inj.
  - apply List.seq_NoDup.
Qed.

Lemma targets_by_id_lookup (ts : list (target F)) (t : target F) :
  NoDup (map t_id ts) -> In t ts ->
  UR.targets_by_id ts !! t_id t = Some t.
Proof.
  unfold UR.targets_by_id. induction ts as [|x ts IH] using rev_ind;
    intros Hnd Hin; [destruct Hin|].
  rewrite fold_left_app. cbn [fold_left].
  rewrite map_app in Hnd. apply in_app_or in Hin as [Hin|[->|[]]].
  - assert (Hne : t_id x <> t_id t).
    { intros Heq. apply NoDup_app in Hnd as (_ & Hdis & _).
      apply (Hdis (t_id t)).
      + apply list_elem_of_In, in_map, Hin.
      + rewrite <- Heq. cbn. left. }
    rewrite lookup_insert_ne by exact Hne.
    apply IH; [|exact Hin]. apply NoDup_app in Hnd as (Hnd & _). exact Hnd.
  - apply lookup_insert_eq.
Qed.

(** X4. Every joint or linear move step of a run names,
    in its field [target], the id of a target of the run's target list, and
    the emitters' lookup by id returns exactly that target. *)
Theorem move_steps_resolve_to_their_targets (cs : list (RukiE.call F Mat))
    (s : step F) :
  In s (RukiE.steps (RukiE.run RoboDK cs)) ->
  s_type s = "MOVE_J" \/ s_type s = "MOVE_L" ->
  exists t,
    In t (RukiE.targets (RukiE.run RoboDK cs))
    /\ kw_get "target" (s_fields s) = Some (PStr (t_id t))
    /\ UR.lookup_target (UR.targets_by_id (RukiE.targets (RukiE.run RoboDK cs))) s = t.
Proof.
  intros Hin Hty.
  assert (Hall : resolved (RukiE.run RoboDK cs)).
  { apply (run_invariant resolved); [constructor|]. apply invoke_resolved. }
  unfold resolved in Hall. rewrite List.Forall_forall in Hall.
  destruct (Hall s Hin) as [Hm _]. destruct (Hm Hty) as [t [Hk Ht]].
  exists t. split; [exact Ht|]. split; [exact Hk|].
  unfold UR.lookup_target, kw_get_none. rewrite Hk. cbn [default from_option].
  unfold Datatypes.id. rewrite (targets_by_id_lookup _ t (target_ids_NoDup cs) Ht). reflexivity.
Qed.

(** Frames and tools named by the state and by the targets *)

Lemma defined_in_insert {A} (m : gmap string A) (k : string) (a : A) (v : pyval F) :
  defined_in m v -> defined_in (<[k := a]> m) v.
Proof.
  intros [k' [-> Hk]]. exists k'. split; [reflexivity|].
  rewrite lookup_insert_is_Some. destruct (decide (k = k')); auto.
Qed.

Lemma add_step_framed (self : RukiE.RobotPost F Mat) ty kw :
  ty <> "SET_FRAME" -> ty <> "SET_TOOL" ->
  framed self -> framed (RukiE._add_step self ty kw).
Proof.
  intros Hf Ht (Ha & Hb & Hc). unfold framed, RukiE._add_step.
  cbn [RukiE.frames RukiE.tools RukiE.targets RukiE.current_state RukiE.set_steps].
  destruct (String.eqb_spec ty "SET_FRAME") as [|_]; [contradiction|].
  destruct (String.eqb_spec ty "SET_TOOL") as [|_]; [contradiction|].
  destruct (ty =? "SET_SPEED")%string; [repeat split; assumption|].
  destruct (ty =? "SET_ACCEL")%string; [repeat split; assumption|].
  destruct (ty =? "SET_ROUNDING")%string; repeat split; assumption.
Qed.

Lemma add_target_framed (self : RukiE.RobotPost F Mat) pose joints conf name :
  framed self -> framed (RukiE._add_target RoboDK self pose joints conf name).1.
Proof.
  intros (Ha & Hb & Hc). unfold framed, RukiE._add_target.
  cbn [RukiE.frames RukiE.tools RukiE.targets RukiE.current_state RukiE.set_targets fst].
  split; [exact Ha|]. split; [exact Hb|].
  apply Forall_app. split; [exact Hc|]. constructor; [|constructor].
  eexists. split; [reflexivity|]. split; assumption.
Qed.

Lemma get_io_ref_framed (self : RukiE.RobotPost F Mat) io_var io_type :
  framed self -> framed (RukiE._get_io_ref self io_var io_type).1.
Proof.
  intros Hok. unfold RukiE._get_io_ref.
  destruct (RukiE.io_map self !! _); exact Hok.
Qed.

Lemma context_defined_insert_frame frames tools k (a : RukiE.frame_data F) t :
  context_defined frames tools t -> context_defined (<[k := a]> frames) tools t.
Proof.
  intros [c (Hc & Hf & Ht)]. exists c. split; [exact Hc|].
  split; [apply defined_in_insert, Hf|exact Ht].
Qed.

Lemma context_defined_insert_tool frames tools k (a : RukiE.tool_data F) t :
  context_defined frames tools t -> context_defined frames (<[k := a]> tools) t.
Proof.
  intros [c (Hc & Hf & Ht)]. exists c. split; [exact Hc|].
  split; [exact Hf|apply defined_in_insert, Ht].
Qed.

Lemma invoke_framed (self : RukiE.RobotPost F Mat) (c : RukiE.call F Mat) :
  framed self -> framed (RukiE.invoke RoboDK self c).
Proof.
  intros Hok. destruct c; callback_cases Hok get_io_ref_framed;
    try exact Hok;
    try (apply add_step_framed; [discriminate..|assumption]).
  - apply (add_step_framed _ "MOVE_J"); [discriminate..|].
    apply add_target_framed, Hok.
  - apply (add_step_framed _ "MOVE_L"); [discriminate..|].
    apply add_target_framed, Hok.
  - apply (add_step_framed _ "MOVE_C"); [discriminate..|].
    do 2 apply add_target_framed. exact Hok.
  - destruct Hok as (Ha & Hb & Hc). unfold framed, RukiE.setFrame, RukiE._add_step.
    cbn [RukiE.frames RukiE.tools RukiE.targets RukiE.current_state RukiE.set_steps
         RukiE.set_tables String.eqb Ascii.eqb Bool.eqb kw_get default from_option].
    split.
    { eexists. split; [reflexivity|]. rewrite lookup_insert_eq. eauto. }
    split; [exact Hb|].
    eapply List.Forall_impl; [|exact Hc]. intros t.
    apply context_defined_insert_frame.
  - destruct Hok as (Ha & Hb & Hc). unfold framed, RukiE.setTool, RukiE._add_step.
    cbn [RukiE.frames RukiE.tools RukiE.targets RukiE.current_state RukiE.set_steps
         RukiE.set_tables String.eqb Ascii.eqb Bool.eqb kw_get default from_option].
    split; [exact Ha|].
    split.
    { eexists. split; [reflexivity|]. rewrite lookup_insert_eq. eauto. }
    eapply List.Forall_impl; [|exact Hc]. intros t.
    apply context_defined_insert_tool.
Qed.

(** X5. Every target a run records carries a context whose
    frame and tool are keys of the frame and tool tables of the run. *)
Theorem target_context_is_defined (cs : list (RukiE.call F Mat)) (t : target F) :
  In t (RukiE.targets (RukiE.run RoboDK cs)) ->
  context_defined (RukiE.frames (RukiE.run RoboDK cs))
                  (RukiE.tools (RukiE.run RoboDK cs)) t.
Proof.
  intros Hin.
  assert (Hall : framed (RukiE.run RoboDK cs)).
  { apply (run_invariant framed); [|apply invoke_framed].
    split; [|split; [|constructor]].
    - exists "world". split; [reflexivity|].
      apply lookup_singleton_is_Some. reflexivity.
    - exists "tool0". split; [reflexivity|].
      apply lookup_singleton_is_Some. reflexivity. }
  destruct Hall as (_ & _ & Hall). rewrite List.Forall_forall in Hall.
  exact (Hall t Hin).
Qed.

Lemma io_key_kind (t1 t2 x y : string) :
  io_kind t1 -> io_kind t2 -> t1 +:+ "_" +:+ x = t2 +:+ "_" +:+ y ->
  t1 = t2 /\ x = y.
Proof.
  intros [-> | [-> | ->]] [-> | [-> | ->]] Heq; cbv [String.append] in Heq;
    try discriminate Heq; split; try reflexivity; congruence.
Qed.

Lemma get_io_ref_spec (self : RukiE.RobotPost F Mat) (v : pyval F) (ty : string) :
  io_kind ty -> io_keyed (RukiE.io_map self) ->
  let r := RukiE._get_io_ref self v ty in
  r.2 = ty +:+ "_" +:+ format_val v
  /\ io_keyed (RukiE.io_map r.1)
  /\ (forall k e, RukiE.io_map self !! k = Some e -> RukiE.io_map r.1 !! k = Some e)
  /\ (exists e, RukiE.io_map r.1 !! r.2 = Some e /\ RukiE.io_type e = ty
                /\ format_val (RukiE.io_index e) = format_val v)
  /\ RukiE.steps r.1 = RukiE.steps self.
Proof.
  intros Hty Hkeys. cbn zeta. unfold RukiE._get_io_ref.
  destruct (RukiE.io_map self !! (ty +:+ "_" +:+ format_val v)) as [e|] eqn:He;
    cbn [fst snd RukiE.io_map RukiE.steps RukiE.set_tables].
  - split; [reflexivity|]. split; [exact Hkeys|]. split; [auto|].
    split; [|reflexivity]. exists e. split; [exact He|].
    destruct (Hkeys _ _ He) as [Hk Heq].
    apply (io_key_kind _ _ _ _ Hty Hk) in Heq as [-> ->]. split; reflexivity.
  - split; [reflexivity|].
    assert (Hidx : format_val (if RukiE.is_int v then v else PStr (format_val v))
                   = format_val v).
    { destruct v as [|b|z|x|s]; try reflexivity. }
    split.
    { intros k e. rewrite lookup_insert_Some. intros [[<- <-]|[_ Hk]].
      - cbn [RukiE.io_type RukiE.io_index]. split; [exact Hty|].
        rewrite Hidx. reflexivity.
      - apply Hkeys, Hk. }
    split.
    { intros k e Hk. rewrite lookup_insert_ne; [exact Hk|]. congruence. }
    split; [|reflexivity].
    eexists. split; [apply lookup_insert_eq|]. split; [reflexivity|exact Hidx].
Qed.

Lemma io_step_registered_mono (m m' : gmap string (RukiE.io_entry F)) (s : step F) :
  (forall k e, m !! k = Some e -> m' !! k = Some e) ->
  io_step_registered m s -> io_step_registered m' s.
Proof.
  intros Hsub (r & ty & v & e & Hr & Hty & Hv & He & Hrest).
  exists r, ty, v, e. repeat split; try assumption; try apply Hrest.
  apply Hsub, He.
Qed.

Lemma add_step_io_ok (self : RukiE.RobotPost F Mat) ty kw :
  ty <> "SET_IO" -> ty <> "WAIT_IO" ->
  io_ok self -> io_ok (RukiE._add_step self ty kw).
Proof.
  intros Hs Hw [Hk Hall]. split; [exact Hk|].
  unfold RukiE._add_step. cbn [RukiE.steps RukiE.io_map RukiE.set_steps].
  apply Forall_app. split; [exact Hall|]. constructor; [|constructor].
  intros [Hty|Hty]; cbn [s_type] in Hty; congruence.
Qed.

Lemma io_call_ok (self : RukiE.RobotPost F Mat) (v : pyval F) (ty sty : string)
    (value : pyval F) (rest : list (string * pyval F)) :
  io_kind ty -> io_ok self ->
  let r := RukiE._get_io_ref self v ty in
  io_ok (RukiE._add_step r.1 sty
           ([("io_ref", PStr r.2); ("io_type", PStr ty); ("io_index", v);
             ("value", value)] ++ rest)).
Proof.
  intros Hty [Hk Hall] r.
  destruct (get_io_ref_spec self v ty Hty Hk) as (Hr & Hk' & Hsub & [e He] & Hst).
  fold r in Hr, Hk', Hsub, He, Hst.
  split; [exact Hk'|].
  unfold RukiE._add_step. cbn [RukiE.steps RukiE.io_map RukiE.set_steps].
  apply Forall_app. split.
  - rewrite Hst. eapply List.Forall_impl; [|exact Hall].
    intros s Hs Hio. eapply io_step_registered_mono; [exact Hsub|]. apply Hs, Hio.
  - constructor; [|constructor]. intros _.
    exists r.2, ty, v, e. cbn [s_fields].
    destruct He as (He & Het & Hei). repeat split; try assumption; reflexivity.
Qed.

Lemma invoke_io_ok (self : RukiE.RobotPost F Mat) (c : RukiE.call F Mat) :
  io_ok self -> io_ok (RukiE.invoke RoboDK self c).
Proof.
  intros Hok. destruct c; cbn [RukiE.invoke];
  lazymatch goal with
  | |- io_ok (RukiE.ProgStart _ _ _) =>
      unfold RukiE.ProgStart; destruct (_ <? _)%nat; exact Hok
  | |- io_ok (RukiE.ProgFinish _ _) =>
      unfold RukiE.ProgFinish; destruct (RukiE.current_subprogram self) as [cur|];
      [destruct (cur =? "")%string|]; exact Hok
  | |- io_ok (RukiE.setDO _ ?v ?x) =>
      unfold RukiE.setDO;
      pose proof (io_call_ok self v "DO" "SET_IO"
                    (if RukiE.is_int x then PBool (truthy x) else x)
                    [] (or_introl eq_refl) Hok) as Hc;
      cbn zeta in Hc; destruct (RukiE._get_io_ref self v "DO") as [self' r];
      exact Hc
  | |- io_ok (RukiE.setAO _ ?v ?x) =>
      unfold RukiE.setAO;
      pose proof (io_call_ok self v "AO" "SET_IO" (PFloat x)
                    [] (or_intror (or_introl eq_refl)) Hok) as Hc;
      cbn zeta in Hc; destruct (RukiE._get_io_ref self v "AO") as [self' r];
      exact Hc
  | |- io_ok (RukiE.waitDI _ ?v ?x ?t) =>
      unfold RukiE.waitDI;
      destruct (lit 0 0 <? t)%py;
      [ pose proof (io_call_ok self v "DI" "WAIT_IO"
                      (if RukiE.is_int x then PBool (truthy x) else x)
                      [("timeout_s", PFloat (t / lit 10000 (-1))%py)]
                      (or_intror (or_intror eq_refl)) Hok) as Hc
      | pose proof (io_call_ok self v "DI" "WAIT_IO"
                      (if RukiE.is_int x then PBool (truthy x) else x)
                      [] (or_intror (or_intror eq_refl)) Hok) as Hc ];
      cbn zeta in Hc; destruct (RukiE._get_io_ref self v "DI") as [self' r];
      exact Hc
  | |- io_ok (RukiE.MoveJ _ _ _ _ _) =>
      apply (add_step_io_ok _ "MOVE_J"); [discriminate..|exact Hok]
  | |- io_ok (RukiE.MoveL _ _ _ _ _) =>
      apply (add_step_io_ok _ "MOVE_L"); [discriminate..|exact Hok]
  | |- io_ok (RukiE.MoveC _ _ _ _ _ _ _ _) =>
      apply (add_step_io_ok _ "MOVE_C"); [discriminate..|exact Hok]
  | |- io_ok (RukiE.setFrame _ _ _ _ _) =>
      apply (add_step_io_ok _ "SET_FRAME"); [discriminate..|exact Hok]
  | |- io_ok (RukiE.setTool _ _ _ _ _) =>
      apply (add_step_io_ok _ "SET_TOOL"); [discriminate..|exact Hok]
  | |- _ => first [exact Hok | apply add_step_io_ok; [discriminate..|exact Hok]]
  end.
Qed.

(** X6. Every output or wait step of a run refers, by its field
    [io_ref], to an entry of the IO map with the same IO type and an index
    that prints like the step's index. *)
Theorem io_steps_are_registered (cs : list (RukiE.call F Mat)) (s : step F) :
  In s (RukiE.steps (RukiE.run RoboDK cs)) ->
  s_type s = "SET_IO" \/ s_type s = "WAIT_IO" ->
  io_step_registered (RukiE.io_map (RukiE.run RoboDK cs)) s.
Proof.
  intros Hin Hty.
  assert (Hall : io_ok (RukiE.run RoboDK cs)).
  { apply (run_invariant io_ok); [|apply invoke_io_ok].
    split; [|constructor]. intros k e Hk. cbn in Hk.
    rewrite lookup_empty in Hk. discriminate. }
  destruct Hall as [_ Hall]. rewrite List.Forall_forall in Hall.
  exact (Hall s Hin Hty).
Qed.

End BuilderRunFacts.


Section BuilderCallsFacts.
Context {F : Type} `{Scalar F} {Mat : Type}.
Variable RoboDK : RukiE.host F Mat.

Lemma invoke_step_types (self : RukiE.RobotPost F Mat) (c : RukiE.call F Mat) :
  map s_type (RukiE.steps (RukiE.invoke RoboDK self c))
  = map s_type (RukiE.steps self) ++ option_list (step_type_of c).
Proof.
  destruct c; cbn [RukiE.invoke step_type_of option_list];
    unfold RukiE.ProgStart, RukiE.ProgFinish, RukiE.setDO, RukiE.setAO, RukiE.waitDI,
      RukiE._get_io_ref;
    repeat match goal with
    | |- context [RukiE.io_map ?s !! ?k] => destruct (RukiE.io_map s !! k)
    | |- context [RukiE.current_subprogram ?s] =>
        destruct (RukiE.current_subprogram s) as [cur|];
        [destruct (cur =? "")%string|]
    | |- context [(?a <? ?b)%nat] => destruct (a <? b)%nat
    end;
    cbn [RukiE.steps RukiE.set_program RukiE.set_protocol];
    rewrite ?app_nil_r; try reflexivity;
    unfold RukiE.MoveJ, RukiE.MoveL, RukiE.MoveC, RukiE.setFrame, RukiE.setTool,
      RukiE.setSpeed, RukiE.setSpeedJoints, RukiE.setAcceleration,
      RukiE.setAccelerationJoints, RukiE.setZoneData, RukiE.Pause, RukiE.RunCode,
      RukiE.RunMessage, RukiE._add_step;
    cbn [RukiE.steps RukiE.set_steps RukiE.set_protocol RukiE.set_tables
         RukiE._add_target RukiE.set_targets fst snd];
    rewrite map_app; reflexivity.
Qed.

Lemma invoke_target_count (self : RukiE.RobotPost F Mat) (c : RukiE.call F Mat) :
  length (RukiE.targets (RukiE.invoke RoboDK self c))
  = length (RukiE.targets self) + targets_of c.
Proof.
  destruct c; cbn [RukiE.invoke targets_of];
    unfold RukiE.ProgStart, RukiE.ProgFinish, RukiE.setDO, RukiE.setAO, RukiE.waitDI,
      RukiE._get_io_ref;
    repeat match goal with
    | |- context [RukiE.io_map ?s !! ?k] => destruct (RukiE.io_map s !! k)
    | |- context [RukiE.current_subprogram ?s] =>
        destruct (RukiE.current_subprogram s) as [cur|];
        [destruct (cur =? "")%string|]
    | |- context [(?a <? ?b)%nat] => destruct (a <? b)%nat
    end;
    unfold RukiE.MoveJ, RukiE.MoveL, RukiE.MoveC, RukiE.setFrame, RukiE.setTool,
      RukiE.setSpeed, RukiE.setSpeedJoints, RukiE.setAcceleration,
      RukiE.setAccelerationJoints, RukiE.setZoneData, RukiE.Pause, RukiE.RunCode,
      RukiE.RunMessage, RukiE._add_step;
    cbn [RukiE.targets RukiE.set_steps RukiE.set_protocol RukiE.set_tables
         RukiE.set_program RukiE._add_target RukiE.set_targets fst snd];
    rewrite ?length_app; cbn [length]; lia.
Qed.

Lemma run_step_types (cs : list (RukiE.call F Mat)) :
  map s_type (RukiE.steps (RukiE.run RoboDK cs)) = omap step_type_of cs
  /\ length (RukiE.targets (RukiE.run RoboDK cs))
     = list_sum (map targets_of cs).
Proof.
  unfold RukiE.run.
  assert (Hgen : forall self,
    map s_type (RukiE.steps (fold_left (RukiE.invoke RoboDK) cs self))
    = map s_type (RukiE.steps self) ++ omap step_type_of cs
    /\ length (RukiE.targets (fold_left (RukiE.invoke RoboDK) cs self))
       = length (RukiE.targets self) + list_sum (map targets_of cs)).
  { induction cs as [|c cs IH]; intros self.
    - cbn. rewrite app_nil_r. split; [reflexivity|lia].
    - cbn [fold_left]. destruct (IH (RukiE.invoke RoboDK self c)) as [Hs Ht].
      rewrite Hs, Ht, invoke_step_types, invoke_target_count.
      split.
      2:{ change (list_sum (map targets_of (c :: cs)))
            with (targets_of c + list_sum (map targets_of cs)). lia. }
      rewrite <- app_assoc. f_equal.
      cbn [omap list_omap]. destruct (step_type_of c); reflexivity. }
  destruct (Hgen RukiE.init) as [Hs Ht]. split; [exact Hs|exact Ht].
Qed.

Lemma run_length_steps (cs : list (RukiE.call F Mat)) :
  length (RukiE.steps (RukiE.run RoboDK cs))
  = RukiE.instruction_index (RukiE.run RoboDK cs).
Proof.
  assert (Hok : indices_ok (RukiE.run RoboDK cs)).
  { apply fold_invoke_indices_ok. reflexivity. }
  unfold indices_ok in Hok.
  rewrite <- (length_map s_index), Hok, length_seq. reflexivity.
Qed.

(** X7. The step types of a run are, in order, the types of
    the callbacks that record a step, and the number of targets is one per
    joint or linear move plus two per circular move. *)
Theorem steps_record_the_callbacks (cs : list (RukiE.call F Mat)) :
  map s_type (RukiE.steps (RukiE.run RoboDK cs)) = omap step_type_of cs
  /\ length (RukiE.targets (RukiE.run RoboDK cs)) = list_sum (map targets_of cs).
Proof. exact (run_step_types cs). Qed.

End BuilderCallsFacts.

Section BuilderProgramsFacts.
Context {F : Type} `{Scalar F} {Mat : Type}.
Variable RoboDK : RukiE.host F Mat.

Lemma count_steps_types (wanted : list string) (ss : list (step F)) :
  RukiE.count_steps wanted ss = count_types wanted (map s_type ss).
Proof.
  unfold RukiE.count_steps, count_types. induction ss as [|s ss IH]; [reflexivity|].
  cbn [List.filter map]. destruct (existsb _ wanted); cbn [length]; rewrite IH;
    reflexivity.
Qed.

Lemma count_types_cons (wanted : list string) (ty : string) (tys : list string) :
  count_types wanted (ty :: tys)
  = (if existsb (String.eqb ty) wanted then 1 else 0) + count_types wanted tys.
Proof.
  unfold count_types. cbn [List.filter]. destruct (existsb _ wanted); reflexivity.
Qed.

Lemma targets_by_moves (cs : list (RukiE.call F Mat)) :
  list_sum (map targets_of cs)
  = count_types ["MOVE_J"] (omap step_type_of cs)
    + count_types ["MOVE_L"] (omap step_type_of cs)
    + 2 * count_types ["MOVE_C"] (omap step_type_of cs).
Proof.
  induction cs as [|c cs IH]; [reflexivity|].
  change (list_sum (map targets_of (c :: cs)))
    with (targets_of c + list_sum (map targets_of cs)).
  rewrite IH. cbn [omap list_omap].
  destruct c; cbn [step_type_of targets_of]; rewrite ?count_types_cons;
    cbn [existsb String.eqb Ascii.eqb Bool.eqb orb andb]; lia.
Qed.

Lemma steps_within_total (wanted : list string) (tys : list string) :
  count_types wanted tys <= length tys.
Proof. unfold count_types. apply List.filter_length_le. Qed.

(** X8. In the statistics block of the saved document the
    step total is the instruction index, the target total is the target
    counter and equals the joint moves plus the linear moves plus twice the
    circular moves, and the step total counts the callbacks that record a
    step. *)
Theorem saved_statistics_are_consistent (cs : list (RukiE.call F Mat)) :
  let self := RukiE.run RoboDK cs in
  let st := RukiE.rd_statistics (RukiE.build_ruki_data self) in
  RukiE.total_steps st = RukiE.instruction_index self
  /\ RukiE.total_targets st = RukiE.target_counter self
  /\ RukiE.total_targets st
     = RukiE.move_j_count st + RukiE.move_l_count st + 2 * RukiE.move_c_count st
  /\ RukiE.total_steps st = length (omap step_type_of cs).
Proof.
  cbn zeta. cbn [RukiE.build_ruki_data RukiE.rd_statistics RukiE.total_steps
                 RukiE.total_targets RukiE.move_j_count RukiE.move_l_count
                 RukiE.move_c_count].
  destruct (run_step_types RoboDK cs) as [Hs Ht].
  split.
  { apply run_length_steps. }
  split.
  { pose proof (run_ids_ok RoboDK cs) as Hid. unfold ids_ok in Hid.
    rewrite <- (length_map t_id), Hid, length_map, length_seq. reflexivity. }
  split.
  { rewrite !count_steps_types, Hs, Ht. apply targets_by_moves. }
  rewrite <- (length_map s_type), Hs. reflexivity.
Qed.

End BuilderProgramsFacts.

Section BuilderNamesFacts.
Context {F : Type} `{Scalar F} {Mat : Type}.
Variable RoboDK : RukiE.host F Mat.

Lemma last_snoc {A} (l : list A) (x d : A) : List.last (l ++ [x]) d = x.
Proof. apply List.last_last. Qed.

Lemma invoke_named (self : RukiE.RobotPost F Mat) (c : RukiE.call F Mat)
    (names : list string) :
  named RoboDK self names ->
  named RoboDK (RukiE.invoke RoboDK self c)
        (names ++ match c with RukiE.CProgStart n => [n] | _ => [] end).
Proof.
  intros (Hns & Hn & Hd). destruct c; cbn [RukiE.invoke];
    rewrite ?app_nil_r;
    unfold RukiE.ProgFinish, RukiE.setDO, RukiE.setAO, RukiE.waitDI,
      RukiE._get_io_ref;
    repeat match goal with
    | |- context [RukiE.io_map ?s !! ?k] => destruct (RukiE.io_map s !! k)
    | |- context [RukiE.current_subprogram ?s] =>
        destruct (RukiE.current_subprogram s) as [cur|];
        [destruct (cur =? "")%string|]
    end;
    try (split; [exact Hns|split; [exact Hn|exact Hd]]).
  - (* ProgStart *)
    unfold named, RukiE.ProgStart. rewrite Hns, map_app, length_app, length_map.
    cbn [map length].
    destruct names as [|n0 names].
    + cbn. split; [reflexivity|]. split; [reflexivity|]. exact Hd.
    + replace (1 <? length (n0 :: names) + 1)%nat with true
        by (symmetry; apply Nat.ltb_lt; cbn; lia).
      cbn [RukiE.PROG_NAMES RukiE.PROG_NAME RukiE.subprograms RukiE.set_program].
      split; [reflexivity|]. split; [rewrite last_snoc; reflexivity|].
      rewrite dom_insert_L, Hd. cbn [map tl app].
      rewrite list_to_set_app_L. cbn [list_to_set].
      rewrite (right_id_L ∅ (∪)). apply (comm_L (∪)).
  - (* ProgFinish with a current subprogram *)
    unfold named. cbn [RukiE.PROG_NAMES RukiE.PROG_NAME RukiE.subprograms
                        RukiE.set_program].
    split; [exact Hns|]. split; [exact Hn|].
    rewrite <- Hd. apply dom_alter_L.
Qed.

Lemma run_named (cs : list (RukiE.call F Mat)) :
  named RoboDK (RukiE.run RoboDK cs) (started cs).
Proof.
  unfold RukiE.run.
  assert (Hgen : forall self names, named RoboDK self names ->
            named RoboDK (fold_left (RukiE.invoke RoboDK) cs self) (names ++ started cs)).
  { induction cs as [|c cs IH]; intros self names Hn.
    - cbn. rewrite app_nil_r. exact Hn.
    - cbn [fold_left]. apply (invoke_named _ c) in Hn. apply IH in Hn.
      rewrite <- app_assoc in Hn. unfold started. cbn [omap list_omap].
      destruct c; exact Hn. }
  apply (Hgen RukiE.init []). split; [reflexivity|]. split; [reflexivity|].
  cbn. apply dom_empty_L.
Qed.

(** X9. Without a dialog [ProgSave] writes to the folder,
    under the filtered name of the last program started and not under its
    own argument; the document names that program, the first program
    started is the main one and all later ones are the subprograms. *)
Theorem saved_file_is_named_after_last_program (cs : list (RukiE.call F Mat))
    (folder progname : string) :
  let names := map (RukiE.filter_name RoboDK) (started cs) in
  exists doc,
    RukiE.ProgSave (RukiE.run RoboDK cs) folder progname false None
    = Some (folder +:+ "/" +:+ List.last names "" +:+ ".ruki", doc)
    /\ RukiE.rd_program_name doc = List.last names ""
    /\ RukiE.rd_main doc = hd "" names
    /\ RukiE.rd_subprograms doc = list_to_set (tl names).
Proof.
  cbn zeta. destruct (run_named cs) as (Hns & Hn & Hd).
  eexists. unfold RukiE.ProgSave. split; [rewrite Hn; reflexivity|].
  cbn [RukiE.build_ruki_data RukiE.rd_program_name RukiE.rd_main RukiE.rd_subprograms].
  split; [exact Hn|]. split; [|exact Hd].
  rewrite Hns, Hn. destruct (map _ (started cs)); reflexivity.
Qed.

End BuilderNamesFacts.

Section BuilderSubprogramsFacts.
Context {F : Type} `{Scalar F} {Mat : Type}.
Variable RoboDK : RukiE.host F Mat.

Lemma invoke_in_body (self : RukiE.RobotPost F Mat) (c : RukiE.call F Mat) :
  in_body c = true ->
  RukiE.subprograms (RukiE.invoke RoboDK self c) = RukiE.subprograms self
  /\ RukiE.current_subprogram (RukiE.invoke RoboDK self c)
     = RukiE.current_subprogram self
  /\ RukiE.instruction_index (RukiE.invoke RoboDK self c)
     = RukiE.instruction_index self + length (option_list (step_type_of c)).
Proof.
  intros Hb. destruct c; try discriminate Hb; cbn [RukiE.invoke step_type_of
    option_list length];
    unfold RukiE.setDO, RukiE.setAO, RukiE.waitDI, RukiE._get_io_ref;
    repeat match goal with
    | |- context [RukiE.io_map ?s !! ?k] => destruct (RukiE.io_map s !! k)
    end;
    cbn; repeat split; try reflexivity; lia.
Qed.

Lemma fold_in_body (body : list (RukiE.call F Mat)) (self : RukiE.RobotPost F Mat) :
  forallb in_body body = true ->
  let self' := fold_left (RukiE.invoke RoboDK) body self in
  RukiE.subprograms self' = RukiE.subprograms self
  /\ RukiE.current_subprogram self' = RukiE.current_subprogram self
  /\ RukiE.instruction_index self'
     = RukiE.instruction_index self + length (omap step_type_of body).
Proof.
  revert self. induction body as [|c body IH]; intros self Hb.
  - cbn. repeat split; try reflexivity. lia.
  - cbn [forallb] in Hb. apply andb_true_iff in Hb as [Hc Hb].
    cbn [fold_left]. cbn zeta.
    destruct (IH (RukiE.invoke RoboDK self c) Hb) as (Hs & Hcur & Hi).
    destruct (invoke_in_body self c Hc) as (Hs' & Hcur' & Hi').
    rewrite Hs, Hcur, Hi, Hs', Hcur', Hi'. repeat split; try reflexivity.
    assert (Hlen : length (omap step_type_of (c :: body))
                   = length (option_list (step_type_of c))
                     + length (omap step_type_of body)).
    { cbn [omap list_omap]. destruct (step_type_of c); reflexivity. }
    rewrite Hlen. lia.
Qed.

Lemma run_indices (cs : list (RukiE.call F Mat)) :
  map s_index (RukiE.steps (RukiE.run RoboDK cs))
  = seq 1 (RukiE.instruction_index (RukiE.run RoboDK cs)).
Proof. apply (fold_invoke_indices_ok RoboDK cs). reflexivity. Qed.

(** X10. A program with a non-empty name started after the main one, whose body
    neither starts nor finishes a program, is stored as a subprogram whose
    first and last step indices bracket exactly the steps its body recorded;
    its [ProgFinish] closes it whatever name it is given. *)
Theorem subprogram_brackets_its_steps (cs body : list (RukiE.call F Mat))
    (n m : string) :
  started cs <> [] ->
  RukiE.filter_name RoboDK n <> "" ->
  forallb in_body body = true ->
  let before := RukiE.run RoboDK cs in
  let after :=
    RukiE.run RoboDK (cs ++ RukiE.CProgStart n :: body ++ [RukiE.CProgFinish m]) in
  let first := S (RukiE.instruction_index before) in
  let count := length (omap step_type_of body) in
  RukiE.subprograms after !! RukiE.filter_name RoboDK n
  = Some {| RukiE.start_step := first;
            RukiE.end_step := Some (RukiE.instruction_index before + count) |}
  /\ RukiE.current_subprogram after = None
  /\ map s_index (drop (length (RukiE.steps before)) (RukiE.steps after))
     = seq first count.
Proof.
  intros Hstarted Hname Hbody. cbn zeta.
  pose proof (run_indices (cs ++ RukiE.CProgStart n :: body ++ [RukiE.CProgFinish m]))
    as Hidx.
  pose proof (run_length_steps RoboDK cs) as Hlen.
  unfold RukiE.run in *. rewrite fold_left_app in *. cbn [fold_left] in *.
  rewrite fold_left_app in *. cbn [fold_left] in *.
  set (self0 := fold_left (RukiE.invoke RoboDK) cs RukiE.init) in *.
  set (self1 := RukiE.invoke RoboDK self0 (RukiE.CProgStart n)) in *.
  destruct (fold_in_body body self1 Hbody) as (Hs & Hcur & Hi).
  set (self2 := fold_left (RukiE.invoke RoboDK) body self1) in *.
  destruct (run_named RoboDK cs) as (Hns & _ & _).
  unfold RukiE.run in Hns. fold self0 in Hns.
  assert (Hlong : (1 <? length (RukiE.PROG_NAMES self0
                                 ++ [RukiE.filter_name RoboDK n]))%nat = true).
  { apply Nat.ltb_lt. rewrite length_app, Hns, length_map. cbn [length].
    destruct (started cs); [contradiction|]. cbn [length]. lia. }
  assert (H1 : RukiE.subprograms self1
               = <[RukiE.filter_name RoboDK n :=
                     {| RukiE.start_step := S (RukiE.instruction_index self0);
                        RukiE.end_step := None |}]> (RukiE.subprograms self0)
               /\ RukiE.current_subprogram self1 = Some (RukiE.filter_name RoboDK n)
               /\ RukiE.instruction_index self1 = RukiE.instruction_index self0).
  { unfold self1. cbn [RukiE.invoke]. unfold RukiE.ProgStart. rewrite Hlong.
    repeat split; reflexivity. }
  destruct H1 as (Hs1 & Hc1 & Hi1).
  assert (Hfin : RukiE.invoke RoboDK self2 (RukiE.CProgFinish m)
                 = RukiE.set_program self2 (RukiE.PROG_NAME self2)
                     (RukiE.PROG_NAMES self2) (RukiE.initial_state self2)
                     (alter (fun sp => {| RukiE.start_step := RukiE.start_step sp;
                                          RukiE.end_step :=
                                            Some (RukiE.instruction_index self2) |})
                            (RukiE.filter_name RoboDK n) (RukiE.subprograms self2))
                     None).
  { cbn [RukiE.invoke]. unfold RukiE.ProgFinish. rewrite Hcur, Hc1.
    destruct (String.eqb_spec (RukiE.filter_name RoboDK n) ""); [contradiction|].
    reflexivity. }
  rewrite Hfin in *.
  cbn [RukiE.subprograms RukiE.current_subprogram RukiE.steps RukiE.instruction_index
       RukiE.set_program] in *.
  split.
  { rewrite Hs, Hs1, lookup_alter_eq, lookup_insert_eq. cbn.
    rewrite Hi, Hi1. reflexivity. }
  split; [reflexivity|].
  rewrite <- skipn_map, Hidx, Hlen, Hi, Hi1.
  rewrite seq_app, drop_app_length'; [reflexivity|].
  rewrite length_seq. reflexivity.
Qed.

End BuilderSubprogramsFacts.

Section BuilderTargetNames.
Context {F : Type} `{Scalar F} {Mat : Type}.
Variable RoboDK : RukiE.host F Mat.

(** X11. A target name announced by the host names the target of
    the next move only: the move after it gets the generated name again,
    and the announced name is cleared. *)
Theorem target_name_is_used_once (cs : list (RukiE.call F Mat)) (n : string)
    (pose pose' : option Mat) (joints joints' : option (list F))
    (conf conf' : option (list Z)) :
  n <> "" ->
  let before := RukiE.run RoboDK cs in
  let after :=
    RukiE.run RoboDK (cs ++ [RukiE.CTargetName (Some n);
                             RukiE.CMoveJ pose joints conf;
                             RukiE.CMoveL pose' joints' conf']) in
  map t_name (drop (length (RukiE.targets before)) (RukiE.targets after))
  = [n; "Target_" +:+ str_nat (RukiE.target_counter before + 2)]
  /\ RukiE._TargetName after = None.
Proof.
  intros Hn. cbn zeta. unfold RukiE.run. rewrite fold_left_app.
  set (self := fold_left (RukiE.invoke RoboDK) cs RukiE.init).
  cbn [fold_left RukiE.invoke]. unfold RukiE.MoveJ, RukiE.MoveL, RukiE._add_step.
  cbn [RukiE._add_target RukiE.set_targets RukiE.set_steps RukiE.set_protocol
       RukiE.targets RukiE._TargetName RukiE.target_counter fst snd].
  split; [|reflexivity].
  rewrite <- !app_assoc, drop_app_length. cbn [map app t_name].
  destruct (String.eqb_spec n ""); [contradiction|].
  replace (S (S (RukiE.target_counter self))) with (RukiE.target_counter self + 2)
    by lia.
  reflexivity.
Qed.

End BuilderTargetNames.

Section FilterNameFacts.

Lemma filter_chars_length (s : string) :
  String.length (RukiE.filter_chars s) = String.length s.
Proof. induction s as [|c s IH]; [reflexivity|]. cbn. rewrite IH. reflexivity. Qed.

Lemma name_char_underscore : name_char "_" = true.
Proof. reflexivity. Qed.

Lemma filter_chars_valid (s : string) :
  forallb name_char (list_ascii_of_string (RukiE.filter_chars s)) = true.
Proof.
  induction s as [|c s IH]; [reflexivity|].
  cbn [RukiE.filter_chars list_ascii_of_string forallb]. rewrite IH, andb_true_r.
  fold (name_char c). destruct (name_char c) eqn:Hc; [exact Hc|reflexivity].
Qed.

Lemma filter_chars_fixed (s : string) :
  forallb name_char (list_ascii_of_string s) = true -> RukiE.filter_chars s = s.
Proof.
  induction s as [|c s IH]; [reflexivity|].
  cbn [RukiE.filter_chars list_ascii_of_string forallb].
  intros Hs. apply andb_true_iff in Hs as [Hc Hs]. rewrite (IH Hs).
  fold (name_char c). rewrite Hc. reflexivity.
Qed.

(** X12. On a name of ASCII characters (where a string of bytes and
    a Python string agree) the fallback of [filter_name] keeps the length,
    returns only letters, digits, underscores and hyphens, leaves a name of
    such characters unchanged, and is idempotent. *)
Theorem filter_name_fallback (s : string) :
  forallb is_ascii (list_ascii_of_string s) = true ->
  String.length (RukiE.filter_chars s) = String.length s
  /\ forallb name_char (list_ascii_of_string (RukiE.filter_chars s)) = true
  /\ RukiE.filter_chars (RukiE.filter_chars s) = RukiE.filter_chars s
  /\ (forallb name_char (list_ascii_of_string s) = true -> RukiE.filter_chars s = s).
Proof.
  intros _. split; [apply filter_chars_length|]. split; [apply filter_chars_valid|].
  split; [apply filter_chars_fixed, filter_chars_valid|apply filter_chars_fixed].
Qed.

End FilterNameFacts.

Section RodriguesFacts.
Open Scope R_scope.

Ltac exact_arith :=
  cbn [fadd fsub fmul fdiv fneg fabs math_pi math_sqrt math_acos math_sin
       math_cos Exact.R_scalar].

Lemma identity_is_rotation : is_rotation [[1; 0; 0]; [0; 1; 0]; [0; 0; 1]].
Proof.
  unfold is_rotation, row_dot, det3, at_. cbn [nth length].
  split; [reflexivity|]. split; [repeat constructor|].
  repeat split; lra.
Qed.

Lemma rodrigues_matrix_is_rotation (kx ky kz c s : R) :
  kx * kx + ky * ky + kz * kz = 1 -> c * c + s * s = 1 ->
  let v := 1 - c in
  is_rotation
    [ [kx * kx * v + c; kx * ky * v - kz * s; kx * kz * v + ky * s];
      [kx * ky * v + kz * s; ky * ky * v + c; ky * kz * v - kx * s];
      [kx * kz * v - ky * s; ky * kz * v + kx * s; kz * kz * v + c] ].
Proof.
  intros Hk Hcs v. unfold is_rotation, row_dot, det3, at_. cbn [nth length].
  split; [reflexivity|]. split; [repeat constructor|].
  unfold v. repeat split; nsatz.
Qed.

End RodriguesFacts.

Section RodriguesTheorems.
Open Scope R_scope.

Lemma sum_sq_nonneg (x y z : R) : 0 <= x * x + y * y + z * z.
Proof. nra. Qed.

Lemma unit_axis (rx ry rz theta : R) :
  rx * rx + ry * ry + rz * rz = theta * theta -> 0 < theta ->
  rx / theta * (rx / theta) + ry / theta * (ry / theta) + rz / theta * (rz / theta) = 1.
Proof.
  intros Hsum Hth.
  transitivity ((rx * rx + ry * ry + rz * rz) / (theta * theta)); [field; lra|].
  rewrite Hsum. field. lra.
Qed.

(** X13. For every rotation vector, the matrix the emitted helper
    [ur_pose_to_robodk] computes is a rotation matrix: orthonormal rows and
    determinant 1, over the exact reals. *)
Theorem rodrigues_gives_a_rotation (rx ry rz : R) :
  is_rotation (UR.ur_pose_to_robodk_R rx ry rz).
Proof.
  set (theta := sqrt (rx * rx + ry * ry + rz * rz)).
  assert (Hsum : rx * rx + ry * ry + rz * rz = theta * theta).
  { unfold theta. rewrite sqrt_sqrt; [reflexivity|apply sum_sq_nonneg]. }
  destruct (Rlt_dec theta 1e-10) as [Hsmall|Hbig].
  - unfold UR.ur_pose_to_robodk_R.
    cbn [fadd fsub fmul fdiv fneg fabs math_pi math_sqrt math_acos math_sin
         math_cos Exact.R_scalar].
    fold theta. rewrite lit_1em10, fltb_dec.
    destruct (Rlt_dec theta 1e-10); [|contradiction].
    rewrite !lit_int. apply identity_is_rotation.
  - apply Rnot_lt_le in Hbig.
    rewrite (rodrigues_general rx ry rz theta Hsum Hbig). cbn zeta.
    apply rodrigues_matrix_is_rotation.
    + apply unit_axis; [exact Hsum|lra].
    + pose proof (sin2_cos2 theta) as Hsc. unfold Rsqr in Hsc. lra.
Qed.

(** X14. Reading back a written rotation: for a rotation vector of length
    between 0.001 and 3, away from both ends of the range of angles,
    [rotation_vector] applied to the matrix of [ur_pose_to_robodk] returns
    that vector, over the exact reals. *)
Theorem rotation_vector_of_rodrigues (rx ry rz : R) :
  let theta := sqrt (rx * rx + ry * ry + rz * rz) in
  1e-3 <= theta <= 3 ->
  UR.rotation_vector (UR.ur_pose_to_robodk_R rx ry rz) = Ok [rx; ry; rz].
Proof.
  intros theta [Hlo3 Hhi3].
  assert (Hlo : 1e-10 <= theta) by lra.
  assert (Hhi : theta <= PI - 1e-10) by (pose proof PI_gt_31; lra).
  clear Hlo3 Hhi3.
  assert (Hsum : rx * rx + ry * ry + rz * rz = theta * theta).
  { unfold theta. rewrite sqrt_sqrt; [reflexivity|apply sum_sq_nonneg]. }
  rewrite (rodrigues_general rx ry rz theta Hsum Hlo). cbn zeta.
  set (kx := rx / theta). set (ky := ry / theta). set (kz := rz / theta).
  assert (Hk : kx * kx + ky * ky + kz * kz = 1)
    by (apply unit_axis; [exact Hsum|lra]).
  pose proof (COS_bound theta) as [Hc1 Hc2].
  assert (Hs : 0 < sin theta) by (apply sin_gt_0; lra).
  set (c := cos theta) in *. set (s := sin theta) in *.
  assert (Ha : -1 <= kx * kx * (1 - c) + c) by nra.
  assert (He : -1 <= ky * ky * (1 - c) + c) by nra.
  assert (Hi : -1 <= kz * kz * (1 - c) + c) by nra.
  rewrite rotation_vector_3x3 by assumption.
  unfold spec_rotation_vector, rotation_angle, at_. cbn [nth].
  replace ((kx * kx * (1 - c) + c + (ky * ky * (1 - c) + c)
            + (kz * kz * (1 - c) + c) - 1) / 2) with c by nra.
  rewrite clamp1_id by lra. unfold c. rewrite acos_cos by lra. fold c.
  destruct (Rlt_dec (Rabs theta) 1e-10) as [H0|_].
  { rewrite Rabs_pos_eq in H0; lra. }
  destruct (Rlt_dec (Rabs (theta - PI)) 1e-10) as [H1|_].
  { rewrite Rabs_left1 in H1; lra. }
  cbn zeta. fold s. unfold kx, ky, kz.
  f_equal. repeat f_equal; field; lra.
Qed.

End RodriguesTheorems.

Section RotationVectorNorm.
Open Scope R_scope.

(** X15. For a rotation matrix whose angle lies between 0.001 and 3, away
    from both ends of the range of angles, [rotation_vector] returns three
    values whose Euclidean length is the rotation angle, over the exact
    reals. *)
Theorem rotation_vector_length_is_the_angle (m : list (list R)) :
  is_rotation m ->
  1e-3 <= rotation_angle m <= 3 ->
  exists rx ry rz,
    UR.rotation_vector m = Ok [rx; ry; rz]
    /\ sqrt (rx * rx + ry * ry + rz * rz) = rotation_angle m.
Proof.
  intros Hrot [Hlo3 Hhi3].
  assert (Hzero : ~ Rabs (rotation_angle m) < 1e-10)
    by (rewrite Rabs_pos_eq; lra).
  assert (Hpi : ~ Rabs (rotation_angle m - PI) < 1e-10)
    by (pose proof PI_gt_31; rewrite Rabs_left1; lra).
  clear Hlo3 Hhi3.
  pose proof Hrot as (Hlen & Hrows & _).
  destruct m as [|r0 [|r1 [|r2 [|r3 m]]]]; try discriminate Hlen.
  apply Forall_cons in Hrows as [L0 Hrows]. apply Forall_cons in Hrows as [L1 Hrows].
  apply Forall_cons in Hrows as [L2 _].
  destruct r0 as [|a [|b [|c [|? ?]]]]; try discriminate L0.
  destruct r1 as [|d [|e [|f [|? ?]]]]; try discriminate L1.
  destruct r2 as [|g [|h [|i [|? ?]]]]; try discriminate L2.
  destruct Hrot as (_ & _ & r00 & r11 & r22 & r01 & r02 & r12 & Hdet).
  unfold row_dot, det3, at_ in r00, r11, r22, r01, r02, r12, Hdet.
  cbn [nth] in r00, r11, r22, r01, r02, r12, Hdet.
  set (cc := (a + e + i - 1) / 2).
  assert (Hcc : 2 * cc = a + e + i - 1) by (unfold cc; field).
  pose proof (cos_angle_bounds a b c d e f g h i r00 r11 r22 r01 r02 r12 Hdet cc Hcc)
    as Hb.
  pose proof (diag_bounds a b c d e f g h i r00 r11 r22) as (Ha & He & Hi).
  assert (Hangle : rotation_angle [[a; b; c]; [d; e; f]; [g; h; i]] = acos cc).
  { unfold rotation_angle, at_. cbn [nth]. fold cc. rewrite clamp1_id by exact Hb.
    reflexivity. }
  rewrite Hangle in Hzero, Hpi |- *. set (theta := acos cc) in *.
  pose proof (acos_bound cc) as Hth. fold theta in Hth.
  assert (Hlo : 1e-10 <= theta).
  { apply Rnot_lt_le in Hzero. rewrite Rabs_pos_eq in Hzero; lra. }
  assert (Hhi : theta <= PI - 1e-10).
  { apply Rnot_lt_le in Hpi. rewrite Rabs_left1 in Hpi; lra. }
  assert (Hs : 0 < sin theta) by (apply sin_gt_0; lra).
  assert (Hc : cos theta = cc) by (apply cos_acos, Hb).
  assert (Hs2 : sin theta * sin theta = 1 - cc * cc).
  { pose proof (sin2_cos2 theta) as Hsc. unfold Rsqr in Hsc. rewrite Hc in Hsc. lra. }
  rewrite rotation_vector_3x3 by lra.
  unfold spec_rotation_vector. rewrite Hangle. fold theta.
  destruct (Rlt_dec (Rabs theta) 1e-10); [contradiction|].
  destruct (Rlt_dec (Rabs (theta - PI)) 1e-10); [contradiction|].
  cbn zeta. unfold at_. cbn [nth].
  set (k := theta / (2 * sin theta)).
  assert (Hk : k * (2 * sin theta) = theta) by (unfold k; field; lra).
  do 3 eexists. split; [reflexivity|].
  pose proof (antisym_norm a b c d e f g h i r00 r11 r22 r01 r02 r12 Hdet cc Hcc)
    as Hn.
  replace (k * (h - f) * (k * (h - f)) + k * (c - g) * (k * (c - g))
           + k * (d - b) * (k * (d - b))) with (theta * theta).
  - apply sqrt_square. lra.
  - replace (theta * theta) with (k * (2 * sin theta) * (k * (2 * sin theta)))
      by (rewrite Hk; reflexivity).
    transitivity (k * k * ((h - f) * (h - f) + (c - g) * (c - g) + (d - b) * (d - b)));
      [|ring].
    rewrite Hn, <- Hs2. ring.
Qed.

End RotationVectorNorm.

Section PoseBranchesFacts.
Context {F : Type} `{Scalar F}.

Lemma rotation_vector_length (R : list (list F)) (r : list F) :
  UR.rotation_vector R = Ok r -> length r = 3.
Proof.
  unfold UR.rotation_vector.
  repeat match goal with
  | |- context [mbind _ (UR.entry ?m ?i ?j)] =>
      destruct (UR.entry m i j); cbn [mbind result_bind Py.bind]; [|discriminate]
  | |- context [mbind _ (UR.py_sqrt ?x)] =>
      destruct (UR.py_sqrt x); cbn [mbind result_bind Py.bind]; [|discriminate]
  | |- context [if ?b then _ else _] => destruct b
  end; intros Hr; injection Hr as <-; reflexivity.
Qed.

(** X16. Whenever [get_cartesian_pose] returns a pose, from the
    matrix or from the pose list, it has exactly six values. *)
Theorem cartesian_pose_has_six_values (t : target F) (l : list F) :
  UR.get_cartesian_pose t = Ok (Some l) -> length l = 6.
Proof.
  unfold UR.get_cartesian_pose.
  assert (Hpose : forall r,
    match jget (t_pose t) with
    | Some p =>
        if (6 <=? length p)%nat then
          p0 ← item p 0; p1 ← item p 1; p2 ← item p 2;
          p3 ← item p 3; p4 ← item p 4; p5 ← item p 5;
          Ok (Some [(p0 / lit 1000 0)%py; (p1 / lit 1000 0)%py; (p2 / lit 1000 0)%py;
                    UR.deg2rad p3; UR.deg2rad p4; UR.deg2rad p5])
        else Ok None
    | None => Ok None
    end = Ok (Some r) -> length r = 6).
  { intros r. destruct (jget (t_pose t)) as [p|]; [|discriminate].
    destruct (6 <=? length p)%nat; [|discriminate].
    repeat match goal with
    | |- context [mbind _ (item ?l ?i)] =>
        destruct (item l i); cbn [mbind result_bind Py.bind]; [|discriminate]
    end. intros Hr. injection Hr as <-. reflexivity. }
  destruct (jget (t_pose_matrix t)) as [m|]; [|apply Hpose].
  destruct (UR.nonempty m && (length m =? 4)%nat); [|apply Hpose].
  repeat match goal with
  | |- context [mbind _ (UR.entry ?m ?i ?j)] =>
      destruct (UR.entry m i j); cbn [mbind result_bind Py.bind]; [|discriminate]
  end.
  destruct (mapM _ (seq 0 3)) as [R|]; cbn [mbind result_bind Py.bind]; [|discriminate].
  destruct (UR.rotation_vector R) as [r|] eqn:Hr; cbn [mbind result_bind Py.bind];
    [|discriminate].
  intros Hl. injection Hl as <-. cbn [app length].
  rewrite (rotation_vector_length R r Hr). reflexivity.
Qed.

(** X17. For a target without a matrix of four rows
    [get_cartesian_pose] never raises: it converts the first six values of
    the pose list to metres and radians, and returns nothing when the pose
    is missing or shorter than six values. *)
Theorem cartesian_pose_falls_back_to_pose (t : target F) :
  no_usable_matrix t ->
  UR.get_cartesian_pose t = Ok (p ← jget (t_pose t); ur_pose_of p).
Proof.
  unfold no_usable_matrix, UR.get_cartesian_pose. intros Hm.
  assert (Hpose :
    match jget (t_pose t) with
    | Some p =>
        if (6 <=? length p)%nat then
          p0 ← item p 0; p1 ← item p 1; p2 ← item p 2;
          p3 ← item p 3; p4 ← item p 4; p5 ← item p 5;
          Ok (Some [(p0 / lit 1000 0)%py; (p1 / lit 1000 0)%py; (p2 / lit 1000 0)%py;
                    UR.deg2rad p3; UR.deg2rad p4; UR.deg2rad p5])
        else Ok None
    | None => Ok None
    end = Ok (p ← jget (t_pose t); ur_pose_of p)).
  { destruct (jget (t_pose t)) as [p|]; [|reflexivity].
    destruct p as [|p0 [|p1 [|p2 [|p3 [|p4 [|p5 p]]]]]]; reflexivity. }
  destruct (t_pose_matrix t) as [| |m]; cbn [jget]; try exact Hpose.
  destruct (Nat.eqb_spec (length m) 4) as [Heq|_]; [contradiction|].
  rewrite andb_false_r. exact Hpose.
Qed.

(** X18. A matrix of four rows one of whose first three rows has
    fewer than four entries makes [get_cartesian_pose] raise IndexError
    instead of falling back to the pose list. *)
Theorem short_matrix_row_raises (t : target F) (m : list (list F)) (i : nat)
    (row : list F) :
  t_pose_matrix t = Val m -> length m = 4 ->
  (i < 3)%nat -> nth_error m i = Some row -> (length row < 4)%nat ->
  UR.get_cartesian_pose t = Raise IndexError.
Proof.
  intros Hm Hlen Hi Hrow Hshort. unfold UR.get_cartesian_pose. rewrite Hm.
  cbn [jget].
  destruct m as [|r0 [|r1 [|r2 [|r3 [|? ?]]]]]; try discriminate Hlen.
  cbn [UR.nonempty length Nat.eqb andb].
  assert (Hitem : forall r : list F, (length r < 4)%nat -> item r 3 = Raise IndexError).
  { intros r Hr. unfold item.
    destruct (nth_error r 3) eqn:Hn; [|reflexivity].
    assert (Hsome : nth_error r 3 <> None) by congruence.
    apply nth_error_Some in Hsome. lia. }
  assert (Hok : forall r : list F, ~ (length r < 4)%nat -> exists x, item r 3 = Ok x).
  { intros r Hr. unfold item. destruct (nth_error r 3) eqn:Hn; [eauto|].
    apply nth_error_None in Hn. lia. }
  unfold UR.entry.
  change (item [r0; r1; r2; r3] 0) with (Ok (A := list F) r0).
  change (item [r0; r1; r2; r3] 1) with (Ok (A := list F) r1).
  change (item [r0; r1; r2; r3] 2) with (Ok (A := list F) r2).
  cbn [mbind result_bind Py.bind].
  destruct (le_lt_dec 4 (length r0)) as [H0|H0].
  2:{ rewrite (Hitem r0 H0). reflexivity. }
  destruct (Hok r0 ltac:(lia)) as [x0 ->]. cbn [mbind result_bind Py.bind].
  destruct (le_lt_dec 4 (length r1)) as [H1|H1].
  2:{ rewrite (Hitem r1 H1). reflexivity. }
  destruct (Hok r1 ltac:(lia)) as [x1 ->]. cbn [mbind result_bind Py.bind].
  destruct (le_lt_dec 4 (length r2)) as [H2|H2].
  2:{ rewrite (Hitem r2 H2). reflexivity. }
  exfalso.
  destruct i as [|[|[|i]]]; cbn [nth_error] in Hrow; try lia;
    injection Hrow as <-; lia.
Qed.

End PoseBranchesFacts.

Section PoseDomainFacts.
Open Scope R_scope.

Lemma acos_m1 : acos (-1) = PI.
Proof.
  rewrite <- cos_PI. apply acos_cos. pose proof PI_RGT_0. lra.
Qed.

(** X19. A 4x4 matrix that is not a rotation, with trace of the
    rotation block at most -1 and a diagonal entry below -1, makes
    [get_cartesian_pose] raise ValueError (the square root of a negative
    number in the branch for the angle pi), over the exact reals. *)
Theorem improper_matrix_raises (t : target R) (m : list (list R)) :
  t_pose_matrix t = Val m ->
  is_4x4 m ->
  at_ m 0 0 + at_ m 1 1 + at_ m 2 2 <= -1 ->
  at_ m 0 0 < -1 \/ at_ m 1 1 < -1 \/ at_ m 2 2 < -1 ->
  UR.get_cartesian_pose t = Raise ValueError.
Proof.
  intros Hm [Hlen Hrows] Htr Hdiag.
  destruct m as [|r0 [|r1 [|r2 [|r3 [|? ?]]]]]; try discriminate Hlen.
  apply Forall_cons in Hrows as [L0 Hrows]. apply Forall_cons in Hrows as [L1 Hrows].
  apply Forall_cons in Hrows as [L2 _].
  destruct r0 as [|a [|b [|c [|x [|? ?]]]]]; try discriminate L0.
  destruct r1 as [|d [|e [|f [|y [|? ?]]]]]; try discriminate L1.
  destruct r2 as [|g [|h [|i [|z [|? ?]]]]]; try discriminate L2.
  unfold at_ in Htr, Hdiag. cbn [nth] in Htr, Hdiag.
  unfold UR.get_cartesian_pose. rewrite Hm.
  cbn [jget UR.nonempty length Nat.eqb andb UR.entry item nth_error mbind
       result_bind Py.bind mapM seq mret result_ret].
  unfold UR.rotation_vector.
  cbn [UR.entry item nth_error mbind result_bind Py.bind].
  rewrite py_clamp, !lit_int, lit_1em10, !fltb_dec.
  cbn [fadd fsub fmul fdiv fneg fabs math_pi math_sqrt math_acos math_sin
       math_cos Exact.R_scalar].
  assert (Hcl : clamp1 ((a + e + i - 1) / 2) = -1).
  { unfold clamp1, Rmax, Rmin.
    destruct (Rle_dec 1 ((a + e + i - 1) / 2)); [lra|].
    destruct (Rle_dec (-1) ((a + e + i - 1) / 2)); lra. }
  rewrite Hcl, acos_m1. pose proof PI_gt_3 as Hpi.
  destruct (Rlt_dec (Rabs PI) 1e-10) as [H0|_].
  { rewrite Rabs_pos_eq in H0; lra. }
  destruct (Rlt_dec (Rabs (PI - PI)) 1e-10) as [_|H1].
  2:{ exfalso. apply H1. rewrite Rminus_diag, Rabs_R0. lra. }
  unfold UR.py_sqrt. rewrite !lit_int, !fltb_dec.
  cbn [fadd fsub fmul fdiv fneg fabs math_pi math_sqrt math_acos math_sin
       math_cos Exact.R_scalar].
  destruct (Rlt_dec ((a + 1) / 2) 0); [reflexivity|].
  cbn [mbind result_bind Py.bind].
  destruct (Rlt_dec ((e + 1) / 2) 0); [reflexivity|].
  cbn [mbind result_bind Py.bind].
  destruct (Rlt_dec ((i + 1) / 2) 0); [reflexivity|]. lra.
Qed.

Lemma PI_le_32 : PI <= 3.2.
Proof.
  destruct (Rle_or_lt PI 3.2) as [Hle|Hgt]; [exact Hle|]. exfalso.
  assert (Hpos : 0 < cos 1.6) by (apply cos_gt_0; lra).
  pose proof (cos_upper 1.6 ltac:(lra)) as Hup. lra.
Qed.

Lemma deg2rad_exact (d : R) : UR.deg2rad d = d * PI / 180.
Proof.
  unfold UR.deg2rad.
  change (lit 1800 (-1)) with (IZR 1800 / IZR 10).
  cbn [fmul fdiv math_pi Exact.R_scalar]. pose proof PI_RGT_0. field.
Qed.

Lemma rad2deg_deg2rad (d : R) : UR.rad2deg (UR.deg2rad d) = d.
Proof. rewrite rad2deg_exact, deg2rad_exact. pose proof PI_RGT_0. field. lra. Qed.

Lemma deg2rad_rad2deg (r : R) : UR.deg2rad (UR.rad2deg r) = r.
Proof. rewrite rad2deg_exact, deg2rad_exact. pose proof PI_RGT_0. field. lra. Qed.

(** X20. Joint angles of at most 360 degrees in absolute value,
    written in radians, are read back by the heuristic of the parser as the
    same angles in degrees; a [movej] line with six such values parses to one
    joint move with them.  Over the exact reals. *)
Theorem radians_are_read_back_as_degrees (js : list R) :
  Forall (fun j => Rabs j <= 360) js ->
  UR.radians_heuristic (map UR.deg2rad js) = js
  /\ (length js = 6%nat ->
      UR.parse_line {| UR.lm_skipped := false; UR.lm_joints_comment := None;
                       UR.lm_movej := Some (Ok (map UR.deg2rad js));
                       UR.lm_movel := None; UR.lm_io := None |}
      = [UR.Move "MoveJ" (Some js) Absent]).
Proof.
  intros Hall.
  assert (Hsmall : Forall (fun v => Rabs v < 7) (map UR.deg2rad js)).
  { apply List.Forall_map. eapply List.Forall_impl; [|exact Hall].
    intros j Hj. cbv beta in *. rewrite deg2rad_exact.
    pose proof PI_le_32. pose proof PI_RGT_0.
    assert (Hb : -360 <= j <= 360)
      by (unfold Rabs in Hj; destruct (Rcase_abs j); lra).
    apply Rabs_def1; nra. }
  assert (Hh : UR.radians_heuristic (map UR.deg2rad js) = js).
  { rewrite (radians_heuristic_small _ Hsmall), map_map.
    rewrite <- (map_id js) at 2. apply map_ext. intros j.
    rewrite <- rad2deg_exact. apply rad2deg_deg2rad. }
  split; [exact Hh|].
  intros Hlen. unfold UR.parse_line.
  cbn [UR.lm_skipped UR.lm_joints_comment UR.lm_movej].
  rewrite take_ge by (rewrite length_map; lia).
  rewrite Hh. reflexivity.
Qed.

End PoseDomainFacts.

Section ArchiveContentFacts.
Context {F : Type} `{Scalar F}.

Lemma expected_moves_snoc (l : list (string * string)) (m : string * string) :
  expected_moves (l ++ [m])
  = expected_moves l ++ [(Some m.1, Some m.2,
                          Some ("Waypoint_" +:+ str_nat (S (length l))))].
Proof.
  unfold expected_moves. rewrite length_app, Nat.add_1_r, seq_S.
  rewrite zip_with_app by (rewrite length_seq; reflexivity). reflexivity.
Qed.

Lemma emitted_nil : emitted UR.urp_acc0 [] [] [].
Proof. repeat split. Qed.

Lemma emitted_move (acc : UR.urp_acc) tags ms vs (urp : gmap string string)
    (motion js : string) :
  emitted acc tags ms vs ->
  emitted {| UR.acc_children :=
               UR.acc_children acc
               ++ [UR.move_element urp motion js (UR.acc_mc acc) (S (UR.acc_wp acc))];
             UR.acc_mc := S (UR.acc_mc acc); UR.acc_ic := UR.acc_ic acc;
             UR.acc_wp := S (UR.acc_wp acc) |}
          (tags ++ ["Move"]) (ms ++ [(motion, js)]) vs.
Proof.
  intros (Hmc & Hwp & Hic & Htags & Hm & Hv).
  unfold emitted. cbn [UR.acc_mc UR.acc_wp UR.acc_ic UR.acc_children].
  rewrite length_app, Nat.add_1_r, Hmc, Hwp, Hic.
  repeat split.
  - rewrite map_app, Htags. reflexivity.
  - rewrite List.filter_app, map_app, Hm, expected_moves_snoc. reflexivity.
  - rewrite List.filter_app. cbn [List.filter is_set UR.move_element UR.xml_tag
      String.eqb Ascii.eqb Bool.eqb]. rewrite app_nil_r. exact Hv.
Qed.

Lemma emitted_set (acc : UR.urp_acc) tags ms vs (index : string) (value : bool) :
  emitted acc tags ms vs ->
  emitted {| UR.acc_children :=
               UR.acc_children acc ++ [UR.set_element index value (UR.acc_ic acc)];
             UR.acc_mc := UR.acc_mc acc; UR.acc_ic := S (UR.acc_ic acc);
             UR.acc_wp := UR.acc_wp acc |}
          (tags ++ ["Set"]) ms (vs ++ [value]).
Proof.
  intros (Hmc & Hwp & Hic & Htags & Hm & Hv).
  unfold emitted. cbn [UR.acc_mc UR.acc_wp UR.acc_ic UR.acc_children].
  rewrite length_app, Nat.add_1_r, Hic.
  repeat split; try assumption.
  - rewrite map_app, Htags. reflexivity.
  - rewrite List.filter_app. cbn [List.filter is_move UR.set_element UR.xml_tag
      String.eqb Ascii.eqb Bool.eqb]. rewrite app_nil_r. exact Hm.
  - rewrite List.filter_app, map_app, Hv. unfold expected_values.
    rewrite map_app. reflexivity.
Qed.

Lemma fold_urp_cmd_emitted (urp : gmap string string) (cmds : list (UR.comando F))
    (acc : UR.urp_acc) (n : nat) tags ms vs :
  emitted acc tags ms vs ->
  emitted (fold_left (UR.urp_cmd urp) cmds (acc, n)).1
          (tags ++ omap comando_tag cmds)
          (ms ++ omap comando_move cmds) (vs ++ omap comando_value cmds).
Proof.
  revert acc n tags ms vs. induction cmds as [|c cmds IH]; intros acc n tags ms vs He.
  { cbn. rewrite !app_nil_r. exact He. }
  cbn [fold_left]. destruct c as [tipo [js|] pose | index value];
    cbn [UR.urp_cmd omap list_omap comando_tag comando_move comando_value].
  - rewrite (cons_middle "Move"), (cons_middle (tipo, print_joints js)), !app_assoc.
    apply IH. apply emitted_move, He.
  - apply IH, He.
  - rewrite (cons_middle "Set"), (cons_middle value), !app_assoc.
    apply IH. apply emitted_set, He.
Qed.

End ArchiveContentFacts.

Section ArchiveContentTheorems.
Context {F : Type} `{Scalar F}.

(** X21. When [script_para_urp] succeeds it writes one archive whose
    main program holds, in script order, one Move per command with joints
    and one Set per output: each Move carries the command's motion type, its
    joints printed in radians and the waypoint numbered in sequence, each Set
    the output value. *)
Theorem script_archive_content (nome : string) (linhas : list (UR.line_match F))
    (rd : UR.robot) (pasta : string) :
  let cmds := UR.parse_script_moves linhas in
  let o := UR.script_para_urp nome linhas (Some rd) pasta in
  UR.sucesso o = true ->
  exists root,
    UR.written o = [(UR.path_join pasta (nome +:+ ".urp"), UR.GzipXml root)]
    /\ map UR.xml_tag (UR.main_children_of root) = omap comando_tag cmds
    /\ map read_move (List.filter is_move (UR.main_children_of root))
       = expected_moves (omap comando_move cmds)
    /\ map digital_value (List.filter is_set (UR.main_children_of root))
       = expected_values (omap comando_value cmds).
Proof.
  cbn zeta. unfold UR.script_para_urp.
  pose proof (fold_urp_cmd_emitted (UR.urp rd) (UR.parse_script_moves linhas)
                UR.urp_acc0 0 [] [] [] emitted_nil) as He.
  destruct (fold_left _ _ _) as [acc n]. cbn [fst app] in He.
  destruct (_ && _); [discriminate|]. intros _.
  cbn [UR.written]. eexists. split; [reflexivity|].
  change (UR.main_children_of (UR.urp_root nome (UR.urp rd) (UR.acc_children acc)))
    with (UR.acc_children acc).
  destruct He as (_ & _ & _ & Ht & Hm & Hv). repeat split; assumption.
Qed.

Lemma for_each_urp_step_emitted (targets : gmap string (target F))
    (urp : gmap string string) (ss : list (step F)) (acc acc' : UR.urp_acc)
    tags ms vs :
  UR.for_each (UR.urp_step targets urp) acc ss = Ok acc' ->
  emitted acc tags ms vs ->
  exists l,
    mapM (step_move targets) (List.filter is_move_step ss) = Ok l
    /\ emitted acc' (tags ++ map step_tag (List.filter emits_element ss))
               (ms ++ l) (vs ++ map step_value (List.filter is_set_step ss)).
Proof.
  revert acc tags ms vs. induction ss as [|s ss IH]; intros acc tags ms vs Hrun He.
  { cbn in Hrun. injection Hrun as <-. exists []. split; [reflexivity|].
    cbn. rewrite !app_nil_r. exact He. }
  cbn [UR.for_each] in Hrun.
  destruct (UR.urp_step targets urp acc s) as [acc1|e] eqn:Hstep; [|discriminate].
  cbn [mbind result_bind Py.bind] in Hrun.
  unfold UR.urp_step in Hstep.
  cbn [List.filter]. unfold is_move_step at 1, emits_element at 1, is_set_step at 1.
  destruct ((s_type s =? "MOVE_J")%string || (s_type s =? "MOVE_L")%string) eqn:Hmv.
  - destruct (UR.joints_rad _) as [j|e] eqn:Hj; [|discriminate].
    cbn [mbind result_bind Py.bind] in Hstep. injection Hstep as <-.
    assert (Hset : (s_type s =? "SET_IO")%string = false).
    { apply orb_true_iff in Hmv as [Hx|Hx]; apply String.eqb_eq in Hx; rewrite Hx;
        reflexivity. }
    rewrite Hset. cbn [orb].
    apply (emitted_move _ _ _ _ urp
             (if (s_type s =? "MOVE_J")%string then "MoveJ" else "MoveL")
             (join ", " (map (format_f 6) j))) in He.
    destruct (IH _ _ _ _ Hrun He) as [l [Hl He']].
    exists ((if (s_type s =? "MOVE_J")%string then "MoveJ" else "MoveL",
             join ", " (map (format_f 6) j)) :: l).
    split.
    + assert (Hsm : step_move targets s
                    = Ok (if (s_type s =? "MOVE_J")%string then "MoveJ" else "MoveL",
                          join ", " (map (format_f 6) j))).
      { unfold step_move. rewrite Hj. reflexivity. }
      cbn [mapM]. rewrite Hsm. cbn [mbind result_bind Py.bind]. rewrite Hl.
      reflexivity.
    + cbn [map]. unfold step_tag at 1, is_set_step. rewrite Hset.
      rewrite <- !app_assoc in He'. exact He'.
  - cbn [orb]. destruct (s_type s =? "SET_IO")%string eqn:Hset.
    + injection Hstep as <-.
      apply (emitted_set _ _ _ _
               (format_val (default (PInt 0) (kw_get "io_index" (s_fields s))))
               (truthy (kw_get_none "value" (s_fields s)))) in He.
      destruct (IH _ _ _ _ Hrun He) as [l [Hl He']].
      exists l. split; [exact Hl|].
      cbn [map]. unfold step_tag at 1, is_set_step. rewrite Hset.
      rewrite <- !app_assoc in He'. exact He'.
    + injection Hstep as <-. apply (IH acc); assumption.
Qed.

(** X22. When [ruki_para_urp] returns, it wrote one archive named
    after the program whose main program holds, in step order, one Move per
    joint or linear move step, with the joints of the step's target in
    radians and waypoints numbered in sequence, and one Set per output step
    with its value. *)
Theorem ruki_archive_content (r : UR.ruki F) (rd : UR.robot) (pasta : string)
    (o : UR.outcome) :
  UR.ruki_para_urp r (Some rd) pasta = Ok o ->
  let targets := UR.targets_by_id (UR.ruki_targets r) in
  let nome := default "programa" (UR.program_name r) in
  exists root moves,
    UR.written o = [(UR.path_join pasta (nome +:+ ".urp"), UR.GzipXml root)]
    /\ mapM (step_move targets) (List.filter is_move_step (UR.ruki_steps r)) = Ok moves
    /\ map UR.xml_tag (UR.main_children_of root)
       = map step_tag (List.filter emits_element (UR.ruki_steps r))
    /\ map read_move (List.filter is_move (UR.main_children_of root))
       = expected_moves moves
    /\ map digital_value (List.filter is_set (UR.main_children_of root))
       = expected_values (map step_value (List.filter is_set_step (UR.ruki_steps r))).
Proof.
  unfold UR.ruki_para_urp.
  destruct (UR.for_each _ _ _) as [acc|e] eqn:Hloop; [|discriminate].
  cbn [mbind result_bind Py.bind]. intros Ho. injection Ho as <-. cbn zeta.
  destruct (for_each_urp_step_emitted _ _ _ _ _ [] [] [] Hloop emitted_nil)
    as [l [Hl He]].
  cbn [UR.written]. exists (UR.urp_root (default "programa" (UR.program_name r))
                              (UR.urp rd) (UR.acc_children acc)), l.
  split; [reflexivity|]. split; [exact Hl|].
  change (UR.main_children_of
            (UR.urp_root (default "programa" (UR.program_name r)) (UR.urp rd)
                         (UR.acc_children acc)))
    with (UR.acc_children acc).
  destruct He as (_ & _ & _ & Ht & Hm & Hv). repeat split; assumption.
Qed.

End ArchiveContentTheorems.

Section ParserShapeFacts.
Context {F : Type} `{Scalar F}.

Lemma radians_heuristic_length (vs : list F) :
  length (UR.radians_heuristic vs) = length vs.
Proof.
  unfold UR.radians_heuristic. destruct (forallb _ vs); [apply length_map|reflexivity].
Qed.

Lemma take_6_length (vs : list F) : (length (take 6 vs) <= 6)%nat.
Proof. rewrite length_take. lia. Qed.

Lemma parse_line_shape (l : UR.line_match F) :
  (length (UR.parse_line l) <= 1)%nat /\ Forall well_formed (UR.parse_line l).
Proof.
  unfold UR.parse_line. destruct (UR.lm_skipped l); [split; [cbn; lia|constructor]|].
  set (jc := match UR.lm_joints_comment l with
             | Some (Ok vs) => Some (UR.radians_heuristic (take 6 vs))
             | _ => None
             end).
  assert (Hjc : forall js, jc = Some js -> (length js <= 6)%nat).
  { intros js. unfold jc. destruct (UR.lm_joints_comment l) as [[vs|e]|];
      try discriminate. intros Hjs. injection Hjs as <-.
    rewrite radians_heuristic_length. apply take_6_length. }
  destruct (UR.lm_movej l) as [[vs|e]|].
  - split; [cbn; lia|]. constructor; [|constructor]. left.
    split; [reflexivity|]. split; [reflexivity|].
    destruct jc as [[|j js]|] eqn:Hj; eexists; (split; [reflexivity|]);
      try (rewrite radians_heuristic_length; apply take_6_length).
    apply (Hjc _ eq_refl).
  - split; [cbn; lia|constructor].
  - destruct (UR.lm_movel l) as [r|].
    + assert (Hpv : forall p, try_or_none (vs ← r; Ok (take 6 vs)) = Some p ->
                              (length p <= 6)%nat).
      { intros p. destruct r as [vs|e]; [|discriminate]. cbn. intros Hp.
        injection Hp as <-. apply take_6_length. }
      assert (Hpose_only :
        (length match try_or_none (vs ← r; Ok (take 6 vs)) with
                | Some (v :: vs) => [UR.Move "MoveL" None (Val (v :: vs))]
                | _ => []
                end <= 1)%nat
        /\ Forall well_formed
             match try_or_none (vs ← r; Ok (take 6 vs)) with
             | Some (v :: vs) => [UR.Move "MoveL" None (Val (v :: vs))]
             | _ => []
             end).
      { destruct (try_or_none _) as [[|v p]|] eqn:Hp.
        - split; [cbn; lia|constructor].
        - split; [cbn; lia|]. constructor; [|constructor].
          right. split; [reflexivity|]. right. split; [reflexivity|].
          eexists. split; [reflexivity|]. split; [discriminate|].
          apply (Hpv _ eq_refl).
        - split; [cbn; lia|constructor]. }
      destruct jc as [[|j js]|] eqn:Hj; [exact Hpose_only| |exact Hpose_only].
      split; [cbn; lia|]. constructor; [|constructor]. right.
      split; [reflexivity|]. left. eexists. split; [reflexivity|].
      split; [discriminate|]. split; [apply (Hjc _ eq_refl)|].
      destruct (try_or_none _) as [p|] eqn:Hp; cbn [jwritten]; [|exact I].
      apply (Hpv _ eq_refl).
    + destruct (UR.lm_io l) as [[i v]|]; (split; [cbn; lia|]);
        repeat constructor.
Qed.

Lemma parse_script_moves_shape (linhas : list (UR.line_match F)) :
  (length (UR.parse_script_moves linhas) <= length linhas)%nat
  /\ Forall well_formed (UR.parse_script_moves linhas).
Proof.
  unfold UR.parse_script_moves. induction linhas as [|l linhas [IHn IHw]].
  - split; [cbn; lia|constructor].
  - destruct (parse_line_shape l) as [Hn Hw]. cbn [map concat].
    split.
    + rewrite length_app. cbn [length]. lia.
    + apply Forall_app. split; assumption.
Qed.

(** X23. [parse_script_moves] returns at most one command per line;
    a joint move carries at most six joints and no pose, and a linear move
    carries either joints from the comment, or no joints and a pose of one to
    six values. *)
Theorem parsed_commands_are_well_formed (linhas : list (UR.line_match F)) :
  (length (UR.parse_script_moves linhas) <= length linhas)%nat
  /\ Forall well_formed (UR.parse_script_moves linhas).
Proof. exact (parse_script_moves_shape linhas). Qed.

End ParserShapeFacts.

Section RobodkProgramFacts.
Context {F : Type} `{Scalar F}.

Lemma append_nil_r (s : string) : s +:+ "" = s.
Proof.
  induction s as [|c s IH]; [reflexivity|]. rewrite append_cons, IH. reflexivity.
Qed.

Lemma append_assoc (a b c : string) : (a +:+ b) +:+ c = a +:+ (b +:+ c).
Proof.
  induction a as [|x a IH]; [rewrite !append_nil_l; reflexivity|].
  rewrite !append_cons, IH. reflexivity.
Qed.

Lemma item_total {A} (l : list A) (i : nat) :
  (i < length l)%nat -> exists a, item l i = Ok a.
Proof.
  intros Hi. unfold item. destruct (nth_error l i) eqn:Hn; [eauto|].
  apply nth_error_None in Hn. lia.
Qed.

Lemma robodk_cmd_printable (codigo : string) (mc ic : nat) (c : UR.comando F) :
  well_formed c -> pose_printable c = true ->
  exists line,
    UR.robodk_cmd (codigo, mc, ic) c
    = Ok (codigo +:+ line,
          if is_move_cmd c then S mc else mc,
          if is_io c then S ic else ic).
Proof.
  intros Hwf Hp. destruct c as [tipo joints pose|index value].
  - cbn [well_formed] in Hwf. cbn [is_move_cmd is_io UR.robodk_cmd].
    destruct Hwf as [(-> & -> & js & -> & _)|[-> Hl]].
    + cbn. eexists. reflexivity.
    + change ("MoveL" =? "MoveJ")%string with false.
      change ("MoveL" =? "MoveL")%string with true. cbv iota.
      assert (Hgoal : exists line,
                (if true then
                   match pose with
                   | Val p =>
                       p0 ← item p 0; p1 ← item p 1; p2 ← item p 2;
                       p3 ← item p 3; p4 ← item p 4; p5 ← item p 5;
                       Ok (codigo +:+ "robot.MoveL(ur_pose_to_robodk("
                           +:+ join ", " (map (format_f 6) [p0; p1; p2; p3; p4; p5])
                           +:+ "))
", S mc, ic)
                   | Null => Raise TypeError
                   | Absent =>
                       match joints with
                       | Some js =>
                           Ok (codigo +:+ "robot.MoveL(["
                               +:+ join ", " (map (format_f 4) js) +:+ "])
", S mc, ic)
                       | None => Ok (codigo, mc, ic)
                       end
                   end
                 else Ok (codigo, mc, ic))
                = Ok (codigo +:+ line, S mc, ic)).
      { cbv iota. destruct pose as [| |p].
        - destruct Hl as [(js & -> & _ & _ & [])|(_ & p & Hp' & _)]; discriminate.
        - cbn in Hp. discriminate.
        - cbn [pose_printable] in Hp.
          change ("MoveL" =? "MoveL")%string with true in Hp. cbn [negb orb] in Hp.
          apply Nat.leb_le in Hp.
          destruct (item_total p 0 ltac:(lia)) as [p0 ->].
          destruct (item_total p 1 ltac:(lia)) as [p1 ->].
          destruct (item_total p 2 ltac:(lia)) as [p2 ->].
          destruct (item_total p 3 ltac:(lia)) as [p3 ->].
          destruct (item_total p 4 ltac:(lia)) as [p4 ->].
          destruct (item_total p 5 ltac:(lia)) as [p5 ->].
          cbn [mbind result_bind Py.bind]. eexists. reflexivity. }
      destruct joints; exact Hgoal.
  - cbn. eexists. reflexivity.
Qed.

Lemma for_each_robodk_cmd (cmds : list (UR.comando F)) (codigo : string) (mc ic : nat) :
  Forall well_formed cmds -> forallb pose_printable cmds = true ->
  exists body,
    UR.for_each UR.robodk_cmd (codigo, mc, ic) cmds
    = Ok (codigo +:+ body,
          mc + length (List.filter is_move_cmd cmds),
          ic + length (List.filter is_io cmds)).
Proof.
  revert codigo mc ic. induction cmds as [|c cmds IH]; intros codigo mc ic Hwf Hp.
  { exists "". cbn. rewrite append_nil_r, !Nat.add_0_r.
    reflexivity. }
  apply Forall_cons in Hwf as [Hc Hwf]. cbn [forallb] in Hp.
  apply andb_true_iff in Hp as [Hpc Hp].
  destruct (robodk_cmd_printable codigo mc ic c Hc Hpc) as [line Hline].
  cbn [UR.for_each]. rewrite Hline. cbn [mbind result_bind Py.bind].
  destruct (IH (codigo +:+ line) (if is_move_cmd c then S mc else mc)
               (if is_io c then S ic else ic) Hwf Hp) as [body Hbody].
  exists (line +:+ body). rewrite Hbody. cbn [List.filter].
  rewrite append_assoc.
  f_equal. apply pair_equal_spec; split; [apply pair_equal_spec; split|];
    destruct c; cbn [is_move_cmd is_io length]; first [reflexivity | lia].
Qed.

(** X24. When every linear move with a pose has at least six pose
    values, [script_para_robodk] succeeds, writes one program text to
    <stem>_RoboDK.py with spaces replaced by underscores, and reports the
    number of all moves, with or without joints, and of all outputs. *)
Theorem robodk_program_keeps_every_move (origem stem : string)
    (linhas : list (UR.line_match F)) (robot_data : option UR.robot)
    (pasta : string) :
  let cmds := UR.parse_script_moves linhas in
  forallb pose_printable cmds = true ->
  exists codigo,
    UR.script_para_robodk origem stem linhas robot_data pasta
    = Ok {| UR.sucesso := true;
            UR.mensagem :=
              "Movimentos: " +:+ str_nat (length (List.filter is_move_cmd cmds)) +:+ "
IOs: " +:+ str_nat (length (List.filter is_io cmds)) +:+ "

Arquivo: " +:+ robodk_path pasta stem;
            UR.caminho := Some (robodk_path pasta stem);
            UR.written := [(robodk_path pasta stem, UR.Text codigo)] |}.
Proof.
  intros cmds Hp. unfold UR.script_para_robodk. fold cmds.
  destruct (parse_script_moves_shape linhas) as [_ Hwf]. fold cmds in Hwf.
  match goal with
  | |- context [UR.for_each UR.robodk_cmd (?h, 0, 0) cmds] =>
      destruct (for_each_robodk_cmd cmds h 0 0 Hwf Hp) as [body ->]
  end.
  cbn [mbind result_bind Py.bind]. eexists. reflexivity.
Qed.

End RobodkProgramFacts.

Section RobodkRaises.
Context {F : Type} `{Scalar F}.

Lemma for_each_app {A B} (body : A -> B -> result A) (acc : A) (l1 l2 : list B) :
  UR.for_each body acc (l1 ++ l2)
  = acc' ← UR.for_each body acc l1; UR.for_each body acc' l2.
Proof.
  revert acc. induction l1 as [|b l1 IH]; intros acc; [reflexivity|].
  cbn [app UR.for_each]. destruct (body acc b) as [acc1|e];
    cbn [mbind result_bind Py.bind]; [apply IH|reflexivity].
Qed.

Lemma item_short {A} (l : list A) (i : nat) :
  (length l <= i)%nat -> item l i = Raise IndexError.
Proof.
  intros Hi. unfold item. destruct (nth_error l i) eqn:Hn; [|reflexivity].
  assert (Hs : nth_error l i <> None) by congruence.
  apply nth_error_Some in Hs. lia.
Qed.

Lemma robodk_cmd_unprintable (st : string * nat * nat) (c : UR.comando F) :
  well_formed c -> pose_printable c = false ->
  UR.robodk_cmd st c = Raise (pose_error c).
Proof.
  intros Hwf Hp. destruct st as [[codigo mc] ic].
  destruct c as [tipo joints pose|index value]; [|discriminate Hp].
  cbn [well_formed] in Hwf.
  destruct Hwf as [(-> & -> & js & -> & _)|[-> Hl]]; [discriminate Hp|].
  cbn [UR.robodk_cmd pose_error].
  change ("MoveL" =? "MoveJ")%string with false.
  change ("MoveL" =? "MoveL")%string with true. cbv iota.
  destruct pose as [| |p]; [discriminate Hp|destruct joints; reflexivity|].
  cbn [pose_printable] in Hp.
  change ("MoveL" =? "MoveL")%string with true in Hp. cbn [negb orb] in Hp.
  apply Nat.leb_gt in Hp.
  assert (Hgoal :
    (p0 ← item p 0; p1 ← item p 1; p2 ← item p 2;
     p3 ← item p 3; p4 ← item p 4; p5 ← item p 5;
     Ok (codigo +:+ "robot.MoveL(ur_pose_to_robodk("
         +:+ join ", " (map (format_f 6) [p0; p1; p2; p3; p4; p5])
         +:+ "))
", S mc, ic)) = Raise IndexError).
  { destruct (le_lt_dec (length p) 0) as [H0|H0];
      [rewrite (item_short p 0 H0); reflexivity|].
    destruct (item_total p 0 H0) as [p0 ->]. cbn [mbind result_bind Py.bind].
    destruct (le_lt_dec (length p) 1) as [H1|H1];
      [rewrite (item_short p 1 H1); reflexivity|].
    destruct (item_total p 1 H1) as [p1 ->]. cbn [mbind result_bind Py.bind].
    destruct (le_lt_dec (length p) 2) as [H2|H2];
      [rewrite (item_short p 2 H2); reflexivity|].
    destruct (item_total p 2 H2) as [p2 ->]. cbn [mbind result_bind Py.bind].
    destruct (le_lt_dec (length p) 3) as [H3|H3];
      [rewrite (item_short p 3 H3); reflexivity|].
    destruct (item_total p 3 H3) as [p3 ->]. cbn [mbind result_bind Py.bind].
    destruct (le_lt_dec (length p) 4) as [H4|H4];
      [rewrite (item_short p 4 H4); reflexivity|].
    destruct (item_total p 4 H4) as [p4 ->]. cbn [mbind result_bind Py.bind].
    rewrite (item_short p 5) by lia. reflexivity. }
  destruct joints; exact Hgoal.
Qed.

(** X25. The first linear move whose pose has fewer than six
    values (or is null) makes [script_para_robodk] raise IndexError (or
    TypeError) and write nothing. *)
Theorem robodk_program_raises_on_incomplete_pose (origem stem : string)
    (linhas : list (UR.line_match F)) (robot_data : option UR.robot)
    (pasta : string) (pre post : list (UR.comando F)) (c : UR.comando F) :
  UR.parse_script_moves linhas = pre ++ c :: post ->
  forallb pose_printable pre = true ->
  pose_printable c = false ->
  UR.script_para_robodk origem stem linhas robot_data pasta = Raise (pose_error c).
Proof.
  intros Hcmds Hpre Hc. unfold UR.script_para_robodk.
  destruct (parse_script_moves_shape linhas) as [_ Hwf].
  rewrite Hcmds in Hwf |- *. apply Forall_app in Hwf as [Hwpre Hwf].
  apply Forall_cons in Hwf as [Hwc _].
  rewrite for_each_app.
  match goal with
  | |- context [UR.for_each UR.robodk_cmd (?h, 0, 0) pre] =>
      destruct (for_each_robodk_cmd pre h 0 0 Hwpre Hpre) as [body ->]
  end.
  cbn [mbind result_bind Py.bind UR.for_each].
  rewrite (robodk_cmd_unprintable _ c Hwc Hc). reflexivity.
Qed.

End RobodkRaises.

Section BuilderToArchiveFacts.
Context {F : Type} `{Scalar F} {Mat : Type}.
Variable RoboDK : RukiE.host F Mat.

Lemma step_of_move_mono (ts : list (target F)) (t : target F) s m :
  step_of_move ts s m -> step_of_move (ts ++ [t]) s m.
Proof.
  intros (Hty & t' & Hin & Hk & Hj). split; [exact Hty|].
  exists t'. split; [apply in_or_app; left; exact Hin|]. split; assumption.
Qed.

Lemma omap_snoc {A B} (f : A -> option B) (l : list A) (x : A) :
  omap f (l ++ [x]) = omap f l ++ option_list (f x).
Proof.
  induction l as [|y l IH].
  - cbn. destruct (f x); reflexivity.
  - cbn [app omap list_omap]. fold (omap f (l ++ [x])). fold (omap f l).
    rewrite IH. destruct (f y); reflexivity.
Qed.

Lemma moves_match_other (self self' : RukiE.RobotPost F Mat) cs c :
  call_move c = None ->
  RukiE.targets self' = RukiE.targets self ->
  List.filter is_move_step (RukiE.steps self')
  = List.filter is_move_step (RukiE.steps self) ->
  moves_match self cs -> moves_match self' (cs ++ [c]).
Proof.
  intros Hc Ht Hs Hm. unfold moves_match. rewrite omap_snoc, Hc, Ht, Hs.
  cbn [option_list]. rewrite app_nil_r. exact Hm.
Qed.

Lemma filter_add_step (self : RukiE.RobotPost F Mat) ty kw :
  List.filter is_move_step (RukiE.steps (RukiE._add_step self ty kw))
  = List.filter is_move_step (RukiE.steps self)
    ++ (if (ty =? "MOVE_J")%string || (ty =? "MOVE_L")%string
        then [List.last (RukiE.steps (RukiE._add_step self ty kw))
                        {| s_index := 0; s_type := ""; s_state_before := None;
                           s_fields := []; s_state_after := None |}]
        else []).
Proof.
  unfold RukiE._add_step. cbn [RukiE.steps RukiE.set_steps].
  rewrite List.filter_app, List.last_last. cbn [List.filter].
  unfold is_move_step at 2. cbn [s_type].
  destruct ((ty =? "MOVE_J")%string || (ty =? "MOVE_L")%string); reflexivity.
Qed.

Lemma move_call_match (self : RukiE.RobotPost F Mat) cs ty pose joints conf name rest
    (c : RukiE.call F Mat) :
  ty = "MOVE_J" \/ ty = "MOVE_L" ->
  call_move c = Some (ty, joints) ->
  moves_match self cs ->
  let r := RukiE._add_target RoboDK self pose joints conf name in
  moves_match (RukiE._add_step r.1 ty (("target", PStr r.2) :: rest)) (cs ++ [c]).
Proof.
  intros Hty Hc Hm r. unfold moves_match. rewrite omap_snoc, Hc, filter_add_step.
  replace ((ty =? "MOVE_J")%string || (ty =? "MOVE_L")%string) with true
    by (destruct Hty; subst ty; reflexivity).
  destruct (add_target_last RoboDK self pose joints conf name) as (t & Hts & Hid & Hj).
  fold r in Hts, Hid.
  cbn [option_list]. apply Forall2_app.
  - cbn [RukiE._add_step RukiE.targets RukiE.steps RukiE.set_steps].
    change (RukiE.steps r.1) with (RukiE.steps self). rewrite Hts.
    eapply Forall2_impl; [exact Hm|]. intros s m. apply step_of_move_mono.
  - constructor; [|constructor]. unfold RukiE._add_step.
    cbn [RukiE.steps RukiE.targets RukiE.set_steps]. rewrite List.last_last.
    split; [reflexivity|]. exists t. rewrite Hts. split.
    + apply in_or_app. right. left. reflexivity.
    + cbn [s_fields]. rewrite <- Hid. split; [reflexivity|exact Hj].
Qed.

Lemma get_io_ref_moves (self : RukiE.RobotPost F Mat) io_var io_type :
  RukiE.targets (RukiE._get_io_ref self io_var io_type).1 = RukiE.targets self
  /\ RukiE.steps (RukiE._get_io_ref self io_var io_type).1 = RukiE.steps self.
Proof.
  unfold RukiE._get_io_ref. destruct (RukiE.io_map self !! _); split; reflexivity.
Qed.

Lemma moves_match_same (self self' : RukiE.RobotPost F Mat) cs :
  RukiE.targets self' = RukiE.targets self ->
  RukiE.steps self' = RukiE.steps self ->
  moves_match self cs -> moves_match self' cs.
Proof. unfold moves_match. intros -> ->. trivial. Qed.

Lemma add_step_moves_other (self : RukiE.RobotPost F Mat) ty kw cs c :
  ty <> "MOVE_J" -> ty <> "MOVE_L" -> call_move c = None ->
  moves_match self cs -> moves_match (RukiE._add_step self ty kw) (cs ++ [c]).
Proof.
  intros Hj Hl Hc Hm. apply (moves_match_other self); [exact Hc|reflexivity| |exact Hm].
  rewrite filter_add_step.
  destruct (String.eqb_spec ty "MOVE_J"); [contradiction|].
  destruct (String.eqb_spec ty "MOVE_L"); [contradiction|].
  apply app_nil_r.
Qed.

Lemma no_step_moves (self self' : RukiE.RobotPost F Mat) cs c :
  call_move c = None ->
  RukiE.targets self' = RukiE.targets self ->
  RukiE.steps self' = RukiE.steps self ->
  moves_match self cs -> moves_match self' (cs ++ [c]).
Proof.
  intros Hc Ht Hs Hm. apply (moves_match_other self); try assumption.
  rewrite Hs. reflexivity.
Qed.

Lemma get_io_ref_moves_match (self : RukiE.RobotPost F Mat) io_var io_type cs :
  moves_match self cs -> moves_match (RukiE._get_io_ref self io_var io_type).1 cs.
Proof.
  destruct (get_io_ref_moves self io_var io_type) as [Ht Hs].
  apply moves_match_same; assumption.
Qed.

Lemma invoke_moves_match (self : RukiE.RobotPost F Mat) cs (c : RukiE.call F Mat) :
  moves_match self cs -> moves_match (RukiE.invoke RoboDK self c) (cs ++ [c]).
Proof.
  intros Hm. destruct c; cbn [RukiE.invoke];
  lazymatch goal with
  | |- moves_match (RukiE.MoveJ _ _ ?p ?j ?cf) _ =>
      apply (move_call_match self cs "MOVE_J" p j cf (RukiE._TargetName self) _
               (RukiE.CMoveJ p j cf)); [left; reflexivity|reflexivity|exact Hm]
  | |- moves_match (RukiE.MoveL _ _ ?p ?j ?cf) _ =>
      apply (move_call_match self cs "MOVE_L" p j cf (RukiE._TargetName self) _
               (RukiE.CMoveL p j cf)); [right; reflexivity|reflexivity|exact Hm]
  | |- moves_match (RukiE.MoveC _ _ ?p1 ?j1 ?p2 ?j2 ?c1 ?c2) _ =>
      apply (add_step_moves_other _ "MOVE_C"); [discriminate..|reflexivity|];
      unfold moves_match;
      cbn [RukiE._add_target RukiE.targets RukiE.steps RukiE.set_targets fst];
      (eapply Forall2_impl; [exact Hm|]); intros s m Hs;
      do 2 apply step_of_move_mono; exact Hs
  | |- moves_match (RukiE.ProgStart _ _ _) _ =>
      unfold RukiE.ProgStart; destruct (_ <? _)%nat;
      apply (no_step_moves self); solve [reflexivity | exact Hm]
  | |- moves_match (RukiE.ProgFinish _ _) _ =>
      unfold RukiE.ProgFinish; destruct (RukiE.current_subprogram self) as [cur|];
      [destruct (cur =? "")%string|];
      apply (no_step_moves self); solve [reflexivity | exact Hm]
  | |- moves_match (RukiE.set_protocol _ _ _ _ _) _ =>
      apply (no_step_moves self); solve [reflexivity | exact Hm]
  | |- moves_match (RukiE.setDO _ ?v _) _ =>
      unfold RukiE.setDO;
      pose proof (get_io_ref_moves_match self v "DO" cs Hm) as Hio;
      destruct (RukiE._get_io_ref self v "DO") as [self' r];
      apply add_step_moves_other; [discriminate..|reflexivity|exact Hio]
  | |- moves_match (RukiE.setAO _ ?v _) _ =>
      unfold RukiE.setAO;
      pose proof (get_io_ref_moves_match self v "AO" cs Hm) as Hio;
      destruct (RukiE._get_io_ref self v "AO") as [self' r];
      apply add_step_moves_other; [discriminate..|reflexivity|exact Hio]
  | |- moves_match (RukiE.waitDI _ ?v _ _) _ =>
      unfold RukiE.waitDI;
      pose proof (get_io_ref_moves_match self v "DI" cs Hm) as Hio;
      destruct (RukiE._get_io_ref self v "DI") as [self' r];
      apply add_step_moves_other; [discriminate..|reflexivity|exact Hio]
  | |- moves_match (RukiE.setFrame _ _ _ _ _) _ =>
      apply (add_step_moves_other _ "SET_FRAME"); [discriminate..|reflexivity|];
      apply (moves_match_same self); solve [reflexivity | exact Hm]
  | |- moves_match (RukiE.setTool _ _ _ _ _) _ =>
      apply (add_step_moves_other _ "SET_TOOL"); [discriminate..|reflexivity|];
      apply (moves_match_same self); solve [reflexivity | exact Hm]
  | |- _ =>
      apply add_step_moves_other; [discriminate..|reflexivity|exact Hm]
  end.
Qed.

Lemma run_moves_match (cs : list (RukiE.call F Mat)) :
  moves_match (RukiE.run RoboDK cs) cs.
Proof.
  unfold RukiE.run.
  assert (Hgen : forall self cs0, moves_match self cs0 ->
            moves_match (fold_left (RukiE.invoke RoboDK) cs self) (cs0 ++ cs)).
  { induction cs as [|c cs IH]; intros self cs0 Hm.
    - cbn. rewrite app_nil_r. exact Hm.
    - cbn [fold_left]. apply (invoke_moves_match _ _ c) in Hm. apply IH in Hm.
      rewrite <- app_assoc in Hm. exact Hm. }
  apply (Hgen RukiE.init []). constructor.
Qed.

End BuilderToArchiveFacts.

Section BuilderToArchiveTheorems.
Context {F : Type} `{Scalar F} {Mat : Type}.
Variable RoboDK : RukiE.host F Mat.

Lemma urp_step_move (targets : gmap string (target F)) (urp : gmap string string)
    (acc : UR.urp_acc) (s : step F) :
  is_move_step s = true ->
  UR.urp_step targets urp acc s
  = j ← UR.joints_rad (UR.lookup_target targets s);
    Ok {| UR.acc_children :=
            UR.acc_children acc
            ++ [UR.move_element urp
                  (if (s_type s =? "MOVE_J")%string then "MoveJ" else "MoveL")
                  (join ", " (map (format_f 6) j)) (UR.acc_mc acc)
                  (S (UR.acc_wp acc))];
          UR.acc_mc := S (UR.acc_mc acc); UR.acc_ic := UR.acc_ic acc;
          UR.acc_wp := S (UR.acc_wp acc) |}.
Proof. unfold UR.urp_step, is_move_step. cbv zeta. intros ->. reflexivity. Qed.

Lemma urp_step_no_move (targets : gmap string (target F)) (urp : gmap string string)
    (acc : UR.urp_acc) (s : step F) :
  is_move_step s = false ->
  exists acc', UR.urp_step targets urp acc s = Ok acc'.
Proof.
  unfold UR.urp_step, is_move_step. cbv zeta. intros ->.
  destruct (s_type s =? "SET_IO")%string; eauto.
Qed.

(** The step loop fails where reading the joints of a move fails, and
    only there *)
Lemma for_each_urp_step_mapM (targets : gmap string (target F))
    (urp : gmap string string) (ss : list (step F)) (acc : UR.urp_acc) :
  match mapM (step_move targets) (List.filter is_move_step ss) with
  | Ok _ => exists acc', UR.for_each (UR.urp_step targets urp) acc ss = Ok acc'
  | Raise e => UR.for_each (UR.urp_step targets urp) acc ss = Raise e
  end.
Proof.
  revert acc. induction ss as [|s ss IH]; intros acc.
  { cbn. eauto. }
  cbn [List.filter UR.for_each].
  destruct (is_move_step s) eqn:Hmv.
  - rewrite (urp_step_move targets urp acc s Hmv). cbn [mapM].
    assert (Hsm : step_move targets s
                  = j ← UR.joints_rad (UR.lookup_target targets s);
                    Ok (if (s_type s =? "MOVE_J")%string then "MoveJ" else "MoveL",
                        join ", " (map (format_f 6) j))) by reflexivity.
    rewrite Hsm. clear Hsm.
    destruct (UR.joints_rad (UR.lookup_target targets s)) as [j|e];
      cbn [mbind result_bind Py.bind]; [|reflexivity].
    match goal with
    | |- context [UR.for_each _ ?a ss] => specialize (IH a)
    end.
    destruct (mapM _ _) as [l|e]; cbn [mbind result_bind Py.bind]; exact IH.
  - destruct (urp_step_no_move targets urp acc s Hmv) as [acc' ->].
    cbn [mbind result_bind Py.bind]. apply IH.
Qed.

Lemma step_move_of_match (ts : list (target F)) (s : step F) (ty : string)
    (joints : option (list F)) :
  NoDup (map t_id ts) ->
  ty = "MOVE_J" \/ ty = "MOVE_L" ->
  step_of_move ts s (ty, joints) ->
  step_move (UR.targets_by_id ts) s
  = match joints with
    | Some js => Ok (if (ty =? "MOVE_J")%string then "MoveJ" else "MoveL",
                     print_joints js)
    | None => Raise TypeError
    end.
Proof.
  intros Hnd Hty (Hs & t & Hin & Hk & Hj). cbn [fst snd] in Hs, Hj.
  unfold step_move, UR.lookup_target, kw_get_none. rewrite Hk.
  cbn [default from_option]. unfold Datatypes.id.
  rewrite (targets_by_id_lookup ts t Hnd Hin). cbn [default from_option].
  unfold Datatypes.id, UR.joints_rad. rewrite Hj, Hs.
  destruct joints as [js|]; reflexivity.
Qed.

Lemma call_move_type (c : RukiE.call F Mat) ty joints :
  call_move c = Some (ty, joints) -> ty = "MOVE_J" \/ ty = "MOVE_L".
Proof. destruct c; try discriminate; intros Hc; injection Hc as <- _; auto. Qed.

Lemma call_move_printed (c : RukiE.call F Mat) ty joints :
  call_move c = Some (ty, joints) ->
  has_move_without_joints c = match joints with Some _ => false | None => true end
  /\ call_printed c
     = match joints with
       | Some js => Some (if (ty =? "MOVE_J")%string then "MoveJ" else "MoveL",
                          print_joints js)
       | None => None
       end.
Proof.
  destruct c; try discriminate; intros Hc; injection Hc as <- <-;
    match goal with
    | |- context [has_move_without_joints (_ _ ?j _)] => destruct j
    end; split; reflexivity.
Qed.

Lemma call_move_none (c : RukiE.call F Mat) :
  call_move c = None ->
  has_move_without_joints c = false /\ call_printed c = None.
Proof. destruct c; try discriminate; split; reflexivity. Qed.

Lemma mapM_moves (ts : list (target F)) (ss : list (step F))
    (cs : list (RukiE.call F Mat)) :
  NoDup (map t_id ts) ->
  Forall2 (step_of_move ts) ss (omap call_move cs) ->
  mapM (step_move (UR.targets_by_id ts)) ss
  = if existsb has_move_without_joints cs then Raise TypeError
    else Ok (omap call_printed cs).
Proof.
  intros Hnd. revert ss. induction cs as [|c cs IH]; intros ss Hm.
  { cbn in Hm. inversion Hm. reflexivity. }
  cbn [omap list_omap existsb] in Hm |- *.
  fold (omap (call_move (F:=F) (Mat:=Mat)) cs) in Hm.
  fold (omap (call_printed (F:=F) (Mat:=Mat)) cs).
  destruct (call_move c) as [[ty joints]|] eqn:Hc.
  - inversion Hm as [|s m ss' ms Hsm Hrest]; subst.
    cbn [mapM].
    rewrite (step_move_of_match ts s ty joints Hnd (call_move_type c ty joints Hc) Hsm).
    rewrite (IH ss' Hrest).
    destruct (call_move_printed c ty joints Hc) as [-> ->].
    destruct joints as [js|]; cbn [orb mbind result_bind Py.bind]; [|reflexivity].
    destruct (existsb has_move_without_joints cs); reflexivity.
  - rewrite (IH ss Hm). destruct (call_move_none c Hc) as [-> ->]. reflexivity.
Qed.

Lemma saved_moves (cs : list (RukiE.call F Mat)) :
  mapM (step_move (UR.targets_by_id (UR.ruki_targets (saved_ir RoboDK cs))))
       (List.filter is_move_step (UR.ruki_steps (saved_ir RoboDK cs)))
  = if existsb has_move_without_joints cs then Raise TypeError
    else Ok (omap call_printed cs).
Proof.
  unfold saved_ir. cbn [UR.ler_ruki UR.ruki_targets UR.ruki_steps
                         RukiE.build_ruki_data RukiE.rd_targets RukiE.rd_steps].
  apply mapM_moves; [apply target_ids_NoDup|apply run_moves_match].
Qed.

(** X26. From post-processor to archive: when every joint and
    linear move callback was given joints, the document [ProgSave] writes
    converts with [ruki_para_urp] without error, and the archive holds one
    Move per such callback, in order, with the callback's joints printed in
    radians. *)
Theorem saved_program_converts_to_archive (cs : list (RukiE.call F Mat))
    (rd : UR.robot) (pasta : string) :
  existsb has_move_without_joints cs = false ->
  exists o root,
    UR.ruki_para_urp (saved_ir RoboDK cs) (Some rd) pasta = Ok o
    /\ UR.sucesso o = true
    /\ In (UR.GzipXml root) (map snd (UR.written o))
    /\ map read_move (List.filter is_move (UR.main_children_of root))
       = expected_moves (omap call_printed cs).
Proof.
  intros Hj. pose proof (saved_moves cs) as Hmoves. rewrite Hj in Hmoves.
  pose proof (for_each_urp_step_mapM
                (UR.targets_by_id (UR.ruki_targets (saved_ir RoboDK cs)))
                (UR.urp rd) (UR.ruki_steps (saved_ir RoboDK cs)) UR.urp_acc0) as Hrun.
  rewrite Hmoves in Hrun. destruct Hrun as [acc Hrun].
  destruct (for_each_urp_step_emitted _ _ _ _ _ [] [] [] Hrun emitted_nil)
    as [l [Hl He]].
  rewrite Hmoves in Hl. injection Hl as <-.
  unfold UR.ruki_para_urp. rewrite Hrun. cbn [mbind result_bind Py.bind].
  eexists. eexists. split; [reflexivity|]. cbn [UR.sucesso UR.written map snd].
  split; [reflexivity|]. split; [left; reflexivity|].
  change (UR.main_children_of (UR.urp_root ?n ?u ?k)) with k.
  destruct He as (_ & _ & _ & _ & Hm & _). exact Hm.
Qed.

(** X27. If the host gave no joints to some joint or linear move,
    converting the saved document with [ruki_para_urp] raises TypeError:
    the target is saved with joints null, which the emitter iterates. *)
Theorem move_without_joints_breaks_the_archive (cs : list (RukiE.call F Mat))
    (rd : UR.robot) (pasta : string) :
  existsb has_move_without_joints cs = true ->
  UR.ruki_para_urp (saved_ir RoboDK cs) (Some rd) pasta = Raise TypeError.
Proof.
  intros Hj. pose proof (saved_moves cs) as Hmoves. rewrite Hj in Hmoves.
  pose proof (for_each_urp_step_mapM
                (UR.targets_by_id (UR.ruki_targets (saved_ir RoboDK cs)))
                (UR.urp rd) (UR.ruki_steps (saved_ir RoboDK cs)) UR.urp_acc0) as Hrun.
  rewrite Hmoves in Hrun. unfold UR.ruki_para_urp. rewrite Hrun. reflexivity.
Qed.

End BuilderToArchiveTheorems.

Section RukiDetectionFacts.

Lemma upper_append (a b : string) : UR.upper (a +:+ b) = UR.upper a +:+ UR.upper b.
Proof.
  induction a as [|c a IH]; [rewrite !append_nil_l; reflexivity|].
  cbn [UR.upper]. rewrite !append_cons. cbn [UR.upper]. rewrite IH. reflexivity.
Qed.

Lemma prefix_upper (key text : string) :
  String.prefix key text = true ->
  String.prefix (UR.upper key) (UR.upper text) = true.
Proof.
  revert text. induction key as [|k key IH]; intros text Hp;
    [destruct text; reflexivity|].
  destruct text as [|c text]; [discriminate Hp|].
  cbn [String.prefix] in Hp. cbn [UR.upper String.prefix].
  destruct (Ascii.ascii_dec k c) as [->|Hne]; [|discriminate Hp].
  destruct (Ascii.ascii_dec (UR.upper_char c) (UR.upper_char c)); [|contradiction].
  apply IH, Hp.
Qed.

Lemma contains_upper (key text : string) :
  UR.contains key text = true -> UR.contains (UR.upper key) (UR.upper text) = true.
Proof.
  induction text as [|c text IH]; cbn [UR.contains UR.upper]; intros Hc.
  - rewrite orb_false_r in Hc |- *. apply (prefix_upper key ""), Hc.
  - apply orb_true_iff in Hc as [Hp|Hc].
    + apply orb_true_iff. left. apply (prefix_upper key (String c text)), Hp.
    + apply orb_true_iff. right. apply IH, Hc.
Qed.

Lemma find_ext {A} (p q : A -> bool) (l : list A) :
  (forall x, p x = q x) -> List.find p l = List.find q l.
Proof.
  intros Hpq. induction l as [|x l IH]; [reflexivity|].
  cbn [List.find]. rewrite Hpq, IH. reflexivity.
Qed.

(** X28. For a [.ruki] file, with ASCII catalog keys and an ASCII robot
    name, [detectar_modelo] returns the first model of the catalog whose
    upper-cased name is part of the upper-cased robot name (the
    case-sensitive test of the source adds nothing), and nothing when the
    file cannot be read. *)
Theorem detectar_modelo_on_ruki (arquivo : string) (f : UR.file)
    (robos : list (string * UR.robot)) :
  UR.endswith ".ruki" arquivo = true ->
  forallb ascii_text (map fst robos) = true ->
  match UR.robot_name f with
  | Ok nome => ascii_text nome = true
  | Raise _ => True
  end ->
  UR.detectar_modelo arquivo f robos
  = match UR.robot_name f with
    | Ok nome =>
        List.find (fun m => UR.contains (UR.upper m) (UR.upper nome)) (map fst robos)
    | Raise _ => None
    end.
Proof.
  intros Hext _ _. unfold UR.detectar_modelo. rewrite Hext.
  destruct (UR.robot_name f) as [nome|e]; [|reflexivity].
  cbn [mbind result_bind Py.bind try_or_none default from_option].
  unfold Datatypes.id. apply find_ext. intros m.
  destruct (UR.contains m nome) eqn:Hc; [|reflexivity].
  rewrite (contains_upper m nome Hc). reflexivity.
Qed.

End RukiDetectionFacts.

Section RobotDataFacts.
Context {F : Type} `{Scalar F}.
Variable DADOS_ROBOS : list (string * RukiC.marca_data).

(** X29. For a known brand, a model that is not in the catalog is
    silently replaced by the brand's default model: the robot data, and so
    the whole conversion of an IR, are those of the default model. *)
Theorem unknown_model_uses_the_default (marca modelo : string)
    (d : RukiC.marca_data) :
  RukiC.dict_get marca DADOS_ROBOS = Some d ->
  RukiC.dict_get modelo (RukiC.robos d) = None ->
  RukiC.get_robot_data DADOS_ROBOS marca modelo
  = RukiC.get_robot_data DADOS_ROBOS marca (RukiC.modelo_padrao d)
  /\ forall (r : UR.ruki F) (pasta : string),
       RukiC.converter_ruki_para_urp DADOS_ROBOS r marca modelo pasta
       = RukiC.converter_ruki_para_urp DADOS_ROBOS r marca (RukiC.modelo_padrao d)
           pasta.
Proof.
  intros Hd Hm.
  assert (Heq : RukiC.get_robot_data DADOS_ROBOS marca modelo
                = RukiC.get_robot_data DADOS_ROBOS marca (RukiC.modelo_padrao d)).
  { unfold RukiC.get_robot_data. rewrite Hd, Hm.
    destruct (RukiC.dict_get (RukiC.modelo_padrao d) (RukiC.robos d)); reflexivity. }
  split; [exact Heq|]. intros r pasta.
  unfold RukiC.converter_ruki_para_urp. rewrite Heq. reflexivity.
Qed.

End RobotDataFacts.

Section ScriptLayoutFacts.
Context {F : Type} `{Scalar F}.

Lemma prefix_append (p x : string) : String.prefix p (p +:+ x) = true.
Proof.
  induction p as [|c p IH]; [destruct x; reflexivity|].
  rewrite append_cons. cbn [String.prefix].
  destruct (Ascii.ascii_dec c c); [exact IH|contradiction].
Qed.

Lemma script_counted_snoc (header : list string) (linhas : list string)
    (mc ic : nat) (l : string) :
  script_counted header (linhas, mc, ic) ->
  body_line l = true ->
  script_counted header
    (linhas ++ [l], (if is_move_line l then S mc else mc),
     (if is_io_line l then S ic else ic)).
Proof.
  intros (body & Hb & Hall & Hmc & Hic) Hl. cbn [fst snd] in *.
  exists (body ++ [l]). cbn [fst snd].
  rewrite Hb, <- app_assoc, forallb_app, Hall, !List.filter_app, !length_app.
  cbn [forallb List.filter]. rewrite Hl.
  repeat split; try reflexivity.
  - destruct (is_move_line l); cbn [length]; lia.
  - destruct (is_io_line l); cbn [length]; lia.
Qed.

Lemma script_step_counted (targets : gmap string (target F)) (header : list string)
    (acc acc' : list string * nat * nat) (s : step F) :
  UR.script_step targets acc s = Ok acc' ->
  script_counted header acc -> script_counted header acc'.
Proof.
  destruct acc as [[linhas mc] ic]. unfold UR.script_step. cbv zeta.
  intros Hstep Hc.
  destruct (s_type s =? "MOVE_J")%string.
  { destruct (UR.joints_rad _) as [j|e]; [|discriminate].
    cbn [mbind result_bind Py.bind] in Hstep. injection Hstep as <-.
    refine (script_counted_snoc header linhas mc ic _ Hc _); reflexivity. }
  destruct (s_type s =? "MOVE_L")%string.
  { destruct (UR.get_cartesian_pose _) as [[[|x xs]|]|e];
      cbn [mbind result_bind Py.bind] in Hstep; try discriminate;
      injection Hstep as <-; try exact Hc.
    refine (script_counted_snoc header linhas mc ic _ Hc _); reflexivity. }
  destruct (s_type s =? "SET_IO")%string.
  { injection Hstep as <-.
    refine (script_counted_snoc header linhas mc ic _ Hc _); reflexivity. }
  destruct (_ && _).
  { injection Hstep as <-.
    refine (script_counted_snoc header linhas mc ic _ Hc _); reflexivity. }
  injection Hstep as <-. exact Hc.
Qed.

Lemma for_each_script_step_counted (targets : gmap string (target F))
    (header : list string) (ss : list (step F))
    (acc acc' : list string * nat * nat) :
  UR.for_each (UR.script_step targets) acc ss = Ok acc' ->
  script_counted header acc -> script_counted header acc'.
Proof.
  revert acc. induction ss as [|s ss IH]; intros acc Hrun Hc.
  { cbn in Hrun. injection Hrun as <-. exact Hc. }
  cbn [UR.for_each] in Hrun.
  destruct (UR.script_step targets acc s) as [acc1|e] eqn:Hstep; [|discriminate].
  cbn [mbind result_bind Py.bind] in Hrun.
  apply (IH acc1 Hrun). apply (script_step_counted targets header acc acc1 s Hstep Hc).
Qed.

Lemma one_line_app (a b : string) : one_line (a +:+ b) = one_line a && one_line b.
Proof.
  induction a as [|c a IH]; [rewrite append_nil_l; reflexivity|].
  rewrite append_cons. unfold one_line in *.
  cbn [list_ascii_of_string forallb]. rewrite IH, andb_assoc. reflexivity.
Qed.

Lemma split_lines_one (a : string) : one_line a = true -> split_lines a = [a].
Proof.
  induction a as [|c a IH]; [reflexivity|]. unfold one_line.
  cbn [list_ascii_of_string forallb split_lines]. intros Ha.
  apply andb_true_iff in Ha as [Hc Ha]. apply negb_true_iff in Hc.
  rewrite Hc, (IH Ha). reflexivity.
Qed.

Lemma split_lines_cons (a b : string) :
  one_line a = true ->
  split_lines (a +:+ String line_feed b) = a :: split_lines b.
Proof.
  induction a as [|c a IH].
  - intros _. rewrite append_nil_l. cbn [split_lines].
    rewrite Ascii.eqb_refl. reflexivity.
  - unfold one_line. cbn [list_ascii_of_string forallb]. intros Ha.
    apply andb_true_iff in Ha as [Hc Ha]. apply negb_true_iff in Hc.
    rewrite append_cons. cbn [split_lines]. rewrite Hc, (IH Ha). reflexivity.
Qed.

Lemma split_lines_join (l : list string) :
  l <> [] -> forallb one_line l = true ->
  split_lines (join (String line_feed EmptyString) l) = l.
Proof.
  induction l as [|a l IH]; [contradiction|]. intros _ Hall.
  cbn [forallb] in Hall. apply andb_true_iff in Hall as [Ha Hall].
  destruct l as [|b l]; [apply split_lines_one, Ha|].
  change (join (String line_feed "") (a :: b :: l))
    with (a +:+ String line_feed "" +:+ join (String line_feed "") (b :: l)).
  rewrite append_cons, append_nil_l, (split_lines_cons _ _ Ha), IH;
    [reflexivity|discriminate|exact Hall].
Qed.

Lemma one_line_join (sep : string) (l : list string) :
  one_line sep = true -> forallb one_line l = true -> one_line (join sep l) = true.
Proof.
  intros Hsep. induction l as [|a l IH]; [reflexivity|]. intros Hall.
  cbn [forallb] in Hall. apply andb_true_iff in Hall as [Ha Hall].
  destruct l as [|b l]; [exact Ha|].
  change (join sep (a :: b :: l)) with (a +:+ sep +:+ join sep (b :: l)).
  rewrite !one_line_app, Ha, Hsep, (IH Hall). reflexivity.
Qed.

Lemma forallb_map_true {A B} (p : B -> bool) (g : A -> B) (l : list A) :
  (forall x, p (g x) = true) -> forallb p (map g l) = true.
Proof. intros Hp. induction l as [|x l IH]; [reflexivity|]. cbn. rewrite Hp, IH. reflexivity. Qed.

Section OneLineSteps.
Hypothesis format_one_line : forall (d : nat) (x : F), one_line (format_f d x) = true.

Lemma script_step_one_line (targets : gmap string (target F))
    (acc acc' : list string * nat * nat) (s : step F) :
  prints_one_line s = true ->
  UR.script_step targets acc s = Ok acc' ->
  forallb one_line acc.1.1 = true -> forallb one_line acc'.1.1 = true.
Proof.
  destruct acc as [[linhas mc] ic]. unfold UR.script_step, prints_one_line.
  cbv zeta. cbn [fst snd]. intros Hs Hstep Hall.
  apply andb_true_iff in Hs as [Hio Htext].
  assert (Hnums : forall l : list F,
            one_line (join "," (map (format_f 6) l)) = true).
  { intros l. apply one_line_join; [reflexivity|].
    apply forallb_map_true, format_one_line. }
  destruct (s_type s =? "MOVE_J")%string.
  { destruct (UR.joints_rad _) as [j|e]; [|discriminate].
    cbn [mbind result_bind Py.bind] in Hstep. injection Hstep as <-. cbn [fst].
    rewrite forallb_app, Hall. cbn [forallb].
    rewrite !one_line_app, Hnums. reflexivity. }
  destruct (s_type s =? "MOVE_L")%string.
  { destruct (UR.get_cartesian_pose _) as [[[|x xs]|]|e];
      cbn [mbind result_bind Py.bind] in Hstep; try discriminate;
      injection Hstep as <-; cbn [fst]; try exact Hall.
    rewrite forallb_app, Hall. cbn [forallb].
    pose proof (Hnums (x :: xs)) as Hx. cbn [map join] in Hx.
    rewrite !one_line_app, Hx. reflexivity. }
  destruct (s_type s =? "SET_IO")%string.
  { injection Hstep as <-. cbn [fst]. rewrite forallb_app, Hall. cbn [forallb].
    rewrite !one_line_app, Hio. destruct (truthy _); reflexivity. }
  destruct (_ && _).
  { injection Hstep as <-. cbn [fst]. rewrite forallb_app, Hall. cbn [forallb].
    rewrite !one_line_app, Htext. reflexivity. }
  injection Hstep as <-. exact Hall.
Qed.

Lemma for_each_script_step_one_line (targets : gmap string (target F))
    (ss : list (step F)) (acc acc' : list string * nat * nat) :
  forallb prints_one_line ss = true ->
  UR.for_each (UR.script_step targets) acc ss = Ok acc' ->
  forallb one_line acc.1.1 = true -> forallb one_line acc'.1.1 = true.
Proof.
  revert acc. induction ss as [|s ss IH]; intros acc Hss Hrun Hall.
  { cbn in Hrun. injection Hrun as <-. exact Hall. }
  cbn [forallb] in Hss. apply andb_true_iff in Hss as [Hs Hss].
  cbn [UR.for_each] in Hrun.
  destruct (UR.script_step targets acc s) as [acc1|e] eqn:Hstep; [|discriminate].
  cbn [mbind result_bind Py.bind] in Hrun.
  apply (IH acc1 Hss Hrun).
  apply (script_step_one_line targets acc acc1 s Hs Hstep Hall).
Qed.

End OneLineSteps.

(** X30. When the program name, the printed output indices, the comment
    texts and the printed numbers hold no line feed and [ruki_para_script]
    returns, the file <name>.script it wrote has these lines: the [def]
    line, the five global settings printed from the initial state with
    three decimals, an empty line, body lines that are each a move, an
    output or a comment, and the closing [end], empty line and call.  The
    reported numbers of moves and outputs are the numbers of move and
    output lines of the body. *)
Theorem ruki_script_layout (r : UR.ruki F) (robot_data : option UR.robot)
    (pasta : string) (o : UR.outcome) :
  let nome := default "programa" (UR.program_name r) in
  let path := UR.path_join pasta (nome +:+ ".script") in
  (forall (d : nat) (x : F), one_line (format_f d x) = true) ->
  one_line nome = true ->
  forallb prints_one_line (UR.ruki_steps r) = true ->
  UR.ruki_para_script r robot_data pasta = Ok o ->
  exists text sl sj al aj ro body,
    UR.written o = [(path, UR.Text text)]
    /\ UR.ini_get (UR.ruki_initial_state r) "speed_linear" 500 = Ok sl
    /\ UR.ini_get (UR.ruki_initial_state r) "speed_joints" 60 = Ok sj
    /\ UR.ini_get (UR.ruki_initial_state r) "accel_linear" 2000 = Ok al
    /\ UR.ini_get (UR.ruki_initial_state r) "accel_joints" 180 = Ok aj
    /\ UR.ini_get (UR.ruki_initial_state r) "rounding" 0 = Ok ro
    /\ split_lines text
       = ["def " +:+ nome +:+ "():";
          "  global speed_ms = " +:+ format_f 3 (sl / lit 1000 0)%py;
          "  global speed_rads = " +:+ format_f 3 (UR.deg2rad sj);
          "  global accel_mss = " +:+ format_f 3 (al / lit 1000 0)%py;
          "  global accel_radss = " +:+ format_f 3 (UR.deg2rad aj);
          "  global blend_radius_m = " +:+ format_f 3 (ro / lit 1000 0)%py;
          ""]
         ++ body ++ ["end"; ""; nome +:+ "()"]
    /\ forallb body_line body = true
    /\ UR.sucesso o = true
    /\ UR.caminho o = Some path
    /\ UR.mensagem o
       = "Movimentos: " +:+ str_nat (length (List.filter is_move_line body)) +:+ "
IOs: " +:+ str_nat (length (List.filter is_io_line body)) +:+ "

Arquivo: " +:+ path.
Proof.
  intros nome path Hfmt Hnome Hsteps. subst nome path.
  unfold UR.ruki_para_script. cbv zeta.
  destruct (UR.ini_get _ "speed_linear" _) as [sl|e];
    cbn [mbind result_bind Py.bind]; [|intros Ho; discriminate Ho].
  destruct (UR.ini_get _ "speed_joints" _) as [sj|e];
    cbn [mbind result_bind Py.bind]; [|intros Ho; discriminate Ho].
  destruct (UR.ini_get _ "accel_linear" _) as [al|e];
    cbn [mbind result_bind Py.bind]; [|intros Ho; discriminate Ho].
  destruct (UR.ini_get _ "accel_joints" _) as [aj|e];
    cbn [mbind result_bind Py.bind]; [|intros Ho; discriminate Ho].
  destruct (UR.ini_get _ "rounding" _) as [ro|e];
    cbn [mbind result_bind Py.bind]; [|intros Ho; discriminate Ho].
  match goal with
  | |- context [UR.for_each _ (?h, 0, 0) _] => set (header := h)
  end.
  destruct (UR.for_each _ _ _) as [[[linhas mc] ic]|e] eqn:Hrun;
    cbn [mbind result_bind Py.bind]; [|intros Ho; discriminate Ho].
  intros Ho. injection Ho as <-.
  assert (H0 : script_counted header (header, 0, 0)).
  { exists []. cbn [fst snd]. split; [symmetry; apply app_nil_r|].
    repeat split; reflexivity. }
  destruct (for_each_script_step_counted _ header _ _ _ Hrun H0)
    as (body & Hb & Hall & Hmc & Hic).
  assert (Hh1 : forallb one_line header = true).
  { unfold header. cbn [forallb]. rewrite !one_line_app, Hnome, !Hfmt. reflexivity. }
  pose proof (for_each_script_step_one_line Hfmt _ _ _ _ Hsteps Hrun Hh1) as Hone.
  cbn [fst snd] in Hb, Hmc, Hic, Hone. subst linhas mc ic.
  cbn [UR.written UR.sucesso UR.caminho UR.mensagem].
  eexists _, sl, sj, al, aj, ro, body.
  split; [reflexivity|]. do 5 (split; [reflexivity|]).
  split.
  { rewrite split_lines_join.
    - unfold header. rewrite <- app_assoc. reflexivity.
    - unfold header. discriminate.
    - rewrite forallb_app, Hone. cbn [forallb]. rewrite !one_line_app, Hnome.
      reflexivity. }
  split; [exact Hall|]. repeat split; reflexivity.
Qed.

End ScriptLayoutFacts.

Section DecimalLines.

Lemma one_line_uint (d : Decimal.uint) : one_line (NilEmpty.string_of_uint d) = true.
Proof. induction d; cbn [NilEmpty.string_of_uint]; try reflexivity; exact IHd. Qed.

Lemma one_line_nz_uint (d : Decimal.uint) :
  one_line (NilZero.string_of_uint d) = true.
Proof.
  unfold NilZero.string_of_uint. destruct d; try reflexivity;
    apply (one_line_uint (_ d)).
Qed.

Lemma one_line_str_Z (z : Z) : one_line (str_Z z) = true.
Proof.
  unfold str_Z, NilZero.string_of_int.
  destruct (Z.to_int z) as [d|d]; [apply one_line_nz_uint|].
  change (one_line (String "-" (NilZero.string_of_uint d)))
    with (true && one_line (NilZero.string_of_uint d)).
  rewrite one_line_nz_uint. reflexivity.
Qed.

Lemma one_line_zfill (w : nat) (s : string) :
  one_line s = true -> one_line (zfill w s) = true.
Proof.
  intros Hs. unfold zfill. induction (w - String.length s) as [|n IH]; [exact Hs|].
  cbn [Nat.iter]. exact IH.
Qed.

Lemma one_line_Rformat_f (d : nat) (x : R) : one_line (Exact.Rformat_f d x) = true.
Proof.
  unfold Exact.Rformat_f. cbv zeta. rewrite !one_line_app, one_line_str_Z.
  destruct (Rlt_dec x 0); destruct (d =? 0)%nat; try reflexivity;
    rewrite one_line_app, one_line_zfill by apply one_line_str_Z; reflexivity.
Qed.

End DecimalLines.

(** ** Instances of the theorems above on sample inputs *)

Section BuilderWitnesses.

(** Instance of X2: the joint move of the sample traversal. *)
Lemma only_setters_change_the_state_witness :
  In (demo_step 1) (RukiE.steps (RukiE.run standalone demo_calls))
  /\ is_setter (s_type (demo_step 1)) = false
  /\ s_state_after (demo_step 1) = s_state_before (demo_step 1).
Proof.
  assert (Hin : In (demo_step 1) (RukiE.steps (RukiE.run standalone demo_calls))).
  { apply nth_In. vm_compute. lia. }
  split; [exact Hin|]. split; [reflexivity|].
  exact (only_setters_change_the_state standalone demo_calls (demo_step 1) Hin eq_refl).
Defined.

(** Instance of X3: a speed change before the first program start. *)
Lemma initial_state_is_taken_once_witness :
  existsb is_ProgStart [RukiE.CsetSpeed (F := R) (Mat := list R) 200%R] = false
  /\ RukiE.initial_state (RukiE.run standalone [RukiE.CsetSpeed 200%R]) = None
  /\ RukiE.initial_state
       (RukiE.run standalone
          ([RukiE.CsetSpeed 200%R] ++ RukiE.CProgStart "Main"
             :: [RukiE.CMoveJ None (Some [0; -90; 0; -90; 0; 0]%R) None]))
     = Some (RukiE.current_state (RukiE.run standalone [RukiE.CsetSpeed 200%R])).
Proof.
  split; [reflexivity|].
  exact (initial_state_is_taken_once standalone [RukiE.CsetSpeed 200%R]
           [RukiE.CMoveJ None (Some [0; -90; 0; -90; 0; 0]%R) None] "Main" eq_refl).
Defined.

(** Instance of X4: the linear move of the sample traversal. *)
Lemma move_steps_resolve_to_their_targets_witness :
  In (demo_step 3) (RukiE.steps (RukiE.run standalone demo_calls))
  /\ s_type (demo_step 3) = "MOVE_L"
  /\ exists t,
       In t (RukiE.targets (RukiE.run standalone demo_calls))
       /\ kw_get "target" (s_fields (demo_step 3)) = Some (PStr (t_id t))
       /\ UR.lookup_target
            (UR.targets_by_id (RukiE.targets (RukiE.run standalone demo_calls)))
            (demo_step 3) = t.
Proof.
  assert (Hin : In (demo_step 3) (RukiE.steps (RukiE.run standalone demo_calls))).
  { apply nth_In. vm_compute. lia. }
  split; [exact Hin|]. split; [reflexivity|].
  exact (move_steps_resolve_to_their_targets standalone demo_calls (demo_step 3) Hin
           (or_intror eq_refl)).
Defined.

(** Instance of X5: the second target of the sample traversal. *)
Lemma target_context_is_defined_witness :
  In (demo_target 1) (RukiE.targets (RukiE.run standalone demo_calls))
  /\ context_defined (RukiE.frames (RukiE.run standalone demo_calls))
                     (RukiE.tools (RukiE.run standalone demo_calls)) (demo_target 1).
Proof.
  assert (Hin : In (demo_target 1) (RukiE.targets (RukiE.run standalone demo_calls))).
  { apply nth_In. vm_compute. lia. }
  split; [exact Hin|].
  exact (target_context_is_defined standalone demo_calls (demo_target 1) Hin).
Defined.

(** Instance of X6: the output step of the sample traversal. *)
Lemma io_steps_are_registered_witness :
  In (demo_step 2) (RukiE.steps (RukiE.run standalone demo_calls))
  /\ s_type (demo_step 2) = "SET_IO"
  /\ io_step_registered (RukiE.io_map (RukiE.run standalone demo_calls)) (demo_step 2).
Proof.
  assert (Hin : In (demo_step 2) (RukiE.steps (RukiE.run standalone demo_calls))).
  { apply nth_In. vm_compute. lia. }
  split; [exact Hin|]. split; [reflexivity|].
  exact (io_steps_are_registered standalone demo_calls (demo_step 2) Hin
           (or_introl eq_refl)).
Defined.

End BuilderWitnesses.

Section MoreBuilderWitnesses.

(** Instance of X10: a subprogram of two steps after a main program of one step. *)
Lemma subprogram_brackets_its_steps_witness :
  let before := RukiE.run standalone main_prefix in
  let after :=
    RukiE.run standalone
      (main_prefix ++ RukiE.CProgStart "Grip" :: grip_body ++ [RukiE.CProgFinish "Grip"]) in
  started main_prefix <> []
  /\ RukiE.filter_name standalone "Grip" <> ""
  /\ forallb in_body grip_body = true
  /\ RukiE.subprograms after !! "Grip"
     = Some {| RukiE.start_step := 2; RukiE.end_step := Some 3 |}
  /\ RukiE.current_subprogram after = None
  /\ map s_index (drop (length (RukiE.steps before)) (RukiE.steps after)) = [2; 3].
Proof.
  cbv zeta.
  split; [discriminate|]. split; [discriminate|]. split; [reflexivity|].
  generalize (subprogram_brackets_its_steps standalone main_prefix grip_body
                "Grip" "Grip" ltac:(discriminate) ltac:(discriminate) eq_refl).
  vm_compute. exact (fun Hsub => Hsub).
Defined.

(** Instance of X11: a named joint move followed by a linear move. *)
Lemma target_name_is_used_once_witness :
  let before := RukiE.run standalone main_prefix in
  let after :=
    RukiE.run standalone
      (main_prefix ++ [RukiE.CTargetName (Some "Pick");
                       RukiE.CMoveJ None (Some [10; -80; 0; -90; 0; 0]%R) None;
                       RukiE.CMoveL None (Some [20; -80; 0; -90; 0; 0]%R) None]) in
  "Pick" <> ""
  /\ map t_name (drop (length (RukiE.targets before)) (RukiE.targets after))
     = ["Pick"; "Target_3"]
  /\ RukiE._TargetName after = None.
Proof.
  cbv zeta. split; [discriminate|].
  generalize (target_name_is_used_once standalone main_prefix "Pick" None None
                (Some [10; -80; 0; -90; 0; 0]%R) (Some [20; -80; 0; -90; 0; 0]%R)
                None None ltac:(discriminate)).
  vm_compute. exact (fun Hname => Hname).
Defined.

(** Instance of X12: a name with a space and a hyphen. *)
Lemma filter_name_fallback_witness :
  forallb is_ascii (list_ascii_of_string "Pick part-1") = true
  /\ String.length (RukiE.filter_chars "Pick part-1") = String.length "Pick part-1"
  /\ forallb name_char (list_ascii_of_string (RukiE.filter_chars "Pick part-1")) = true
  /\ RukiE.filter_chars (RukiE.filter_chars "Pick part-1")
     = RukiE.filter_chars "Pick part-1"
  /\ (forallb name_char (list_ascii_of_string "Pick part-1") = true
      -> RukiE.filter_chars "Pick part-1" = "Pick part-1").
Proof.
  split; [reflexivity|].
  exact (filter_name_fallback "Pick part-1" eq_refl).
Defined.

End MoreBuilderWitnesses.

Section PoseWitnesses.
Open Scope R_scope.

Lemma quarter_turn_is_rotation : is_rotation quarter_turn.
Proof.
  unfold is_rotation, quarter_turn, row_dot, det3, at_. cbn [nth length].
  split; [reflexivity|]. split; [repeat constructor|]. repeat split; ring.
Qed.

Lemma quarter_turn_angle : rotation_angle quarter_turn = PI / 2.
Proof.
  unfold rotation_angle, quarter_turn, at_. cbn [nth].
  replace ((0 + 0 + 1 - 1) / 2) with 0 by field.
  rewrite clamp1_id by lra. apply acos_0.
Qed.

(** Instance of X14: the rotation vector (0, 0, 1). *)
Lemma rotation_vector_of_rodrigues_witness :
  1e-3 <= sqrt (0 * 0 + 0 * 0 + 1 * 1) <= 3
  /\ UR.rotation_vector (UR.ur_pose_to_robodk_R 0 0 1) = Ok [0; 0; 1].
Proof.
  assert (Hth : 1e-3 <= sqrt (0 * 0 + 0 * 0 + 1 * 1) <= 3).
  { replace (0 * 0 + 0 * 0 + 1 * 1) with 1 by ring. rewrite sqrt_1. lra. }
  split; [exact Hth|].
  exact (rotation_vector_of_rodrigues 0 0 1 Hth).
Defined.

(** Instance of X15: the quarter turn about the z axis. *)
Lemma rotation_vector_length_is_the_angle_witness :
  is_rotation quarter_turn
  /\ 1e-3 <= rotation_angle quarter_turn <= 3
  /\ exists rx ry rz,
       UR.rotation_vector quarter_turn = Ok [rx; ry; rz]
       /\ sqrt (rx * rx + ry * ry + rz * rz) = rotation_angle quarter_turn.
Proof.
  assert (Hangle : 1e-3 <= rotation_angle quarter_turn <= 3).
  { rewrite quarter_turn_angle. pose proof PI_gt_3. pose proof PI_4. lra. }
  split; [exact quarter_turn_is_rotation|]. split; [exact Hangle|].
  exact (rotation_vector_length_is_the_angle quarter_turn quarter_turn_is_rotation
           Hangle).
Defined.

(** Instance of X16: a target given by its pose list. *)
Lemma cartesian_pose_has_six_values_witness :
  let l := [300 / lit 1000 0; 0 / lit 1000 0; 500 / lit 1000 0;
            UR.deg2rad 180; UR.deg2rad 0; UR.deg2rad 0] in
  UR.get_cartesian_pose pose_only_target = Ok (Some l) /\ length l = 6%nat.
Proof.
  cbv zeta. split; [reflexivity|].
  exact (cartesian_pose_has_six_values pose_only_target _ eq_refl).
Defined.

(** Instance of X17: a target without matrix. *)
Lemma cartesian_pose_falls_back_to_pose_witness :
  no_usable_matrix pose_only_target
  /\ UR.get_cartesian_pose pose_only_target
     = Ok (Some [300 / lit 1000 0; 0 / lit 1000 0; 500 / lit 1000 0;
                 UR.deg2rad 180; UR.deg2rad 0; UR.deg2rad 0]).
Proof.
  split; [exact I|].
  exact (cartesian_pose_falls_back_to_pose pose_only_target I).
Defined.

(** Instance of X18: a matrix whose second row has three entries. *)
Lemma short_matrix_row_raises_witness :
  t_pose_matrix (target_with_matrix short_row_matrix) = Val short_row_matrix
  /\ length short_row_matrix = 4%nat
  /\ (1 < 3)%nat
  /\ nth_error short_row_matrix 1 = Some [0; 1; 0]
  /\ (length [0; 1; 0] < 4)%nat
  /\ UR.get_cartesian_pose (target_with_matrix short_row_matrix) = Raise IndexError.
Proof.
  assert (H13 : (1 < 3)%nat) by lia.
  assert (H34 : (length [0; 1; 0] < 4)%nat) by (cbn; lia).
  split; [reflexivity|]. split; [reflexivity|]. split; [exact H13|].
  split; [reflexivity|]. split; [exact H34|].
  exact (short_matrix_row_raises (target_with_matrix short_row_matrix)
           short_row_matrix 1 [0; 1; 0] eq_refl eq_refl H13 eq_refl H34).
Defined.

(** Instance of X19: a matrix whose first diagonal entry is -2. *)
Lemma improper_matrix_raises_witness :
  t_pose_matrix (target_with_matrix stretched_matrix) = Val stretched_matrix
  /\ is_4x4 stretched_matrix
  /\ at_ stretched_matrix 0 0 + at_ stretched_matrix 1 1 + at_ stretched_matrix 2 2
     <= -1
  /\ (at_ stretched_matrix 0 0 < -1 \/ at_ stretched_matrix 1 1 < -1
      \/ at_ stretched_matrix 2 2 < -1)
  /\ UR.get_cartesian_pose (target_with_matrix stretched_matrix) = Raise ValueError.
Proof.
  assert (H4 : is_4x4 stretched_matrix).
  { split; [reflexivity|]. repeat constructor. }
  assert (Htr : at_ stretched_matrix 0 0 + at_ stretched_matrix 1 1
                + at_ stretched_matrix 2 2 <= -1).
  { unfold at_, stretched_matrix. cbn [nth]. lra. }
  assert (Hd : at_ stretched_matrix 0 0 < -1 \/ at_ stretched_matrix 1 1 < -1
               \/ at_ stretched_matrix 2 2 < -1).
  { left. unfold at_, stretched_matrix. cbn [nth]. lra. }
  split; [reflexivity|]. split; [exact H4|]. split; [exact Htr|].
  split; [exact Hd|].
  exact (improper_matrix_raises (target_with_matrix stretched_matrix)
           stretched_matrix eq_refl H4 Htr Hd).
Defined.

(** Instance of X20: six joint angles in degrees. *)
Lemma radians_are_read_back_as_degrees_witness :
  Forall (fun j => Rabs j <= 360) [45; -90; 0; 90; 0; 180]
  /\ UR.radians_heuristic (map UR.deg2rad [45; -90; 0; 90; 0; 180])
     = [45; -90; 0; 90; 0; 180]
  /\ (length [45; -90; 0; 90; 0; 180] = 6%nat ->
      UR.parse_line {| UR.lm_skipped := false; UR.lm_joints_comment := None;
                       UR.lm_movej :=
                         Some (Ok (map UR.deg2rad [45; -90; 0; 90; 0; 180]));
                       UR.lm_movel := None; UR.lm_io := None |}
      = [UR.Move "MoveJ" (Some [45; -90; 0; 90; 0; 180]) Absent]).
Proof.
  assert (Hall : Forall (fun j => Rabs j <= 360) [45; -90; 0; 90; 0; 180]).
  { repeat constructor; unfold Rabs;
      match goal with |- context [Rcase_abs ?x] => destruct (Rcase_abs x) end; lra. }
  split; [exact Hall|].
  exact (radians_are_read_back_as_degrees [45; -90; 0; 90; 0; 180] Hall).
Defined.

End PoseWitnesses.

Section EmitterWitnesses.
Open Scope R_scope.

(** Instance of X21: the script with two joint moves and two outputs. *)
Lemma script_archive_content_witness :
  let cmds := UR.parse_script_moves four_lines in
  let o := UR.script_para_urp "demo" four_lines (Some UR20) "out" in
  UR.sucesso o = true
  /\ exists root,
       UR.written o = [(UR.path_join "out" "demo.urp", UR.GzipXml root)]
       /\ map UR.xml_tag (UR.main_children_of root) = omap comando_tag cmds
       /\ map read_move (List.filter is_move (UR.main_children_of root))
          = expected_moves (omap comando_move cmds)
       /\ map digital_value (List.filter is_set (UR.main_children_of root))
          = expected_values (omap comando_value cmds).
Proof.
  cbv zeta. split; [reflexivity|].
  exact (script_archive_content "demo" four_lines UR20 "out" eq_refl).
Defined.

(** Instance of X22: an IR with one joint move and one output. *)
Lemma ruki_archive_content_witness :
  let targets := UR.targets_by_id (UR.ruki_targets joint_ir) in
  UR.ruki_para_urp joint_ir (Some UR20) "out" = Ok joint_ir_archive
  /\ exists root moves,
       UR.written joint_ir_archive
       = [(UR.path_join "out" ("pega" +:+ ".urp"), UR.GzipXml root)]
       /\ mapM (step_move targets) (List.filter is_move_step (UR.ruki_steps joint_ir))
          = Ok moves
       /\ map UR.xml_tag (UR.main_children_of root)
          = map step_tag (List.filter emits_element (UR.ruki_steps joint_ir))
       /\ map read_move (List.filter is_move (UR.main_children_of root))
          = expected_moves moves
       /\ map digital_value (List.filter is_set (UR.main_children_of root))
          = expected_values
              (map step_value (List.filter is_set_step (UR.ruki_steps joint_ir))).
Proof.
  cbv zeta. split; [reflexivity|].
  exact (ruki_archive_content joint_ir UR20 "out" joint_ir_archive eq_refl).
Defined.

(** Instance of X24: the script with two joint moves and two outputs. *)
Lemma robodk_program_keeps_every_move_witness :
  let cmds := UR.parse_script_moves four_lines in
  forallb pose_printable cmds = true
  /\ exists codigo,
       UR.script_para_robodk "demo.script" "demo" four_lines (Some UR20) "out"
       = Ok {| UR.sucesso := true;
               UR.mensagem :=
                 "Movimentos: " +:+ str_nat (length (List.filter is_move_cmd cmds))
                 +:+ "
IOs: " +:+ str_nat (length (List.filter is_io cmds)) +:+ "

Arquivo: " +:+ robodk_path "out" "demo";
               UR.caminho := Some (robodk_path "out" "demo");
               UR.written := [(robodk_path "out" "demo", UR.Text codigo)] |}.
Proof.
  cbv zeta. split; [reflexivity|].
  exact (robodk_program_keeps_every_move "demo.script" "demo" four_lines (Some UR20)
           "out" eq_refl).
Defined.

(** Instance of X25: a linear move with a pose of three values. *)
Lemma robodk_program_raises_on_incomplete_pose_witness :
  let c := UR.Move "MoveL" None (Val [0.3; 0.2; 0.5]) in
  UR.parse_script_moves [movej_radians; movel_short_pose; io_line]
  = UR.parse_line movej_radians ++ c :: [UR.Io 2 true]
  /\ forallb pose_printable (UR.parse_line movej_radians) = true
  /\ pose_printable c = false
  /\ UR.script_para_robodk "demo.script" "demo"
       [movej_radians; movel_short_pose; io_line] (Some UR20) "out"
     = Raise IndexError.
Proof.
  cbv zeta. split; [reflexivity|]. split; [reflexivity|]. split; [reflexivity|].
  exact (robodk_program_raises_on_incomplete_pose "demo.script" "demo"
           [movej_radians; movel_short_pose; io_line] (Some UR20) "out"
           (UR.parse_line movej_radians) [UR.Io 2 true]
           (UR.Move "MoveL" None (Val [0.3; 0.2; 0.5])) eq_refl eq_refl eq_refl).
Defined.

(** Instance of X26: the sample traversal, where both moves carry joints. *)
Lemma saved_program_converts_to_archive_witness :
  existsb has_move_without_joints demo_calls = false
  /\ exists o root,
       UR.ruki_para_urp (saved_ir standalone demo_calls) (Some UR20) "out" = Ok o
       /\ UR.sucesso o = true
       /\ In (UR.GzipXml root) (map snd (UR.written o))
       /\ map read_move (List.filter is_move (UR.main_children_of root))
          = expected_moves (omap call_printed demo_calls).
Proof.
  split; [reflexivity|].
  exact (saved_program_converts_to_archive standalone demo_calls UR20 "out" eq_refl).
Defined.

(** Instance of X27: a traversal with a linear move given by its pose only. *)
Lemma move_without_joints_breaks_the_archive_witness :
  existsb has_move_without_joints pose_only_calls = true
  /\ UR.ruki_para_urp (saved_ir standalone pose_only_calls) (Some UR20) "out"
     = Raise TypeError.
Proof.
  split; [reflexivity|].
  exact (move_without_joints_breaks_the_archive standalone pose_only_calls UR20 "out"
           eq_refl).
Defined.

(** Instance of X28: a file whose robot name holds the model in lower case. *)
Lemma detectar_modelo_on_ruki_witness :
  UR.endswith ".ruki" "celula.ruki" = true
  /\ forallb ascii_text (map fst three_models) = true
  /\ ascii_text "ur20 da celula 3" = true
  /\ UR.detectar_modelo "celula.ruki" ruki_file three_models = Some "UR20".
Proof.
  split; [reflexivity|]. split; [reflexivity|]. split; [reflexivity|].
  generalize (detectar_modelo_on_ruki "celula.ruki" ruki_file three_models
                eq_refl eq_refl eq_refl).
  vm_compute. exact (fun Hd => Hd).
Defined.

(** Instance of X29: a model the brand does not list. *)
Lemma unknown_model_uses_the_default_witness :
  RukiC.dict_get "Universal Robots" one_brand
  = Some {| RukiC.modelo_padrao := "UR20"; RukiC.modelos_ordem := ["UR3e"; "UR20"];
            RukiC.robos := three_models |}
  /\ RukiC.dict_get "UR16e" three_models = None
  /\ RukiC.get_robot_data one_brand "Universal Robots" "UR16e"
     = RukiC.get_robot_data one_brand "Universal Robots" "UR20"
  /\ forall (r : UR.ruki R) (pasta : string),
       RukiC.converter_ruki_para_urp one_brand r "Universal Robots" "UR16e" pasta
       = RukiC.converter_ruki_para_urp one_brand r "Universal Robots" "UR20" pasta.
Proof.
  split; [reflexivity|]. split; [reflexivity|].
  exact (unknown_model_uses_the_default one_brand "Universal Robots" "UR16e" _
           eq_refl eq_refl).
Defined.

(** Instance of X30: an IR with one joint move and one output. *)
Lemma ruki_script_layout_witness :
  (forall (d : nat) (x : R), one_line (format_f d x) = true)
  /\ one_line "pega" = true
  /\ forallb prints_one_line (UR.ruki_steps joint_ir) = true
  /\ UR.ruki_para_script joint_ir (Some UR20) "out" = Ok joint_ir_script
  /\ exists text sl sj al aj ro body,
       UR.written joint_ir_script = [(UR.path_join "out" ("pega" +:+ ".script"), UR.Text text)]
       /\ UR.ini_get (UR.ruki_initial_state joint_ir) "speed_linear" 500 = Ok sl
       /\ UR.ini_get (UR.ruki_initial_state joint_ir) "speed_joints" 60 = Ok sj
       /\ UR.ini_get (UR.ruki_initial_state joint_ir) "accel_linear" 2000 = Ok al
       /\ UR.ini_get (UR.ruki_initial_state joint_ir) "accel_joints" 180 = Ok aj
       /\ UR.ini_get (UR.ruki_initial_state joint_ir) "rounding" 0 = Ok ro
       /\ split_lines text
          = ["def " +:+ "pega" +:+ "():";
             "  global speed_ms = " +:+ format_f 3 (sl / lit 1000 0)%py;
             "  global speed_rads = " +:+ format_f 3 (UR.deg2rad sj);
             "  global accel_mss = " +:+ format_f 3 (al / lit 1000 0)%py;
             "  global accel_radss = " +:+ format_f 3 (UR.deg2rad aj);
             "  global blend_radius_m = " +:+ format_f 3 (ro / lit 1000 0)%py;
             ""]
            ++ body ++ ["end"; ""; "pega" +:+ "()"]
       /\ forallb body_line body = true
       /\ UR.sucesso joint_ir_script = true
       /\ UR.caminho joint_ir_script
          = Some (UR.path_join "out" ("pega" +:+ ".script"))
       /\ UR.mensagem joint_ir_script
          = "Movimentos: " +:+ str_nat (length (List.filter is_move_line body)) +:+ "
IOs: " +:+ str_nat (length (List.filter is_io_line body)) +:+ "

Arquivo: " +:+ UR.path_join "out" ("pega" +:+ ".script").
Proof.
  split; [exact one_line_Rformat_f|]. split; [reflexivity|]. split; [reflexivity|].
  split; [reflexivity|].
  exact (ruki_script_layout joint_ir (Some UR20) "out" joint_ir_script
           one_line_Rformat_f eq_refl eq_refl eq_refl).
Defined.

End EmitterWitnesses.
